(** * PaperForest: streak computation and calendar-grid rendering

    A shallow embedding of the core of [paperforest.py] (the functions
    [compute_streaks], [stage_for_count] and [render_forest]) together with
    the properties its specification states about them.

    Modelling conventions.
    - A [datetime.date] is represented by its proleptic Gregorian ordinal
      ([date.toordinal()], 0001-01-01 = 1); the ordinals that are dates are
      those from [date_min] to [date_max].  [d + timedelta(days=k)] and
      [d - timedelta(days=k)] are [date_add] and [date_sub], which raise
      [OverflowError] when the result is no date, and [timedelta(days=k)]
      raises it beyond 999999999 days.  Where a sum lies between two dates
      the function already holds, it is written as an integer sum.
    - A Python [int] is a [Z]; [//] and [%] with a positive divisor are
      [Z.div] and [Z.modulo].
    - [date.today()] reads the ambient wall clock; the clock is an explicit
      [World] argument of every function that calls it.  The clock is taken
      at a moment at which [date.today()] returns, that is when it shows a
      date ([clock_in_range]).
    - A [dict] is the list of its entries in insertion order; [m[k] = v]
      keeps the place of a key that is present and appends a new one.
    - A [str] is kept as its UTF-8 bytes.
    - Exceptions and loops that the embedding bounds by fuel are the
      constructors of [outcome]. *)

From stdpp Require Import base decidable numbers list sets gmap strings pretty.

Local Open Scope Z_scope.

(** ** Outcomes of a call *)

Inductive exn : Type :=
| IndexError
| KeyError
| OverflowError.

Inductive outcome (A : Type) : Type :=
| Ret (a : A)
| Raise (e : exn)
| OutOfFuel.

Arguments Ret {A} a.
Arguments Raise {A} e.
Arguments OutOfFuel {A}.

Global Instance outcome_ret : MRet outcome := fun A a => Ret a.

Global Instance outcome_bind : MBind outcome := fun A B k m =>
  match m with
  | Ret a => k a
  | Raise e => Raise e
  | OutOfFuel => OutOfFuel
  end.

(** [for x in xs: s = body(s, x)] *)
Fixpoint for_each {A St : Type} (body : St -> A -> outcome St) (xs : list A) (s : St)
  : outcome St :=
  match xs with
  | [] => Ret s
  | x :: xs' => s' ← body s x; for_each body xs' s'
  end.

(** ** Dates *)

Definition date : Type := Z.

Definition is_leap (y : Z) : bool :=
  (y mod 4 =? 0) && (negb (y mod 100 =? 0) || (y mod 400 =? 0)).

Definition days_before_year (y : Z) : Z :=
  let p := y - 1 in p * 365 + p / 4 - p / 100 + p / 400.

Definition days_in_month (y m : Z) : Z :=
  if m =? 2 then (if is_leap y then 29 else 28)
  else if (m =? 4) || (m =? 6) || (m =? 9) || (m =? 11) then 30
  else 31.

Definition days_before_month (y m : Z) : Z :=
  foldr Z.add 0 (map (days_in_month y) (seqZ 1 (m - 1))).

(** [date(y, m, d).toordinal()] *)
Definition ymd (y m d : Z) : date :=
  days_before_year y + days_before_month y m + d.

(** [d.weekday()], Monday = 0 ... Sunday = 6 *)
Definition weekday (d : date) : Z := (d + 6) mod 7.

(** [date.min.toordinal()] and [date.max.toordinal()]: 0001-01-01 and
    9999-12-31. *)
Definition date_min : date := 1.
Definition date_max : date := 3652059.

(** The ordinals that are dates. *)
Definition valid_date (d : date) : Prop := date_min <= d <= date_max.

(** [timedelta(days=days)]: [OverflowError] beyond 999999999 days. *)
Definition timedelta (days : Z) : outcome Z :=
  if bool_decide (- 999999999 <= days <= 999999999) then Ret days
  else Raise OverflowError.

(** [d + td] and [d - td] for a [timedelta] of [days] days:
    [OverflowError] when the result is no date. *)
Definition date_add (d : date) (days : Z) : outcome date :=
  if bool_decide (valid_date (d + days)) then Ret (d + days) else Raise OverflowError.

Definition date_sub (d : date) (days : Z) : outcome date :=
  if bool_decide (valid_date (d - days)) then Ret (d - days) else Raise OverflowError.

(** ** The ambient wall clock *)

(** The local wall-clock time, in seconds since 1970-01-01T00:00 local time. *)
Record World : Type := { local_time : Z }.

(** [date.today()]; 719163 is [date(1970, 1, 1).toordinal()]. *)
Definition date_today (w : World) : date := 719163 + local_time w / 86400.

(** A world whose clock shows [s] seconds past midnight on [d]. *)
Definition world_at (d : date) (s : Z) : World :=
  {| local_time := (d - 719163) * 86400 + s |}.

(** ** Streak calculator: [compute_streaks] *)

(** [while (cur + timedelta(days=1)) in day_set: cur += ...; run += 1].
    The sum of the test and the sum of the update are the same date; it is
    computed once.  [timedelta(days=1)] returns. *)
Fixpoint run_forward (fuel : nat) (day_set : gset date) (cur run : Z) : outcome Z :=
  match fuel with
  | O => OutOfFuel
  | S fuel' =>
      next ← date_add cur 1;
      if decide (next ∈ day_set)
      then run_forward fuel' day_set next (run + 1)
      else Ret run
  end.

(** [while (cur - timedelta(days=1)) in day_set: cur -= ...; current += 1] *)
Fixpoint run_backward (fuel : nat) (day_set : gset date) (cur current : Z) : outcome Z :=
  match fuel with
  | O => OutOfFuel
  | S fuel' =>
      prev ← date_sub cur 1;
      if decide (prev ∈ day_set)
      then run_backward fuel' day_set prev (current + 1)
      else Ret current
  end.

(** Body of [for d in days] in the longest-streak pass. *)
Definition longest_step (fuel : nat) (day_set : gset date) (longest : Z) (d : date)
  : outcome Z :=
  prev ← date_sub d 1;
  if decide (prev ∈ day_set) then Ret longest
  else run ← run_forward fuel day_set d 1; Ret (Z.max longest run).

(** The day the current streak ends on: today, else yesterday, else none.
    Yesterday is computed only when today is not logged. *)
Definition streak_end (day_set : gset date) (today : date) : outcome (option date) :=
  if decide (today ∈ day_set) then Ret (Some today)
  else
    yesterday ← date_sub today 1;
    if decide (yesterday ∈ day_set) then Ret (Some yesterday) else Ret None.

Definition compute_streaks (days : list date) (w : World) : outcome (Z * Z) :=
  match days with
  | [] => Ret (0, 0)
  | _ =>
      let day_set : gset date := list_to_set days in
      let fuel := S (size day_set) in
      longest ← for_each (longest_step fuel day_set) days 1;
      let today := date_today w in
      end_ ← streak_end day_set today;
      match end_ with
      | None => Ret (0, longest)
      | Some end_ =>
          current ← run_backward fuel day_set end_ 1;
          Ret (current, longest)
      end
  end.

(** ** Python containers *)

(** A [dict] from dates to integers: the entries in insertion order. *)
Definition dict : Type := list (date * Z).

(** [m.keys()] *)
Definition dict_keys (m : dict) : list date := m.*1.

Fixpoint dict_find (m : dict) (k : date) : option Z :=
  match m with
  | [] => None
  | (k', v) :: m' => if decide (k' = k) then Some v else dict_find m' k
  end.

(** [k in m] *)
Definition dict_contains (m : dict) (k : date) : bool :=
  match dict_find m k with Some _ => true | None => false end.

(** [m[k]] *)
Definition dict_getitem (m : dict) (k : date) : outcome Z :=
  match dict_find m k with Some v => Ret v | None => Raise KeyError end.

(** [m.get(k, dflt)] *)
Definition dict_get (m : dict) (k : date) (dflt : Z) : Z :=
  default dflt (dict_find m k).

(** [m[k] = v]: an existing key keeps its place, a new key goes last. *)
Fixpoint dict_setitem (m : dict) (k : date) (v : Z) : dict :=
  match m with
  | [] => [(k, v)]
  | (k', v') :: m' =>
      if decide (k' = k) then (k, v) :: m' else (k', v') :: dict_setitem m' k v
  end.

(** [range(n)] *)
Definition range (n : Z) : list Z := seqZ 0 n.

(** [l * n] on lists *)
Definition list_times {A : Type} (l : list A) (n : nat) : list A :=
  mjoin (replicate n l).

(** The position [seq[i]] denotes: negative indices count from the end. *)
Definition list_index {A : Type} (l : list A) (i : Z) : outcome nat :=
  let n := Z.of_nat (length l) in
  if bool_decide (0 <= i < n) then Ret (Z.to_nat i)
  else if bool_decide (- n <= i < 0) then Ret (Z.to_nat (n + i))
  else Raise IndexError.

(** [l[i]] *)
Definition list_getitem {A : Type} (l : list A) (i : Z) : outcome A :=
  j ← list_index l i;
  match l !! j with Some x => Ret x | None => Raise IndexError end.

(** [l[i] = x] *)
Definition list_setitem {A : Type} (l : list A) (i : Z) (x : A) : outcome (list A) :=
  j ← list_index l i; Ret (<[j := x]> l).

(** ** Daily aggregator: the count map and the per-day streak pass *)

(** [{d: 0 for d in (start + timedelta(days=i)
              for i in range((end - start).days + 1))}].  Each sum lies
    between the dates [start] and [end_]. *)
Definition zero_counts (start end_ : date) : dict :=
  foldl (fun m i => dict_setitem m (start + i) 0) [] (range (end_ - start + 1)).

(** [for d_iso, c in rows: counts[parse_iso(d_iso)] = int(c)] *)
Definition fill_counts (counts : dict) (rows : list (date * Z)) : dict :=
  foldl (fun m row => dict_setitem m row.1 row.2) counts rows.

(** [while (cur - timedelta(days=1)) in counts
          and counts[cur - timedelta(days=1)] > 0:
        cur -= timedelta(days=1); day_streak += 1].
    The difference is the same date at each of its three places in a turn of
    the loop; it is computed once, at the first. *)
Fixpoint walk_back (fuel : nat) (counts : dict) (cur day_streak : Z) : outcome Z :=
  match fuel with
  | O => OutOfFuel
  | S fuel' =>
      prev ← date_sub cur 1;
      if dict_contains counts prev then
        v ← dict_getitem counts prev;
        if bool_decide (v > 0)
        then walk_back fuel' counts prev (day_streak + 1)
        else Ret day_streak
      else Ret day_streak
  end.

(** Body of [for d in counts.keys()]: the walk, then
    [counts[d] = day_streak + 1 if counts[d] > 0 else 0]. *)
Definition streak_step (counts : dict) (d : date) : outcome dict :=
  day_streak ← walk_back (S (length counts)) counts d 0;
  v ← dict_getitem counts d;
  Ret (dict_setitem counts d (if bool_decide (v > 0) then day_streak + 1 else 0)).

(** The streak pass.  The body only assigns to keys that are present, so the
    key view it iterates is the key list at loop entry. *)
Definition day_streaks (counts : dict) : outcome dict :=
  for_each streak_step (dict_keys counts) counts.

(** ** Stage selector: [stage_for_count] *)

Local Open Scope string_scope.

Definition RAND_SEED : Z := 19.

Definition SEED_LIST : list string := ["🫘"; "🌰"].
Definition SAPLING_LIST : list string :=
  list_times ["🌱"] 10 ++ list_times ["🌿"; "🍃"; "☘️"] 3 ++ ["🍀"].
Definition TREE_LIST : list string :=
  list_times ["🌳"; "🌲"] 4 ++ ["🍄"; "🍄‍🟫"].
Definition BUG_LIST : list string := ["🐛"; "🐞"; "🦋"; "🐝"; "🐜"; "🦗"; "🐌"; "🕷️"].
Definition WOODLAND_ANIMAL_LIST : list string := ["🐿️"; "🦡"; "🦔"; "🦌"; "🐭"; "🦊"; "🐻"; "🐺"; "🦉"; "🦅"].

(** A cell of the grid that shows no day. *)
Definition blank : string := " ".

(** The symbol of a day without a streak. *)
Definition empty_glyph : string := ".".

(** ** Grid cells *)

Abbreviation grid := (list (list string)).

(** [grid[row][col] = cell].  The rows of the grid are separate lists (built
    by a nested comprehension), so the assignment changes one row only. *)
Definition grid_set (g : grid) (row col : Z) (cell : string) : outcome grid :=
  r ← list_getitem g row;
  r' ← list_setitem r col cell;
  list_setitem g row r'.

(** [[[" " for _ in range(cols)] for _ in range(7)]] *)
Definition blank_grid (cols : Z) : grid :=
  (fun _ => (fun _ => blank) <$> range cols) <$> range 7.

(** The event store as the renderer sees it: [db start end_] is the result
    of [SELECT logged_on, COUNT( * ) ... WHERE logged_on BETWEEN start AND end_
    GROUP BY logged_on], each row with its date parsed and its count as an
    integer. *)
Definition conn : Type := date -> date -> list (date * Z).

(** The count map of the window: every day of it at 0, then the rows the
    query returned. *)
Definition load_counts (db : conn) (start end_ : date) : dict :=
  let counts := zero_counts start end_ in
  let rows := db start end_ in
  fill_counts counts rows.

Definition weekday_labels : list string :=
  ["Mon"; "Tue"; "Wed"; "Thu"; "Fri"; "Sat"; "Sun"].

Definition newline : string := String (Ascii.ascii_of_nat 10) EmptyString.

(** [random.Random]: a generator object, its seeded constructor
    [Random(seed)] and the draw [_randbelow(n)] that [choice] is written
    with.  They belong to the Python library, not to this program, and are
    taken as an interface.  A generator built from an explicit seed reads
    nothing but the seed, so [Random] is a function of it.  A generator made
    by [stage_for_count] serves one draw and is dropped, so the state it is
    left in is not modelled. *)
Class RandomLib : Type := {
  Rng : Type;
  Random : Z -> Rng;
  randbelow : Rng -> Z -> Z
}.

(** The library's contract for [_randbelow]: a draw below a positive [n]
    lies in [[0, n)]. *)
Definition randbelow_in_range `{RandomLib} : Prop :=
  forall (g : Rng) (n : Z), (0 < n)%Z -> (0 <= randbelow g n < n)%Z.

Section Forest.

Context `{RandomLib}.

(** [rand.choice(seq)]: [IndexError] on an empty sequence, else
    [seq[self._randbelow(len(seq))]]. *)
Definition choice (rand : Rng) (seq : list string) : outcome string :=
  match seq with
  | [] => Raise IndexError
  | _ => list_getitem seq (randbelow rand (Z.of_nat (length seq)))
  end.

Definition stage_for_count (n : Z) : outcome string :=
  if bool_decide (n <= 0)%Z then Ret empty_glyph
  else if bool_decide (n = 1%Z) then
    let rand := Random RAND_SEED in choice rand SEED_LIST
  else if bool_decide (n = 2%Z) then
    let rand := Random RAND_SEED in choice rand SAPLING_LIST
  else if bool_decide (n = 3%Z) then
    let rand := Random RAND_SEED in choice rand TREE_LIST
  else if bool_decide (n = 4%Z) then
    let rand := Random RAND_SEED in choice rand BUG_LIST
  else
    let rand := Random RAND_SEED in choice rand WOODLAND_ANIMAL_LIST.

(** ** Grid renderer: [render_forest] *)

(** Body of [for i in range(days_total)].  The day [start_aligned + i] lies
    between the dates [start_aligned] and [end_]. *)
Definition cell_step (start end_ start_aligned : date) (counts : dict)
    (g : grid) (i : Z) : outcome grid :=
  let d := (start_aligned + i)%Z in
  let col := (i / 7)%Z in
  let row := weekday d in
  if bool_decide (d < start)%Z || bool_decide (d > end_)%Z
  then grid_set g row col blank
  else s ← stage_for_count (dict_get counts d 0); grid_set g row col s.

(** [render_forest] up to the filled grid.  The Monday [start_aligned] is a
    date whenever [start] is one, 0001-01-01 being a Monday. *)
Definition forest_grid (db : conn) (weeks : Z) (w : World) : outcome grid :=
  let end_ := date_today w in
  td ← timedelta (weeks * 7 - 1)%Z;
  start ← date_sub end_ td;
  let counts := load_counts db start end_ in
  counts ← day_streaks counts;
  let start_aligned := (start - (weekday start - 0) `mod` 7)%Z in
  let days_total := (end_ - start_aligned + 1)%Z in
  let cols := ((days_total + 6) / 7)%Z in
  for_each (cell_step start end_ start_aligned counts) (range days_total)
    (blank_grid cols).

(** The text [render_forest] returns: a header, then one labelled line for
    each weekday row. *)
Definition render_forest (db : conn) (weeks : Z) (w : World) : outcome string :=
  g ← forest_grid db weeks w;
  let header := "PaperForest — last " +:+ pretty weeks +:+ " weeks (Mon→Sun)" in
  lines ← for_each (fun lines r =>
                      label ← list_getitem weekday_labels r;
                      cells ← list_getitem g r;
                      Ret (lines ++ [label +:+ "  " +:+ String.concat "" cells])%list)
                   (range 7) [header];
  Ret (String.concat newline lines).

End Forest.

(** * Definitions for the statements *)

Local Close Scope string_scope.
Local Open Scope Z_scope.

(** ** Dates and the clock *)

(** The clock shows a date: [date.today()] returns. *)
Definition clock_in_range (w : World) : Prop := valid_date (date_today w).

(** A date that has a day before it: any date but 0001-01-01. *)
Definition after_min (d : date) : Prop := date_min < d <= date_max.

(** A date that has a day before it and a day after it. *)
Definition inside (d : date) : Prop := date_min < d < date_max.

(** A logged day next to which there is no date. *)
Definition overflows (D : gset date) : Prop :=
  ∃ c, c ∈ D ∧ (¬ valid_date (c - 1) ∨ ¬ valid_date (c + 1)).

(** ** Runs of logged days *)

(** [d] starts a run: it is logged and the day before is not. *)
Definition run_start (D : gset date) (d : date) : Prop :=
  d ∈ D ∧ d - 1 ∉ D.

(** The run that begins at [d] has exactly [k] days: [d .. d + k - 1] are
    logged and [d + k] is not. *)
Definition run_from (D : gset date) (d : date) (k : Z) : Prop :=
  1 <= k ∧ (∀ j, 0 <= j < k → d + j ∈ D) ∧ d + k ∉ D.

(** The run that ends at [a] has exactly [k] days: [a - k + 1 .. a] are
    logged and [a - k] is not. *)
Definition run_upto (D : gset date) (a : date) (k : Z) : Prop :=
  1 <= k ∧ (∀ j, 0 <= j < k → a - j ∈ D) ∧ a - k ∉ D.

(** [m] is the greatest length of a run, taken over all run starts. *)
Definition max_run (D : gset date) (m : Z) : Prop :=
  (∃ d, run_start D d ∧ run_from D d m) ∧
  (∀ d k, run_start D d → run_from D d k → k <= m).

(** What [compute_streaks] reports as the longest streak of [days]. *)
Definition longest_of (days : list date) (longest : Z) : Prop :=
  (days = [] ∧ longest = 0) ∨ (days ≠ [] ∧ max_run (list_to_set days) longest).

(** What [compute_streaks] reports as the current streak: the run that ends
    today, else the run that ends yesterday, else nothing. *)
Definition current_of (D : gset date) (today : date) (current : Z) : Prop :=
  (today ∈ D ∧ run_upto D today current) ∨
  ((today ∉ D) ∧ today - 1 ∈ D ∧ run_upto D (today - 1) current) ∨
  ((today ∉ D) ∧ (today - 1 ∉ D) ∧ current = 0).

(** ** Active days of a count map *)

(** The key [k] is present with a count above zero: the test of the
    backward walk. *)
Definition is_active (m : dict) (k : date) : bool :=
  match dict_find m k with Some v => bool_decide (v > 0) | None => false end.

(** Number of entries whose key lies before [c]. *)
Fixpoint keys_below (m : dict) (c : date) : nat :=
  match m with
  | [] => 0
  | (k, _) :: m' => (if decide (k < c) then 1 else 0) + keys_below m' c
  end.

(** The days just before [d] that are present with a count above zero
    number exactly [k]. *)
Definition active_before (m : dict) (d : date) (k : Z) : Prop :=
  0 <= k ∧ (∀ j, 1 <= j <= k → is_active m (d - j) = true) ∧
  is_active m (d - k - 1) = false.

(** The value the pass stores for a day whose count is [v] and whose walk
    found [ds] active days before it. *)
Definition stored_streak (v ds : Z) : Z :=
  if bool_decide (v > 0) then ds + 1 else 0.

(** [st] has the keys of [orig], in the same order, and the same days are
    active in both. *)
Definition same_activity (orig st : dict) : Prop :=
  dict_keys st = dict_keys orig ∧ ∀ k, is_active st k = is_active orig k.

(** Every key of [m] has a date before it: the pass can step back from it. *)
Definition keys_safe (m : dict) : Prop :=
  ∀ k, k ∈ dict_keys m → valid_date (k - 1).

(** ** The streak pass on an unmodified copy *)

(** For comparison with [streak_step]: the same step, reading the walk and
    the day's count from [original], an unmodified copy of the counts, and
    writing the streak into [result]. *)
Definition streak_step_from_copy (original result : dict) (d : date) : outcome dict :=
  day_streak ← walk_back (S (length original)) original d 0;
  v ← dict_getitem original d;
  Ret (dict_setitem result d (if bool_decide (v > 0) then day_streak + 1 else 0)).

(** For comparison with [day_streaks]: every day's streak computed from an
    unmodified copy of the original counts. *)
Definition day_streaks_from_copy (counts : dict) : outcome dict :=
  for_each (streak_step_from_copy counts) (dict_keys counts) counts.

(** ** Grids, weekdays and symbols *)

(** The grid with [cols] columns whose cell in row [r], column [c] is
    [f r c]. *)
Definition grid_table (cols : Z) (f : Z → Z → string) : grid :=
  (λ r, (λ c, f r c) <$> range cols) <$> range 7.

(** The cell in row [r], column [c], both counted from 0. *)
Definition grid_cell (g : grid) (r c : Z) : option string :=
  if bool_decide (0 <= r ∧ 0 <= c)
  then row ← g !! Z.to_nat r; row !! Z.to_nat c
  else None.

(** The Monday on or before [d]. *)
Definition monday_of (d : date) : date := d - weekday d.

(** The palette a positive streak length draws from. *)
Definition tier_of (n : Z) : list string :=
  if bool_decide (n = 1) then SEED_LIST
  else if bool_decide (n = 2) then SAPLING_LIST
  else if bool_decide (n = 3) then TREE_LIST
  else if bool_decide (n = 4) then BUG_LIST
  else WOODLAND_ANIMAL_LIST.

(** The symbol [stage_for_count n] returns, when it returns. *)
Definition glyph `{RandomLib} (n : Z) : string :=
  match stage_for_count n with Ret s => s | _ => blank end.

(** What the renderer puts in the cell of day [d]. *)
Definition day_cell `{RandomLib} (start end_ : date) (streaks : dict) (d : date) : string :=
  if bool_decide (d < start) || bool_decide (d > end_) then blank
  else glyph (dict_get streaks d 0).

(** The grid after the first [n] days from [monday] have been placed. *)
Definition grid_upto `{RandomLib} (start end_ monday : date) (streaks : dict) (cols n : Z) : grid :=
  grid_table cols (λ r c,
    if decide (7 * c + r < n) then day_cell start end_ streaks (monday + (7 * c + r))
    else blank).

(** ** Concrete data *)

(** The counts of the specification's end-to-end example, and its streaks. *)
Definition example_counts : dict :=
  [(ymd 2024 1 1, 1); (ymd 2024 1 2, 1); (ymd 2024 1 3, 0); (ymd 2024 1 4, 1)].

Definition example_streaks : dict :=
  [(ymd 2024 1 1, 1); (ymd 2024 1 2, 2); (ymd 2024 1 3, 0); (ymd 2024 1 4, 1)].

(** A small instance of the generator interface, for concrete runs: the
    generator state is its seed and a draw below [n] is the seed modulo [n]. *)
Definition seed_mod : RandomLib :=
  {| Rng := Z; Random := λ seed, seed; randbelow := λ g n, g `mod` n |}.

(** An event store with 1, 3 and 1 events on 2024-01-01, 01-02 and 01-04. *)
Definition example_db : conn :=
  λ start end_,
    filter (λ row : date * Z, start <= row.1 <= end_)
      [(ymd 2024 1 1, 1); (ymd 2024 1 2, 3); (ymd 2024 1 4, 1)].

(** * Definitions for the further properties *)

(** The count of the last row of [rows] for the day [d], if there is one. *)
Definition last_count (rows : list (date * Z)) (d : date) : option Z :=
  snd <$> last (filter (λ row : date * Z, row.1 = d) rows).

(** The clock shows a date, the window starts at a date after 0001-01-01
    and the rows of the window are dated after 0001-01-01: what the renderer
    needs to return. *)
Definition window_in_range (db : conn) (weeks : Z) (w : World) : Prop :=
  clock_in_range w ∧ after_min (date_today w - (weeks * 7 - 1)) ∧
  ∀ row, row ∈ db (date_today w - (weeks * 7 - 1)) (date_today w) → after_min row.1.

(** The lines of the text [render_forest] makes of the grid [g]. *)
Definition forest_lines (weeks : Z) (g : grid) : list string :=
  ("PaperForest — last " +:+ pretty weeks +:+ " weeks (Mon→Sun)")%string ::
  zip_with (λ label row, label +:+ "  " +:+ String.concat "" row)%string weekday_labels g.

(** ** The command layer

    The functions around the core: [word_count], [add_log],
    [get_distinct_days] and the commands [cmd_log], [cmd_stats] and
    [cmd_remove].

    Modelling conventions.
    - A command works on a [Console] (the lines of standard input that are
      left and what has been printed) and on a [database] (the rows of the
      table [reading_log]); it returns both with its [result], also when it
      ends with an exception.
    - A text that the program takes from the user and measures, trims,
      stores or compares is the list of its code points; the texts the
      program prints are strings as in the core.  Texts are well-formed
      (no lone surrogate), so that SQLite stores each of them.
    - The statements of SQL are the list functions next to which they are
      quoted.  The bound of a row [id] (2^63 - 1) is not tracked.
    - [date.isoformat] and [datetime.strptime] are an interface,
      [DateLib]. *)

From stdpp Require Import sorting.

Local Open Scope Z_scope.

(** ** Text: [word_count] *)

(** A [str] that the program measures, trims or stores (a title, a summary,
    an identifier, a date as text) is kept as the list of its code points:
    [strip] and [split] act on characters, not on bytes. *)
Definition text : Type := list Z.

(** The code points of a string of ASCII characters. *)
Definition text_of_string (s : string) : text :=
  (λ a, Z.of_N (Ascii.N_of_ascii a)) <$> String.list_ascii_of_string s.

(** [c.isspace()]: the white space of [str.strip] and [str.split], that is
    U+0009 to U+000D, U+001C to U+0020, U+0085, U+00A0, U+1680, U+2000 to
    U+200A, U+2028, U+2029, U+202F, U+205F and U+3000. *)
Definition isspace (c : Z) : bool :=
  bool_decide (9 <= c <= 13 ∨ 28 <= c <= 32 ∨ c = 133 ∨ c = 160 ∨ c = 5760 ∨
               8192 <= c <= 8202 ∨ c = 8232 ∨ c = 8233 ∨ c = 8239 ∨ c = 8287 ∨
               c = 12288).

(** [s.lstrip()] *)
Fixpoint lstrip (s : text) : text :=
  match s with
  | [] => []
  | c :: s' => if isspace c then lstrip s' else s
  end.

(** [s.rstrip()] *)
Definition rstrip (s : text) : text := reverse (lstrip (reverse s)).

(** [s.strip()] *)
Definition strip (s : text) : text := rstrip (lstrip s).

(** [s.split()] with the word begun so far: runs of white space separate the
    words and are dropped. *)
Fixpoint split_from (s : text) (word : text) : list text :=
  match s with
  | [] => match word with [] => [] | _ => [word] end
  | c :: s' =>
      if isspace c
      then match word with [] => split_from s' [] | _ => word :: split_from s' [] end
      else split_from s' (word ++ [c])
  end.

(** [s.split()] *)
Definition split (s : text) : list text := split_from s [].

Definition MIN_WORDS : Z := 100.

(** [len([w for w in text.strip().split() if w])] *)
Definition word_count (t : text) : Z :=
  Z.of_nat (length (filter (λ w : text, w ≠ []) (split (strip t)))).

(** [s.replace('-', '')] *)
Definition remove_hyphens (s : text) : text := filter (λ c : Z, c ≠ 45) s.

(** Number of words of [s], for a reader that is inside a word or not. *)
Fixpoint words_from (s : text) (inside : bool) : nat :=
  match s with
  | [] => if inside then 1 else 0
  | c :: s' =>
      if isspace c then (if inside then 1 else 0) + words_from s' false
      else words_from s' true
  end.

(** ** The console and the outcomes of a command *)

(** What a command can end with besides a result: [EOFError] from
    [input()], [ValueError] from [parse_iso], and [CoreError e] for an
    exception [e] of the kinds the core functions raise; [OverflowError] is
    raised by the date arithmetic of the core and by the binding of an
    integer outside the 64-bit range to a query. *)
Inductive failure : Type :=
| EOFError
| ValueError
| CoreError (e : exn)
| CoreOutOfFuel.

Inductive result (A : Type) : Type :=
| Ok (a : A)
| Error (e : failure).

Arguments Ok {A} a.
Arguments Error {A} e.

Global Instance result_ret : MRet result := fun A a => Ok a.

Global Instance result_bind : MBind result := fun A B k m =>
  match m with
  | Ok a => k a
  | Error e => Error e
  end.

(** The outcome of a core function inside a command. *)
Definition lift {A : Type} (o : outcome A) : result A :=
  match o with
  | Ret a => Ok a
  | Raise e => Error (CoreError e)
  | OutOfFuel => Error CoreOutOfFuel
  end.

(** The lines still to be read from standard input, without their line
    ends, and what has been printed, one entry for each call of [print]. *)
Record Console : Type := { stdin : list text; stdout : list string }.

Local Open Scope string_scope.

(** The prompt of [cmd_log]; its text ends with a line end of its own. *)
Definition summary_prompt : string :=
  "Paste your 100+ word summary. End with Ctrl-D (Unix) / Ctrl-Z Enter (Windows):" +:+ newline.

(** [f"Summary is {wc} words; minimum is {MIN_WORDS}."] *)
Definition summary_short (wc : Z) : string :=
  "Summary is " +:+ pretty wc +:+ " words; minimum is " +:+ pretty MIN_WORDS +:+ ".".

Local Close Scope string_scope.

(** The loop of [cmd_log] that completes the summary:
    [while wc < MIN_WORDS: summary += input() + "\n"; wc = word_count(summary);
     if wc < MIN_WORDS: print(...)].
    Each turn of the loop calls [input()] once, which takes the next line of
    standard input and raises [EOFError] when there is none.  The result
    comes with the lines left unread and with what has been printed. *)
Fixpoint read_summary (lines : list text) (summary : text) (out : list string)
  : list text * list string * result text :=
  if bool_decide (word_count summary < MIN_WORDS) then
    match lines with
    | [] => (lines, out, Error EOFError)
    | line :: lines' =>
        let summary := summary ++ (line ++ [10]) in
        let wc := word_count summary in
        let out := if bool_decide (wc < MIN_WORDS) then out ++ [summary_short wc] else out in
        read_summary lines' summary out
    end
  else (lines, out, Ok summary).

(** ** The event store *)

(** A row of the table [reading_log]. *)
Record log_row : Type := {
  row_id : Z;
  paper_title : text;
  paper_id : option text;
  summary : text;
  word_count_of : Z;
  logged_on : text
}.

(** The table in insertion order, and the largest [id] it has ever held:
    [id] is [INTEGER PRIMARY KEY AUTOINCREMENT]. *)
Record database : Type := { rows : list log_row; last_id : Z }.

(** [a <= b] for two [TEXT] values: SQLite compares their bytes, which for
    UTF-8 is the order of the code points, a proper prefix coming first. *)
Fixpoint text_leb (a b : text) : bool :=
  match a, b with
  | [], _ => true
  | _ :: _, [] => false
  | x :: a', y :: b' => if decide (x = y) then text_leb a' b' else bool_decide (x < y)
  end.

Definition text_le (a b : text) : Prop := text_leb a b.

(** The distinct values of a column in ascending order. *)
Definition sort_distinct (l : list text) : list text :=
  merge_sort text_le (remove_dups l).

(** [SELECT COUNT( * ) FROM reading_log WHERE logged_on = ?] *)
Definition count_logged_on (db : database) (logged : text) : Z :=
  Z.of_nat (length (filter (λ r, logged_on r = logged) (rows db))).

(** [INSERT INTO reading_log (paper_title, paper_id, summary, word_count,
    logged_on) VALUES (?, ?, ?, ?, ?)] *)
Definition insert_log (db : database) (title : text) (pid : option text)
    (summary : text) (wc : Z) (logged : text) : database :=
  let id := last_id db + 1 in
  {| rows := rows db ++ [ {| row_id := id; paper_title := title; paper_id := pid;
                             summary := summary; word_count_of := wc;
                             logged_on := logged |} ];
     last_id := id |}.

(** [SELECT DISTINCT logged_on FROM reading_log ORDER BY logged_on ASC] *)
Definition select_days (db : database) : list text :=
  sort_distinct (logged_on <$> rows db).

(** [SELECT logged_on, COUNT( * ) FROM reading_log
     WHERE logged_on BETWEEN ? AND ? GROUP BY logged_on].  SQL leaves the
    order of the groups open; they are taken in ascending order, as SQLite
    yields them. *)
Definition select_counts (db : database) (lo hi : text) : list (text * Z) :=
  let inside := filter (λ r, text_le lo (logged_on r) ∧ text_le (logged_on r) hi) (rows db) in
  (λ d, (d, Z.of_nat (length (filter (λ r, logged_on r = d) inside))))
    <$> sort_distinct (logged_on <$> inside).

(** [SELECT COUNT( * ) FROM reading_log] *)
Definition count_logs (db : database) : Z := Z.of_nat (length (rows db)).

(** The parameter [args.id] of [cmd_remove] is an integer and the column
    [paper_id] is [TEXT]: SQLite compares the column with the decimal text
    of the integer. *)
Definition id_text (id : Z) : text := text_of_string (pretty id).

(** [SELECT COUNT( * ) FROM reading_log WHERE paper_id = ?] *)
Definition count_paper_id (db : database) (pid : text) : Z :=
  Z.of_nat (length (filter (λ r, paper_id r = Some pid) (rows db))).

(** [DELETE FROM reading_log WHERE paper_id = ?] *)
Definition delete_paper_id (db : database) (pid : text) : database :=
  {| rows := filter (λ r, paper_id r ≠ Some pid) (rows db); last_id := last_id db |}.

(** ** Dates as text *)

(** [date.isoformat()] and [datetime.strptime(_, "%Y-%m-%d").date()], the
    latter with [None] for [ValueError].  They belong to the Python library
    and are taken as an interface. *)
Class DateLib : Type := {
  isoformat : date -> text;
  strptime_ymd : text -> option date
}.

Section Commands.

Context `{RandomLib} `{DateLib}.

(** [today_iso()] *)
Definition today_iso (w : World) : text := isoformat (date_today w).

(** [parse_iso(d)] *)
Definition parse_iso (d : text) : result date :=
  match strptime_ymd d with
  | Some x => Ok x
  | None => Error ValueError
  end.

(** [add_log(conn, title, summary, paper_id, logged_on)].  An absent or
    empty [logged_on] stands for today; an absent [paper_id] is made from
    the day and the number of logs of that day. *)
Definition add_log (db : database) (title summary : text)
    (paper_id logged_on : option text) (w : World) : database :=
  let wc := word_count summary in
  let logged :=
    match logged_on with
    | Some (c :: s) => c :: s
    | _ => today_iso w
    end in
  let paper_id :=
    match paper_id with
    | Some p => strip p
    | None =>
        let num := count_logged_on db logged + 1 in
        remove_hyphens logged ++ text_of_string (pretty num)
    end in
  insert_log db (strip title) (Some paper_id) (strip summary) wc logged.

(** [get_distinct_days(conn)] *)
Definition get_distinct_days (db : database) : result (list date) :=
  mapM parse_iso (select_days db).

(** The rows of the window as [render_forest] reads them:
    [(parse_iso(d_iso), int(c))] for each row of the query. *)
Definition window_rows (db : database) (start end_ : date) : result (list (date * Z)) :=
  mapM (λ row : text * Z, d ← parse_iso row.1; Ok (d, row.2))
    (select_counts db (isoformat start) (isoformat end_)).

(** [render_forest(conn, weeks)] on the event store.  The function computes
    the start of the window, makes the query for the window and parses its
    rows; the rendering is that of [render_forest] on the parsed rows, which
    computes the start once more, with the same result. *)
Definition render_forest_db (db : database) (weeks : Z) (w : World) : result string :=
  let end_ := date_today w in
  start ← lift (td ← timedelta (weeks * 7 - 1); date_sub end_ td);
  parsed ← window_rows db start end_;
  lift (render_forest (λ _ _, parsed) weeks w).

(** The arguments of [log]: [args.title], [args.paper_id], [args.summary],
    [args.date] and [args.weeks]. *)
Record log_args : Type := {
  log_title : text;
  log_paper_id : option text;
  log_summary : option text;
  log_date : option text;
  log_weeks : Z
}.

Local Open Scope string_scope.

(** The lines [cmd_log] prints after the log is stored. *)
Definition logged_lines (cur longest : Z) : list string :=
  [ "✅ Logged!";
    "🔥 Current streak: " +:+ pretty cur +:+ " day(s)";
    "🏆 Longest streak: " +:+ pretty longest +:+ " day(s)";
    "" ].

(** The lines [cmd_stats] prints before the forest. *)
Definition stats_lines (total active cur longest : Z) : list string :=
  [ "Total logs: " +:+ pretty total;
    "Active days: " +:+ pretty active;
    "Current streak: " +:+ pretty cur;
    "Longest streak: " +:+ pretty longest;
    "" ].

Definition not_found_line (id : Z) : string := "❌ No log found with ID " +:+ pretty id +:+ ".".

Definition removed_line (id : Z) : string := "✅ Removed log with ID " +:+ pretty id +:+ ".".

Local Close Scope string_scope.

(** [cmd_log(args)].  The clock is read by [add_log] (when no date is
    given), by [compute_streaks] and by [render_forest]: [w1], [w2] and [w3]
    are the clock at these three moments.  An exception ends the command and
    leaves the console and the store as they are at that point; [add_log]
    has committed its row by then. *)
Definition cmd_log (args : log_args) (w1 w2 w3 : World) (c : Console) (db : database)
  : Console * database * result unit :=
  let '(summary, out) :=
    match log_summary args with
    | Some s => (s, stdout c)
    | None => ([], stdout c ++ [summary_prompt])
    end in
  match read_summary (stdin c) summary out with
  | (lines, out, Error e) => ({| stdin := lines; stdout := out |}, db, Error e)
  | (lines, out, Ok summary) =>
      let db := add_log db (log_title args) summary (log_paper_id args) (log_date args) w1 in
      match days ← get_distinct_days db; lift (compute_streaks days w2) with
      | Error e => ({| stdin := lines; stdout := out |}, db, Error e)
      | Ok (cur, longest) =>
          let out := out ++ logged_lines cur longest in
          match render_forest_db db (log_weeks args) w3 with
          | Error e => ({| stdin := lines; stdout := out |}, db, Error e)
          | Ok forest => ({| stdin := lines; stdout := out ++ [forest] |}, db, Ok ())
          end
      end
  end.

(** [cmd_stats(args)], with the clock [w2] of [compute_streaks] and the clock
    [w3] of [render_forest].  Nothing is printed before the streaks are
    computed. *)
Definition cmd_stats (weeks : Z) (w2 w3 : World) (c : Console) (db : database)
  : Console * result unit :=
  let total := count_logs db in
  match days ← get_distinct_days db;
        streaks ← lift (compute_streaks days w2);
        Ok (days, streaks) with
  | Error e => (c, Error e)
  | Ok (days, (cur, longest)) =>
      let out := stdout c ++ stats_lines total (Z.of_nat (length days)) cur longest in
      match render_forest_db db weeks w3 with
      | Error e => ({| stdin := stdin c; stdout := out |}, Error e)
      | Ok forest => ({| stdin := stdin c; stdout := out ++ [forest] |}, Ok ())
      end
  end.

(** [cmd_remove(args)]: [args.id] is an integer; one outside the 64-bit
    range cannot be bound to the query and raises [OverflowError]. *)
Definition cmd_remove (id : Z) (c : Console) (db : database)
  : Console * database * result unit :=
  if bool_decide (- 2 ^ 63 <= id < 2 ^ 63) then
    if bool_decide (count_paper_id db (id_text id) = 0) then
      ({| stdin := stdin c; stdout := stdout c ++ [not_found_line id] |}, db, Ok ())
    else
      ({| stdin := stdin c; stdout := stdout c ++ [removed_line id] |},
       delete_paper_id db (id_text id), Ok ())
  else (c, db, Error (CoreError OverflowError)).

End Commands.

(** ** Vocabulary of the command layer *)

(** The summary after the lines [used] have been read into it. *)
Definition with_lines (summary : text) (used : list text) : text :=
  foldl (λ s line, s ++ (line ++ [10])) summary used.

(** Every stored log has at least [MIN_WORDS] words, and its word count is
    the one of its stored summary. *)
Definition well_counted (db : database) : Prop :=
  ∀ r, r ∈ rows db → MIN_WORDS <= word_count_of r ∧ word_count_of r = word_count (summary r).

(** The summary [cmd_log] starts from, and what it prints before its loop. *)
Definition initial_summary (args : log_args) : text := default [] (log_summary args).

Definition prompt_lines (args : log_args) : list string :=
  match log_summary args with Some _ => [] | None => [summary_prompt] end.

(** The summary reaches [MIN_WORDS] words after some number of input lines. *)
Definition enough_input (summary : text) (lines : list text) : Prop :=
  ∃ k : nat, MIN_WORDS <= word_count (with_lines summary (take k lines)).

(** The day [add_log] stores: [logged_on or today_iso()]. *)
Definition logged_day `{DateLib} (logged_on : option text) (w : World) : text :=
  match logged_on with
  | Some (c :: s) => c :: s
  | _ => today_iso w
  end.

(** The identifier [add_log] makes when none is given. *)
Definition generated_id (db : database) (logged : text) : text :=
  remove_hyphens logged ++ text_of_string (pretty (count_logged_on db logged + 1)).

(** Every stored day reads as a date that has a day before it and a day
    after it: any date but 0001-01-01 and 9999-12-31. *)
Definition dates_inside `{DateLib} (db : database) : Prop :=
  ∀ r, r ∈ rows db → ∃ d, strptime_ymd (logged_on r) = Some d ∧ inside d.

(** A date library for the examples: a date is written as the one code
    point of its ordinal. *)
Definition ordinal_dates : DateLib :=
  {| isoformat := λ d, [d];
     strptime_ymd := λ t,
       match t with
       | [d] => if bool_decide (date_min <= d <= date_max) then Some d else None
       | _ => None
       end |}.

(** A summary of a hundred words, and a store with one log of it, made on
    2024-01-03 and written with [ordinal_dates]. *)
Definition example_summary : text := mjoin (replicate 100 [112; 97; 112; 101; 114; 32]).

Definition example_store : database :=
  {| rows := [ {| row_id := 1; paper_title := [65]; paper_id := Some [55];
                  summary := strip example_summary; word_count_of := 100;
                  logged_on := @isoformat ordinal_dates (ymd 2024 1 3) |} ];
     last_id := 1 |}.

(** A [log] command without a summary and one with [example_summary], the
    latter also with a day that [ordinal_dates] does not read. *)
Definition example_args (summary date_arg : option text) : log_args :=
  {| log_title := [66]; log_paper_id := None; log_summary := summary;
     log_date := date_arg; log_weeks := 1 |}.

(** A console with one short line of input, and the clock at one o'clock on
    2024-01-04. *)
Definition example_console : Console := {| stdin := [[104; 105]]; stdout := [] |}.

Definition example_clock : World := world_at (ymd 2024 1 4) 3600.

(** The day 2024-01-04 as it is given with [--date]. *)
Definition example_day : text := text_of_string "2024-01-04".

(** * Properties *)

(** ** Sanity checks of the embedding *)

Example ymd_2024_01_01 : ymd 2024 1 1 = 738886.
Proof. reflexivity. Qed.

Example ymd_1970_01_01 : ymd 1970 1 1 = 719163.
Proof. reflexivity. Qed.

Example date_min_0001_01_01 : date_min = ymd 1 1 1 ∧ weekday date_min = 0.
Proof. by vm_compute. Qed.

Example date_max_9999_12_31 : date_max = ymd 9999 12 31.
Proof. by vm_compute. Qed.

Example date_today_world_at : date_today (world_at (ymd 2024 1 4) 3600) = ymd 2024 1 4.
Proof. reflexivity. Qed.

Example weekday_2024_01_01 : weekday (ymd 2024 1 1) = 0.
Proof. reflexivity. Qed.

Example compute_streaks_example :
  compute_streaks [ymd 2024 1 1; ymd 2024 1 2; ymd 2024 1 4] (world_at (ymd 2024 1 4) 3600)
  = Ret (1, 2).
Proof. vm_compute. reflexivity. Qed.

(** ** Outcome monad *)

Lemma ret_bind {A B : Type} (a : A) (k : A -> outcome B) : (Ret a ≫= k) = k a.
Proof. reflexivity. Qed.

Lemma for_each_cons {A St : Type} (body : St -> A -> outcome St) (x : A) (xs : list A) (s : St) :
  for_each body (x :: xs) s = (s' ← body s x; for_each body xs s').
Proof. reflexivity. Qed.

Lemma for_each_app {A St : Type} (body : St -> A -> outcome St) (xs ys : list A) (s : St) :
  for_each body (xs ++ ys) s = (s' ← for_each body xs s; for_each body ys s').
Proof.
  revert s. induction xs as [|x xs IH]; intros s; simpl; [done|].
  destruct (body s x) as [s'| |]; simpl; [apply IH|done|done].
Qed.

(** ** Date arithmetic *)

Lemma date_add_valid (d n : Z) : valid_date (d + n) → date_add d n = Ret (d + n).
Proof. intros Hv. unfold date_add. by rewrite bool_decide_eq_true_2. Qed.

Lemma date_add_overflow (d n : Z) : ¬ valid_date (d + n) → date_add d n = Raise OverflowError.
Proof. intros Hv. unfold date_add. by rewrite bool_decide_eq_false_2. Qed.

Lemma date_sub_valid (d n : Z) : valid_date (d - n) → date_sub d n = Ret (d - n).
Proof. intros Hv. unfold date_sub. by rewrite bool_decide_eq_true_2. Qed.

Lemma date_sub_overflow (d n : Z) : ¬ valid_date (d - n) → date_sub d n = Raise OverflowError.
Proof. intros Hv. unfold date_sub. by rewrite bool_decide_eq_false_2. Qed.

Lemma date_sub_Ret (d n r : Z) : date_sub d n = Ret r → r = d - n ∧ valid_date (d - n).
Proof. unfold date_sub. case_bool_decide; [|done]. by intros [= <-]. Qed.

Lemma timedelta_Ret (n td : Z) : timedelta n = Ret td → td = n.
Proof. unfold timedelta. case_bool_decide; [|done]. by intros [= <-]. Qed.

Lemma timedelta_small (n : Z) : - 999999999 <= n <= 999999999 → timedelta n = Ret n.
Proof. intros Hn. unfold timedelta. by rewrite bool_decide_eq_true_2. Qed.

Lemma timedelta_large (n : Z) :
  ¬ (- 999999999 <= n <= 999999999) → timedelta n = Raise OverflowError.
Proof. intros Hn. unfold timedelta. by rewrite bool_decide_eq_false_2. Qed.

Lemma inside_valid (d : date) :
  inside d → valid_date d ∧ valid_date (d - 1) ∧ valid_date (d + 1).
Proof. unfold inside, valid_date. lia. Qed.

Lemma after_min_valid (d : date) : after_min d → valid_date d ∧ valid_date (d - 1).
Proof. unfold after_min, valid_date. lia. Qed.

(** 0001-01-01 is a Monday, so the Monday on or before a date is a date. *)
Lemma monday_of_valid (d : date) : valid_date d → valid_date (monday_of d).
Proof.
  unfold valid_date, monday_of, weekday, date_min, date_max. intros Hd.
  Z.div_mod_to_equations. lia.
Qed.

(** ** Streak calculator *)

Section Runs.

Variable D : gset date.

Lemma above_shrinks (cur : Z) :
  cur + 1 ∈ D →
  (size (filter (λ x, (cur + 1 < x)%Z) D) < size (filter (λ x, (cur < x)%Z) D))%nat.
Proof.
  intros Hin. apply subset_size. split.
  - intros x. rewrite !elem_of_filter. intros [? ?]. split; [lia|done].
  - intros Hsub. specialize (Hsub (cur + 1)).
    rewrite !elem_of_filter in Hsub. destruct Hsub; [split; [lia|done]|lia].
Qed.

Lemma below_shrinks (cur : Z) :
  cur - 1 ∈ D →
  (size (filter (λ x, (x < cur - 1)%Z) D) < size (filter (λ x, (x < cur)%Z) D))%nat.
Proof.
  intros Hin. apply subset_size. split.
  - intros x. rewrite !elem_of_filter. intros [? ?]. split; [lia|done].
  - intros Hsub. specialize (Hsub (cur - 1)).
    rewrite !elem_of_filter in Hsub. destruct Hsub; [split; [lia|done]|lia].
Qed.

Lemma filter_size_le (P : Z → Prop) `{!∀ x, Decision (P x)} :
  (size (filter P D) <= size D)%nat.
Proof. apply subseteq_size. intros x. rewrite elem_of_filter. tauto. Qed.

Lemma run_forward_unfold (fuel : nat) (cur run : Z) :
  run_forward (S fuel) D cur run
  = (next ← date_add cur 1;
     if decide (next ∈ D) then run_forward fuel D next (run + 1) else Ret run).
Proof. reflexivity. Qed.

Lemma run_backward_unfold (fuel : nat) (cur current : Z) :
  run_backward (S fuel) D cur current
  = (prev ← date_sub cur 1;
     if decide (prev ∈ D) then run_backward fuel D prev (current + 1) else Ret current).
Proof. reflexivity. Qed.

(** The walk forward passes [k] logged days; then it stops at a day that is
    not logged, or the day after the last one is no date. *)
Lemma run_forward_spec (fuel : nat) (cur run : Z) :
  (size (filter (λ x, (cur < x)%Z) D) < fuel)%nat →
  ∃ k, 0 <= k ∧ (∀ j, 1 <= j <= k → cur + j ∈ D) ∧
    ((∀ j, 0 <= j <= k → valid_date (cur + j + 1)) ∧ (cur + k + 1 ∉ D) ∧
      run_forward fuel D cur run = Ret (run + k)
     ∨ (¬ valid_date (cur + k + 1)) ∧ run_forward fuel D cur run = Raise OverflowError).
Proof.
  revert cur run. induction fuel as [|fuel IH]; intros cur run Hfuel; [lia|].
  rewrite run_forward_unfold.
  destruct (decide (valid_date (cur + 1))) as [Hv|Hv].
  2:{ exists 0. split; [lia|]. split; [intros; lia|]. right.
      rewrite Z.add_0_r. split; [done|]. by rewrite date_add_overflow. }
  rewrite date_add_valid, ret_bind by done.
  destruct (decide (cur + 1 ∈ D)) as [Hin|Hout].
  - destruct (IH (cur + 1) (run + 1)) as (k & Hk & Hall & Hres).
    { pose proof (above_shrinks cur Hin). lia. }
    exists (k + 1). split; [lia|]. split.
    { intros j Hj. destruct (decide (j = 1)) as [->|]; [done|].
      replace (cur + j) with (cur + 1 + (j - 1)) by lia. apply Hall. lia. }
    replace (cur + (k + 1) + 1) with (cur + 1 + k + 1) by lia.
    destruct Hres as [(Hval & Hend & ->)|[Hbad ->]]; [left|by right].
    split; [|split; [done|f_equal; lia]].
    intros j Hj. destruct (decide (j = 0)) as [->|]; [by rewrite Z.add_0_r|].
    replace (cur + j + 1) with (cur + 1 + (j - 1) + 1) by lia. apply Hval. lia.
  - exists 0. split; [lia|]. split; [intros; lia|]. left. rewrite !Z.add_0_r.
    split; [|done]. intros j Hj. by replace j with 0 by lia; rewrite Z.add_0_r.
Qed.

Lemma run_backward_spec (fuel : nat) (cur current : Z) :
  (size (filter (λ x, (x < cur)%Z) D) < fuel)%nat →
  ∃ k, 0 <= k ∧ (∀ j, 1 <= j <= k → cur - j ∈ D) ∧
    ((∀ j, 0 <= j <= k → valid_date (cur - j - 1)) ∧ (cur - k - 1 ∉ D) ∧
      run_backward fuel D cur current = Ret (current + k)
     ∨ (¬ valid_date (cur - k - 1)) ∧ run_backward fuel D cur current = Raise OverflowError).
Proof.
  revert cur current. induction fuel as [|fuel IH]; intros cur current Hfuel; [lia|].
  rewrite run_backward_unfold.
  destruct (decide (valid_date (cur - 1))) as [Hv|Hv].
  2:{ exists 0. split; [lia|]. split; [intros; lia|]. right.
      rewrite Z.sub_0_r. split; [done|]. by rewrite date_sub_overflow. }
  rewrite date_sub_valid, ret_bind by done.
  destruct (decide (cur - 1 ∈ D)) as [Hin|Hout].
  - destruct (IH (cur - 1) (current + 1)) as (k & Hk & Hall & Hres).
    { pose proof (below_shrinks cur Hin). lia. }
    exists (k + 1). split; [lia|]. split.
    { intros j Hj. destruct (decide (j = 1)) as [->|]; [done|].
      replace (cur - j) with (cur - 1 - (j - 1)) by lia. apply Hall. lia. }
    replace (cur - (k + 1) - 1) with (cur - 1 - k - 1) by lia.
    destruct Hres as [(Hval & Hend & ->)|[Hbad ->]]; [left|by right].
    split; [|split; [done|f_equal; lia]].
    intros j Hj. destruct (decide (j = 0)) as [->|]; [by rewrite Z.sub_0_r|].
    replace (cur - j - 1) with (cur - 1 - (j - 1) - 1) by lia. apply Hval. lia.
  - exists 0. split; [lia|]. split; [intros; lia|]. left. rewrite !Z.sub_0_r.
    split; [|split; [done|f_equal; lia]].
    intros j Hj. by replace j with 0 by lia; rewrite Z.sub_0_r.
Qed.

Lemma run_from_unique (d : date) (k k' : Z) :
  run_from D d k → run_from D d k' → k = k'.
Proof.
  intros (Hk & Hall & Hend) (Hk' & Hall' & Hend').
  destruct (Z.lt_trichotomy k k') as [Hlt|[->|Hlt]]; [|done|].
  - destruct Hend. apply Hall'. lia.
  - destruct Hend'. apply Hall. lia.
Qed.

Lemma run_upto_unique (a : date) (k k' : Z) :
  run_upto D a k → run_upto D a k' → k = k'.
Proof.
  intros (Hk & Hall & Hend) (Hk' & Hall' & Hend').
  destruct (Z.lt_trichotomy k k') as [Hlt|[->|Hlt]]; [|done|].
  - destruct Hend. apply Hall'. lia.
  - destruct Hend'. apply Hall. lia.
Qed.

(** Every logged day ends a run and begins one. *)
Lemma run_upto_exists (a : date) : a ∈ D → ∃ k, run_upto D a k.
Proof.
  assert (Hgen : ∀ (n : nat) (c : date),
            (size (filter (λ x, (x < c)%Z) D) < n)%nat → c ∈ D → ∃ k, run_upto D c k).
  { induction n as [|n IH]; intros c Hn Hc; [lia|].
    destruct (decide (c - 1 ∈ D)) as [Hin|Hout].
    - destruct (IH (c - 1)) as (k & Hk & Hall & Hend); [|done|].
      { pose proof (below_shrinks c Hin). lia. }
      exists (k + 1). split; [lia|]. split.
      + intros j Hj. destruct (decide (j = 0)) as [->|]; [by rewrite Z.sub_0_r|].
        replace (c - j) with (c - 1 - (j - 1)) by lia. apply Hall. lia.
      + by replace (c - (k + 1)) with (c - 1 - k) by lia.
    - exists 1. split; [lia|]. split; [|done].
      intros j Hj. by replace j with 0 by lia; rewrite Z.sub_0_r. }
  apply (Hgen (S (size D))). pose proof (filter_size_le (λ x, x < a)). lia.
Qed.

Lemma run_from_exists (d : date) : d ∈ D → ∃ k, run_from D d k.
Proof.
  assert (Hgen : ∀ (n : nat) (c : date),
            (size (filter (λ x, (c < x)%Z) D) < n)%nat → c ∈ D → ∃ k, run_from D c k).
  { induction n as [|n IH]; intros c Hn Hc; [lia|].
    destruct (decide (c + 1 ∈ D)) as [Hin|Hout].
    - destruct (IH (c + 1)) as (k & Hk & Hall & Hend); [|done|].
      { pose proof (above_shrinks c Hin). lia. }
      exists (k + 1). split; [lia|]. split.
      + intros j Hj. destruct (decide (j = 0)) as [->|]; [by rewrite Z.add_0_r|].
        replace (c + j) with (c + 1 + (j - 1)) by lia. apply Hall. lia.
      + by replace (c + (k + 1)) with (c + 1 + k) by lia.
    - exists 1. split; [lia|]. split; [|done].
      intros j Hj. by replace j with 0 by lia; rewrite Z.add_0_r. }
  apply (Hgen (S (size D))). pose proof (filter_size_le (λ x, d < x)). lia.
Qed.

(** Every logged day lies in a run, and that run has a start. *)
Lemma run_start_of (c : date) :
  c ∈ D → ∃ d k, run_start D d ∧ run_from D d k ∧ d <= c < d + k.
Proof.
  intros Hc. destruct (run_upto_exists c Hc) as (k1 & Hk1 & Hall1 & Hend1).
  assert (Hs : run_start D (c - (k1 - 1))).
  { split; [apply Hall1; lia|]. by replace (c - (k1 - 1) - 1) with (c - k1) by lia. }
  destruct (run_from_exists _ (proj1 Hs)) as (k & Hk).
  exists (c - (k1 - 1)), k. split; [done|]. split; [done|]. split; [lia|].
  destruct (decide (c < c - (k1 - 1) + k)) as [|Hge]; [done|].
  destruct Hk as (Hk & _ & Hend). destruct Hend.
  replace (c - (k1 - 1) + k) with (c - (k1 - 1 - k)) by lia. apply Hall1. lia.
Qed.

Lemma run_start_exists (d : date) : d ∈ D → ∃ d', run_start D d'.
Proof. intros Hd. destruct (run_start_of d Hd) as (d' & k & Hs & _). by exists d'. Qed.

(** From a logged day the two walks, with the fuel [compute_streaks] gives
    them, measure the run forward and the run backward, unless they come to
    a logged day next to which there is no date. *)
Lemma run_forward_from (d : date) :
  d ∈ D →
  (∃ k, run_forward (S (size D)) D d 1 = Ret k ∧ run_from D d k ∧
        ∀ j, 0 <= j < k → valid_date (d + j + 1))
  ∨ (run_forward (S (size D)) D d 1 = Raise OverflowError ∧ overflows D).
Proof.
  intros Hd. destruct (run_forward_spec (S (size D)) d 1) as (k & Hk & Hall & Hres).
  { pose proof (filter_size_le (λ x, d < x)). lia. }
  assert (Hrun : ∀ j, 0 <= j <= k → d + j ∈ D).
  { intros j Hj. destruct (decide (j = 0)) as [->|]; [by rewrite Z.add_0_r|].
    apply Hall. lia. }
  destruct Hres as [(Hval & Hend & ->)|[Hbad ->]].
  - left. exists (1 + k). split; [done|]. split.
    + split; [lia|]. split; [intros j Hj; apply Hrun; lia|].
      by replace (d + (1 + k)) with (d + k + 1) by lia.
    + intros j Hj. apply Hval. lia.
  - right. split; [done|]. exists (d + k). split; [apply Hrun; lia|by right].
Qed.

Lemma run_backward_upto (a : date) :
  a ∈ D →
  (∃ k, run_backward (S (size D)) D a 1 = Ret k ∧ run_upto D a k)
  ∨ (run_backward (S (size D)) D a 1 = Raise OverflowError ∧ overflows D).
Proof.
  intros Ha. destruct (run_backward_spec (S (size D)) a 1) as (k & Hk & Hall & Hres).
  { pose proof (filter_size_le (λ x, x < a)). lia. }
  assert (Hrun : ∀ j, 0 <= j <= k → a - j ∈ D).
  { intros j Hj. destruct (decide (j = 0)) as [->|]; [by rewrite Z.sub_0_r|].
    apply Hall. lia. }
  destruct Hres as [(Hval & Hend & ->)|[Hbad ->]].
  - left. exists (1 + k). split; [done|].
    split; [lia|]. split; [intros j Hj; apply Hrun; lia|].
    by replace (a - (1 + k)) with (a - k - 1) by lia.
  - right. split; [done|]. exists (a - k). split; [apply Hrun; lia|by left].
Qed.

(** One step of the longest-streak pass. *)
Lemma longest_step_spec (acc : Z) (d : date) :
  d ∈ D →
  (valid_date (d - 1) ∧
   ((d - 1 ∈ D ∧ longest_step (S (size D)) D acc d = Ret acc) ∨
    ((d - 1 ∉ D) ∧ ∃ k, run_from D d k ∧ (∀ j, 0 <= j < k → valid_date (d + j + 1)) ∧
                      longest_step (S (size D)) D acc d = Ret (acc `max` k))))
  ∨ (longest_step (S (size D)) D acc d = Raise OverflowError ∧ overflows D).
Proof.
  intros Hd. unfold longest_step.
  destruct (decide (valid_date (d - 1))) as [Hv|Hv].
  2:{ right. rewrite date_sub_overflow by done. split; [done|]. exists d. split; [done|by left]. }
  rewrite date_sub_valid, ret_bind by done.
  destruct (decide (d - 1 ∈ D)) as [Hprev|Hprev].
  - rewrite decide_True by done. left. split; [done|]. by left.
  - rewrite decide_False by done.
    destruct (run_forward_from d Hd) as [(k & -> & Hk & Hval)|[-> Hov]].
    + left. split; [done|]. right. split; [done|]. by exists k.
    + by right.
Qed.

(** The longest-streak pass over any list of logged days. *)
Lemma longest_pass (l : list date) (acc : Z) :
  (∀ d, d ∈ l → d ∈ D) →
  (∃ r, for_each (longest_step (S (size D)) D) l acc = Ret r ∧
        acc <= r ∧
        (∀ d k, d ∈ l → run_start D d → run_from D d k → k <= r) ∧
        (r = acc ∨ ∃ d, d ∈ l ∧ run_start D d ∧ run_from D d r) ∧
        (∀ d, d ∈ l → valid_date (d - 1) ∧
           ∀ k, run_start D d → run_from D d k → ∀ j, 0 <= j < k → valid_date (d + j + 1)))
  ∨ (for_each (longest_step (S (size D)) D) l acc = Raise OverflowError ∧ overflows D).
Proof.
  revert acc. induction l as [|d l IH]; intros acc Hl.
  - left. exists acc. split; [done|]. split; [lia|].
    split; [intros d k Hd; by apply elem_of_nil in Hd|].
    split; [by left|]. intros d Hd. by apply elem_of_nil in Hd.
  - assert (Hd : d ∈ D) by (apply Hl; left).
    assert (Hl' : ∀ d', d' ∈ l → d' ∈ D) by (intros; apply Hl; by right).
    rewrite for_each_cons.
    destruct (longest_step_spec acc d Hd)
      as [[Hv [[Hprev ->]|(Hprev & k & Hk & Hval & ->)]]|[-> Hov]]; [| |by right].
    + rewrite ret_bind.
      destruct (IH acc Hl') as [(r & Hr & Hle & Hub & Hwit & Hsafe)|[Hr Hov]]; [left|by right].
      exists r. split; [done|]. split; [done|]. split; [|split].
      * intros d' k [->|Hin]%elem_of_cons Hs Hf; [by destruct Hs|eauto].
      * destruct Hwit as [->|(d' & ? & ? & ?)]; [by left|right].
        exists d'. split; [by right|done].
      * intros d' [->|Hin]%elem_of_cons; [|by apply Hsafe].
        split; [done|]. intros k Hs. by destruct Hs.
    + rewrite ret_bind.
      destruct (IH (acc `max` k) Hl') as [(r & Hr & Hle & Hub & Hwit & Hsafe)|[Hr Hov]];
        [left|by right].
      exists r. split; [done|]. split; [lia|]. split; [|split].
      * intros d' k' [->|Hin]%elem_of_cons Hs Hf; [|eauto].
        rewrite (run_from_unique _ _ _ Hf Hk). lia.
      * destruct Hwit as [->|(d' & ? & ? & ?)].
        -- destruct (Z.max_spec acc k) as [[? ->]|[? ->]]; [|by left].
           right. exists d. split; [left|done].
        -- right. exists d'. split; [by right|done].
      * intros d' [->|Hin]%elem_of_cons; [|by apply Hsafe].
        split; [done|]. intros k' _ Hk'. by rewrite (run_from_unique _ _ _ Hk' Hk).
Qed.

(** A pass over all logged days that returns has met no logged day next to
    which there is no date. *)
Lemma longest_pass_safe (l : list date) :
  (∀ d, d ∈ D → d ∈ l) →
  (∀ d, d ∈ l → valid_date (d - 1) ∧
     ∀ k, run_start D d → run_from D d k → ∀ j, 0 <= j < k → valid_date (d + j + 1)) →
  ¬ overflows D.
Proof.
  intros Hl Hsafe (c & Hc & Hbad).
  destruct Hbad as [Hbad|Hbad]; [by destruct (Hsafe c (Hl c Hc))|].
  destruct (run_start_of c Hc) as (d & k & Hs & Hk & Hdc).
  destruct (Hsafe d (Hl d (proj1 Hs))) as [_ Hval].
  destruct Hbad. replace (c + 1) with (d + (c - d) + 1) by lia.
  apply (Hval k Hs Hk). lia.
Qed.

End Runs.

(** [compute_streaks] on every list and under every clock: it returns the
    two streaks, or it has come to a logged day next to which there is no
    date, or to a day before today that is no date. *)
Lemma compute_streaks_spec (days : list date) (w : World) :
  let D : gset date := list_to_set days in
  let today := date_today w in
  (∃ current longest,
     compute_streaks days w = Ret (current, longest) ∧
     longest_of days longest ∧ current_of D today current ∧
     (days = [] ∨ ((¬ overflows D) ∧ (today ∈ D ∨ valid_date (today - 1)))))
  ∨ (compute_streaks days w = Raise OverflowError ∧ days ≠ [] ∧
     (overflows D ∨ ((today ∉ D) ∧ ¬ valid_date (today - 1)))).
Proof.
  intros D today. destruct days as [|d0 l].
  { left. exists 0, 0. split; [done|]. split; [by left|]. split; [|by left].
    right; right. unfold D. rewrite list_to_set_nil. set_solver. }
  set (days := d0 :: l) in *.
  assert (Hin : ∀ d, d ∈ days ↔ d ∈ D) by (intros d; unfold D; by rewrite elem_of_list_to_set).
  assert (Hne : days ≠ []) by done.
  assert (Hunfold : compute_streaks days w
            = (longest ← for_each (longest_step (S (size D)) D) days 1;
               end_ ← streak_end D today;
               match end_ with
               | None => Ret (0, longest)
               | Some end_ => current ← run_backward (S (size D)) D end_ 1;
                              Ret (current, longest)
               end)) by done.
  rewrite Hunfold. clear Hunfold.
  destruct (longest_pass D days 1) as [(r & -> & Hle & Hub & Hwit & Hsafe)|[-> Hov]];
    [by intros d ?%Hin| |right; split; [done|]; split; [done|by left]].
  rewrite ret_bind.
  assert (Hok : ¬ overflows D).
  { apply (longest_pass_safe D days); [by intros d ?%Hin|done]. }
  assert (Hmax : max_run D r).
  { split.
    - destruct Hwit as [->|(d & _ & ? & ?)]; [|by exists d].
      destruct (run_start_of D d0) as (d' & k & Hs & Hk & _); [apply Hin; left|].
      assert (k <= 1) by (apply (Hub d'); [by apply Hin, Hs|done..]).
      assert (k = 1) as -> by (destruct Hk; lia). by exists d'.
    - intros d k Hs Hk. apply (Hub d); [by apply Hin, Hs|done..]. }
  assert (Hback : ∀ a, a ∈ D →
            ∃ k, run_backward (S (size D)) D a 1 = Ret k ∧ run_upto D a k).
  { intros a Ha. by destruct (run_backward_upto D a Ha) as [?|[_ ?]]. }
  unfold streak_end.
  destruct (decide (today ∈ D)) as [Ht|Ht].
  - rewrite ret_bind.
    destruct (Hback _ Ht) as (k & -> & Hk). rewrite ret_bind.
    left. exists k, r. split; [done|]. split; [by right|]. split; [by left|].
    right. split; [done|by left].
  - destruct (decide (valid_date (today - 1))) as [Hv|Hv].
    2:{ right. rewrite date_sub_overflow by done. split; [done|]. split; [done|by right]. }
    rewrite date_sub_valid, ret_bind by done.
    destruct (decide (today - 1 ∈ D)) as [Hy|Hy].
    + rewrite decide_True, ret_bind by done.
      destruct (Hback _ Hy) as (k & -> & Hk). rewrite ret_bind.
      left. exists k, r. split; [done|]. split; [by right|]. split; [right; by left|].
      right. split; [done|by right].
    + rewrite decide_False, ret_bind by done. left. exists 0, r. split; [done|]. split; [by right|]. split; [right; by right|].
      right. split; [done|by right].
Qed.

(** Lists of days that have a day before and a day after them, under a clock
    that shows such a day, or a logged one: [compute_streaks] returns. *)
Lemma compute_streaks_returns (days : list date) (w : World) :
  (∀ d, d ∈ days → inside d) →
  date_today w ∈ days ∨ valid_date (date_today w - 1) →
  ∃ current longest,
    compute_streaks days w = Ret (current, longest) ∧
    longest_of days longest ∧
    current_of (list_to_set days) (date_today w) current.
Proof.
  intros Hdays Htoday.
  destruct (compute_streaks_spec days w) as [(c & l & Hrun & Hl & Hc & _)|(_ & _ & Hbad)].
  { by exists c, l. }
  destruct Hbad as [(c & Hc & Hbad)|[Hout Hbad]].
  - apply elem_of_list_to_set, Hdays, inside_valid in Hc. tauto.
  - destruct Htoday as [Hin|Hv]; [|done]. destruct Hout. by apply elem_of_list_to_set.
Qed.

(** What [compute_streaks] returns, when it returns. *)
Lemma compute_streaks_Ret (days : list date) (w : World) (current longest : Z) :
  compute_streaks days w = Ret (current, longest) →
  longest_of days longest ∧ current_of (list_to_set days) (date_today w) current.
Proof.
  intros Hrun.
  destruct (compute_streaks_spec days w) as [(c & l & Hrun' & Hl & Hc & _)|(Hrun' & _)];
    rewrite Hrun in Hrun'; [|done].
  by injection Hrun' as <- <-.
Qed.



(** ** Dictionaries *)

Lemma dict_find_setitem (m : dict) (k k' : date) (v : Z) :
  dict_find (dict_setitem m k v) k' = if decide (k = k') then Some v else dict_find m k'.
Proof.
  induction m as [|[k0 v0] m IH]; simpl.
  - repeat case_decide; done.
  - destruct (decide (k0 = k)) as [->|Hne]; simpl.
    + repeat case_decide; done.
    + rewrite IH. repeat case_decide; congruence.
Qed.

Lemma dict_contains_keys (m : dict) (k : date) :
  dict_contains m k = true ↔ k ∈ dict_keys m.
Proof.
  unfold dict_contains, dict_keys. induction m as [|[k0 v0] m IH]; simpl.
  - split; [done|]. by intros ?%elem_of_nil.
  - rewrite elem_of_cons. destruct (decide (k0 = k)) as [->|Hne]; [tauto|].
    rewrite IH. intuition congruence.
Qed.

Lemma dict_find_keys (m : dict) (k : date) :
  is_Some (dict_find m k) ↔ k ∈ dict_keys m.
Proof.
  rewrite <- dict_contains_keys. unfold dict_contains.
  destruct (dict_find m k); split; (done || by eauto || by intros []).
Qed.

Lemma dict_setitem_present (m : dict) (k : date) (v : Z) :
  k ∈ dict_keys m →
  length (dict_setitem m k v) = length m ∧
  dict_keys (dict_setitem m k v) = dict_keys m.
Proof.
  unfold dict_keys. induction m as [|[k0 v0] m IH]; simpl.
  - by intros ?%elem_of_nil.
  - intros Hin. destruct (decide (k0 = k)) as [->|Hne]; [done|].
    apply elem_of_cons in Hin as [?|Hin]; [congruence|].
    destruct (IH Hin) as [IH1 IH2]. split; simpl; [by rewrite IH1|by f_equal].
Qed.

Lemma is_active_setitem (m : dict) (k k' : date) (v : Z) :
  is_active (dict_setitem m k v) k'
  = if decide (k = k') then bool_decide (v > 0) else is_active m k'.
Proof. unfold is_active. rewrite dict_find_setitem. by case_decide. Qed.

Lemma keys_below_mono (m : dict) (c c' : date) :
  c <= c' → (keys_below m c <= keys_below m c')%nat.
Proof.
  intros Hle. induction m as [|[k v] m IH]; simpl; [done|].
  repeat case_decide; lia.
Qed.

Lemma keys_below_le (m : dict) (c : date) : (keys_below m c <= length m)%nat.
Proof. induction m as [|[k v] m IH]; simpl; [done|]. case_decide; lia. Qed.

Lemma keys_below_shrinks (m : dict) (cur : date) :
  cur - 1 ∈ dict_keys m → (keys_below m (cur - 1)%Z < keys_below m cur)%nat.
Proof.
  unfold dict_keys. induction m as [|[k v] m IH]; simpl.
  - by intros ?%elem_of_nil.
  - intros Hin. destruct (decide (k = cur - 1)) as [->|Hne].
    + pose proof (keys_below_mono m (cur - 1) cur ltac:(lia)) as Hm.
      rewrite decide_False, decide_True by lia. lia.
    + apply elem_of_cons in Hin as [?|Hin]; [congruence|].
      specialize (IH Hin). repeat case_decide; lia.
Qed.

(** ** The per-day streak pass *)

Lemma is_active_keys (m : dict) (k : date) : is_active m k = true → k ∈ dict_keys m.
Proof.
  unfold is_active. intros H. apply dict_find_keys.
  destruct (dict_find m k); [by eauto|done].
Qed.

Lemma walk_back_unfold (fuel : nat) (m : dict) (cur ds : Z) :
  walk_back (S fuel) m cur ds
  = (prev ← date_sub cur 1;
     if is_active m prev then walk_back fuel m prev (ds + 1) else Ret ds).
Proof.
  change (walk_back (S fuel) m cur ds)
    with (prev ← date_sub cur 1;
          if dict_contains m prev then
            v ← dict_getitem m prev;
            if bool_decide (v > 0) then walk_back fuel m prev (ds + 1) else Ret ds
          else Ret ds).
  destruct (date_sub cur 1) as [prev| |]; [|done..]. rewrite !ret_bind.
  unfold is_active, dict_contains, dict_getitem.
  destruct (dict_find m prev) as [v|]; [|done].
  rewrite ret_bind. by case_bool_decide.
Qed.

(** The walk passes [k] active days; then it stops at a day that is not
    active, or the day before the last one is no date. *)
Lemma walk_back_spec (fuel : nat) (m : dict) (cur ds : Z) :
  (keys_below m cur < fuel)%nat →
  ∃ k, 0 <= k ∧ (∀ j, 1 <= j <= k → is_active m (cur - j) = true) ∧
    ((∀ j, 0 <= j <= k → valid_date (cur - j - 1)) ∧
      is_active m (cur - k - 1) = false ∧ walk_back fuel m cur ds = Ret (ds + k)
     ∨ (¬ valid_date (cur - k - 1)) ∧ walk_back fuel m cur ds = Raise OverflowError).
Proof.
  revert cur ds. induction fuel as [|fuel IH]; intros cur ds Hfuel; [lia|].
  rewrite walk_back_unfold.
  destruct (decide (valid_date (cur - 1))) as [Hv|Hv].
  2:{ exists 0. split; [lia|]. split; [intros; lia|]. right.
      rewrite Z.sub_0_r. split; [done|]. by rewrite date_sub_overflow. }
  rewrite date_sub_valid, ret_bind by done.
  destruct (is_active m (cur - 1)) eqn:Hact.
  - destruct (IH (cur - 1) (ds + 1)) as (k & Hk & Hall & Hres).
    { pose proof (keys_below_shrinks m cur (is_active_keys _ _ Hact)). lia. }
    exists (k + 1). split; [lia|]. split.
    { intros j Hj. destruct (decide (j = 1)) as [->|]; [done|].
      replace (cur - j) with (cur - 1 - (j - 1)) by lia. apply Hall. lia. }
    replace (cur - (k + 1) - 1) with (cur - 1 - k - 1) by lia.
    destruct Hres as [(Hval & Hend & ->)|[Hbad ->]]; [left|by right].
    split; [|split; [done|f_equal; lia]].
    intros j Hj. destruct (decide (j = 0)) as [->|]; [by rewrite Z.sub_0_r|].
    replace (cur - j - 1) with (cur - 1 - (j - 1) - 1) by lia. apply Hval. lia.
  - exists 0. split; [lia|]. split; [intros; lia|]. left. rewrite !Z.sub_0_r.
    split; [|split; [done|f_equal; lia]].
    intros j Hj. by replace j with 0 by lia; rewrite Z.sub_0_r.
Qed.

Lemma active_before_unique (m : dict) (d : date) (k k' : Z) :
  active_before m d k → active_before m d k' → k = k'.
Proof.
  intros (Hk & Hall & Hend) (Hk' & Hall' & Hend').
  destruct (Z.lt_trichotomy k k') as [Hlt|[->|Hlt]]; [|done|].
  - specialize (Hall' (k + 1) ltac:(lia)).
    replace (d - (k + 1)) with (d - k - 1) in Hall' by lia. congruence.
  - specialize (Hall (k' + 1) ltac:(lia)).
    replace (d - (k' + 1)) with (d - k' - 1) in Hall by lia. congruence.
Qed.

(** The walk looks at a dictionary only through [is_active]. *)
Lemma walk_back_ext (fuel : nat) (m m' : dict) (cur ds : Z) :
  (∀ k, is_active m k = is_active m' k) →
  walk_back fuel m cur ds = walk_back fuel m' cur ds.
Proof.
  intros Hext. revert cur ds. induction fuel as [|fuel IH]; intros cur ds; [done|].
  rewrite !walk_back_unfold. destruct (date_sub cur 1) as [prev| |]; [|done..].
  rewrite !ret_bind, Hext. by destruct (is_active m' prev).
Qed.

Lemma same_activity_refl (m : dict) : same_activity m m.
Proof. done. Qed.

Lemma same_activity_length (orig st : dict) :
  same_activity orig st → length st = length orig.
Proof.
  intros [Hkeys _]. unfold dict_keys in Hkeys.
  by rewrite <- (length_fmap fst st), Hkeys, length_fmap.
Qed.

(** One step of the pass: it stores the streak of [d], in place and from
    the copy alike, or both raise [OverflowError] at a key before which
    there is no date. *)
Lemma streak_step_spec (orig st : dict) (d : date) :
  same_activity orig st → d ∈ dict_keys orig →
  (∃ ds v,
     active_before orig d ds ∧ dict_find orig d = Some v ∧ valid_date (d - 1) ∧
     streak_step st d = Ret (dict_setitem st d (stored_streak v ds)) ∧
     streak_step_from_copy orig st d = Ret (dict_setitem st d (stored_streak v ds)) ∧
     same_activity orig (dict_setitem st d (stored_streak v ds)))
  ∨ (streak_step st d = Raise OverflowError ∧
     streak_step_from_copy orig st d = Raise OverflowError ∧ ¬ keys_safe orig).
Proof.
  intros Hsame Hd. pose proof (same_activity_length _ _ Hsame) as Hlen.
  destruct Hsame as [Hkeys Hact].
  destruct (walk_back_spec (S (length orig)) orig d 0) as (ds & Hds & Hall & Hres).
  { pose proof (keys_below_le orig d). lia. }
  rewrite Z.add_0_l in Hres.
  assert (Hwalk : walk_back (S (length st)) st d 0 = walk_back (S (length orig)) orig d 0).
  { rewrite Hlen. by apply walk_back_ext. }
  destruct Hres as [(Hval & Hend & Hret)|[Hbad Hraise]].
  2:{ right. unfold streak_step, streak_step_from_copy. rewrite Hwalk, Hraise.
      split; [done|]. split; [done|]. intros Hsafe. apply Hbad.
      destruct (decide (ds = 0)) as [->|]; [rewrite Z.sub_0_r; by apply Hsafe|].
      apply Hsafe, is_active_keys, Hall. lia. }
  left.
  destruct (proj2 (dict_find_keys orig d) Hd) as [v Hv].
  destruct (proj2 (dict_find_keys st d)) as [v' Hv']; [by rewrite Hkeys|].
  assert (Hsign : bool_decide (v' > 0) = bool_decide (v > 0)).
  { specialize (Hact d). unfold is_active in Hact. by rewrite Hv, Hv' in Hact. }
  exists ds, v. split; [done|]. split; [done|].
  split; [specialize (Hval 0 ltac:(lia)); by rewrite Z.sub_0_r in Hval|].
  split; [|split].
  - unfold streak_step. rewrite Hwalk, Hret, ret_bind.
    unfold dict_getitem. rewrite Hv', ret_bind.
    unfold stored_streak. by rewrite Hsign.
  - unfold streak_step_from_copy. rewrite Hret, ret_bind.
    unfold dict_getitem. by rewrite Hv, ret_bind.
  - split.
    + rewrite <- Hkeys. apply dict_setitem_present. by rewrite Hkeys.
    + intros k. rewrite is_active_setitem.
      destruct (decide (d = k)) as [<-|Hk]; [|apply Hact].
      rewrite <- Hact. unfold is_active, stored_streak. rewrite Hv', Hsign.
      repeat case_bool_decide; (done || lia).
Qed.

(** The pass over any list [l] of keys, from any state that agrees with the
    original counts on which days are active. *)
Lemma streak_pass_spec (orig : dict) (l : list date) (st : dict) :
  same_activity orig st → (∀ d, d ∈ l → d ∈ dict_keys orig) →
  (∃ out,
     for_each streak_step l st = Ret out ∧
     for_each (streak_step_from_copy orig) l st = Ret out ∧
     same_activity orig out ∧
     (∀ d, d ∈ l → ∃ ds v, active_before orig d ds ∧ dict_find orig d = Some v ∧
                           dict_find out d = Some (stored_streak v ds)) ∧
     (∀ d, d ∉ l → dict_find out d = dict_find st d) ∧
     (∀ d, d ∈ l → valid_date (d - 1)))
  ∨ (for_each streak_step l st = Raise OverflowError ∧
     for_each (streak_step_from_copy orig) l st = Raise OverflowError ∧
     ¬ keys_safe orig).
Proof.
  revert st. induction l as [|x l IH]; intros st Hsame Hl.
  - left. exists st. split; [done|]. split; [done|]. split; [done|].
    split; [by intros d ?%elem_of_nil|]. split; [done|by intros d ?%elem_of_nil].
  - rewrite !for_each_cons.
    destruct (streak_step_spec orig st x Hsame)
      as [(ds & v & Hds & Hv & Hx & -> & -> & Hsame')|(-> & -> & Hbad)];
      [apply Hl; left| |by right].
    rewrite !ret_bind.
    destruct (IH _ Hsame')
      as [(out & Hrun & Hrun' & Hout & Hin & Hnotin & Hval)|(Hrun & Hrun' & Hbad)];
      [intros; apply Hl; by right| |by right].
    left. exists out.
    split; [done|]. split; [done|]. split; [done|]. split; [|split].
    + intros d Hd. destruct (decide (d ∈ l)) as [?|Hnl]; [by apply Hin|].
      apply elem_of_cons in Hd as [->|?]; [|done].
      exists ds, v. split; [done|]. split; [done|].
      rewrite (Hnotin _ Hnl), dict_find_setitem. by rewrite decide_True.
    + intros d Hd. apply not_elem_of_cons in Hd as [Hne Hnl].
      rewrite (Hnotin _ Hnl), dict_find_setitem. by rewrite decide_False.
    + intros d [->|Hd]%elem_of_cons; [done|by apply Hval].
Qed.

(** The streak pass returns exactly on the maps all of whose keys have a
    date before them. *)
Lemma day_streaks_safe (counts : dict) :
  keys_safe counts →
  ∃ out, day_streaks counts = Ret out ∧ day_streaks_from_copy counts = Ret out.
Proof.
  intros Hsafe.
  destruct (streak_pass_spec counts (dict_keys counts) counts)
    as [(out & Hrun & Hcopy & _)|(_ & _ & Hbad)]; [done..| |done].
  by exists out.
Qed.

Lemma day_streaks_unsafe (counts : dict) :
  ¬ keys_safe counts →
  day_streaks counts = Raise OverflowError ∧
  day_streaks_from_copy counts = Raise OverflowError.
Proof.
  intros Hbad.
  destruct (streak_pass_spec counts (dict_keys counts) counts)
    as [(out & _ & _ & _ & _ & _ & Hval)|(Hrun & Hcopy & _)]; [done..| |done].
  by destruct Hbad.
Qed.

(** What a streak pass that returns has stored. *)
Lemma day_streaks_Ret (counts out : dict) :
  day_streaks counts = Ret out →
  keys_safe counts ∧ day_streaks_from_copy counts = Ret out ∧
  same_activity counts out ∧
  (∀ d, d ∈ dict_keys counts →
     ∃ ds v, active_before counts d ds ∧ dict_find counts d = Some v ∧
             dict_find out d = Some (stored_streak v ds)) ∧
  (∀ d, d ∉ dict_keys counts → dict_find out d = dict_find counts d).
Proof.
  intros Hrun. unfold day_streaks in Hrun.
  destruct (streak_pass_spec counts (dict_keys counts) counts)
    as [(out' & Hrun' & Hcopy & Hsame & Hin & Hnotin & Hval)|(Hrun' & _)]; [done..| |];
    rewrite Hrun in Hrun'; [|done].
  injection Hrun' as <-. done.
Qed.

Lemma after_min_keys_safe (counts : dict) :
  (∀ d, d ∈ dict_keys counts → after_min d) → keys_safe counts.
Proof. intros Hkeys d Hd. by apply after_min_valid, Hkeys. Qed.



(** ** The count map of a window *)

Lemma dict_setitem_absent (m : dict) (k : date) (v : Z) :
  k ∉ dict_keys m → dict_setitem m k v = m ++ [(k, v)].
Proof.
  unfold dict_keys. induction m as [|[k0 v0] m IH]; simpl; [done|].
  intros [Hne Hnin]%not_elem_of_cons. rewrite decide_False by done.
  by rewrite IH.
Qed.

Lemma zero_fill_fresh (start : date) (l : list Z) (m : dict) :
  NoDup l → (∀ i, i ∈ l → start + i ∉ dict_keys m) →
  foldl (λ m i, dict_setitem m (start + i) 0) m l = m ++ ((λ i, (start + i, 0)) <$> l).
Proof.
  revert m. induction l as [|i l IH]; intros m Hnd Hfresh; simpl.
  - by rewrite app_nil_r.
  - apply NoDup_cons in Hnd as [Hi Hnd].
    rewrite dict_setitem_absent by (apply Hfresh; left).
    rewrite IH; [by rewrite <- app_assoc|done|].
    intros j Hj. unfold dict_keys. rewrite fmap_app. simpl.
    intros [Hin|Hin%list_elem_of_singleton]%elem_of_app.
    + by apply (Hfresh j); [right|].
    + assert (j = i) as -> by lia. done.
Qed.

(** The comprehension yields the days of the window in ascending order,
    each at 0. *)
Lemma zero_counts_eq (start end_ : date) :
  zero_counts start end_ = (λ i, (start + i, 0)) <$> range (end_ - start + 1).
Proof.
  unfold zero_counts. rewrite zero_fill_fresh; [done|apply NoDup_seqZ|].
  intros i _ Hin. by apply elem_of_nil in Hin.
Qed.

Lemma zero_counts_keys (start end_ : date) :
  dict_keys (zero_counts start end_) = (λ i, start + i) <$> range (end_ - start + 1).
Proof.
  rewrite zero_counts_eq. unfold dict_keys. rewrite <- list_fmap_compose. done.
Qed.

Lemma fill_counts_keys (counts : dict) (rows : list (date * Z)) :
  (∀ row, row ∈ rows → row.1 ∈ dict_keys counts) →
  dict_keys (fill_counts counts rows) = dict_keys counts.
Proof.
  unfold fill_counts. revert counts.
  induction rows as [|row rows IH]; intros counts Hrows; simpl; [done|].
  destruct (dict_setitem_present counts row.1 row.2) as [_ Hkeys]; [apply Hrows; left|].
  rewrite IH; [done|]. intros r Hr. rewrite Hkeys. apply Hrows. by right.
Qed.

Lemma window_day (start end_ d : date) :
  d ∈ (λ i, start + i) <$> range (end_ - start + 1) ↔ start <= d <= end_.
Proof.
  rewrite list_elem_of_fmap. unfold range. split.
  - intros (i & -> & Hi%elem_of_seqZ). lia.
  - intros Hd. exists (d - start). split; [lia|]. apply elem_of_seqZ. lia.
Qed.

(** When the query returns rows of the window only, the count map holds
    the days of the window in chronological order. *)
Lemma load_counts_keys (db : conn) (start end_ : date) :
  (∀ row, row ∈ db start end_ → start <= row.1 <= end_) →
  dict_keys (load_counts db start end_) = (λ i, start + i) <$> range (end_ - start + 1).
Proof.
  intros Hrows. unfold load_counts. rewrite fill_counts_keys; [apply zero_counts_keys|].
  intros row Hrow. rewrite zero_counts_keys. apply window_day. by apply Hrows.
Qed.

(** C10: the streak pass overwrites the count map while it iterates it, in
    insertion order, which for the map the renderer builds is chronological
    order whenever the query returns rows of the window only.  The pass has
    the very outcome of computing every day's streak from an unmodified copy
    of the original counts: the same map, which both return on every map
    whose days have a day before them in the calendar, or the same
    [OverflowError].  At every point of the iteration, each day already
    processed holds a streak that is positive exactly when its original
    count was positive. *)
Theorem day_streaks_in_place :
  (∀ counts : dict, day_streaks counts = day_streaks_from_copy counts) ∧
  (∀ counts : dict,
     (∀ d, d ∈ dict_keys counts → after_min d) →
     ∃ out, day_streaks counts = Ret out ∧ day_streaks_from_copy counts = Ret out) ∧
  (∀ (counts : dict) (done rest : list date),
     dict_keys counts = done ++ rest →
     ((∀ d, d ∈ dict_keys counts → after_min d) →
      ∃ st, for_each streak_step done counts = Ret st) ∧
     ∀ st, for_each streak_step done counts = Ret st →
       ∀ d, d ∈ done →
         ∃ s v, dict_find st d = Some s ∧ dict_find counts d = Some v ∧
                (s > 0 ↔ v > 0)) ∧
  (∀ (db : conn) (start end_ : date),
     (∀ row, row ∈ db start end_ → start <= row.1 <= end_) →
     dict_keys (load_counts db start end_)
     = (λ i, start + i) <$> range (end_ - start + 1)).
Proof.
  split; [|split; [|split]].
  - intros counts. unfold day_streaks, day_streaks_from_copy.
    destruct (streak_pass_spec counts (dict_keys counts) counts)
      as [(out & -> & -> & _)|(-> & -> & _)]; done.
  - intros counts Hkeys. by apply day_streaks_safe, after_min_keys_safe.
  - intros counts done rest Hkeys.
    assert (Hdone : ∀ d, d ∈ done → d ∈ dict_keys counts).
    { intros d Hd. rewrite Hkeys. apply elem_of_app. by left. }
    destruct (streak_pass_spec counts done counts (same_activity_refl counts) Hdone)
      as [(st & Hrun & _ & _ & Hin & _)|(Hrun & _ & Hbad)].
    + split; [by exists st|]. intros st' Hrun' d Hd.
      rewrite Hrun in Hrun'. injection Hrun' as <-.
      destruct (Hin d Hd) as (ds & v & (Hds & _) & Hv & Hst).
      exists (stored_streak v ds), v. split; [done|]. split; [done|].
      unfold stored_streak. case_bool_decide; lia.
    + split; [|intros st' Hrun'; by rewrite Hrun in Hrun'].
      intros Hafter. destruct Hbad. by apply after_min_keys_safe.
  - apply load_counts_keys.
Qed.

Lemma day_streaks_in_place_witness :
  (∃ st, for_each streak_step [ymd 2024 1 1; ymd 2024 1 2] example_counts = Ret st ∧
     ∀ d, d ∈ [ymd 2024 1 1; ymd 2024 1 2] →
       ∃ s v, dict_find st d = Some s ∧ dict_find example_counts d = Some v ∧
              (s > 0 ↔ v > 0)) ∧
  dict_keys (load_counts (λ _ _, [(ymd 2024 1 2, 3)]) (ymd 2024 1 1) (ymd 2024 1 4))
  = (λ i, ymd 2024 1 1 + i) <$> range (ymd 2024 1 4 - ymd 2024 1 1 + 1).
Proof.
  split.
  - destruct (proj1 (proj2 (proj2 day_streaks_in_place)) example_counts
                [ymd 2024 1 1; ymd 2024 1 2] [ymd 2024 1 3; ymd 2024 1 4] eq_refl)
      as [Hret Hinv].
    destruct Hret as [st Hst].
    { intros d Hd. unfold example_counts, dict_keys in Hd. simpl in Hd.
      rewrite !elem_of_cons, elem_of_nil in Hd.
      destruct Hd as [-> | [-> | [-> | [-> | []]]]]; split; by vm_compute. }
    exists st. split; [exact Hst|]. exact (Hinv st Hst).
  - apply (proj2 (proj2 (proj2 day_streaks_in_place)) (λ _ _, [(ymd 2024 1 2, 3)])).
    intros row ->%list_elem_of_singleton. simpl. vm_compute. split; discriminate.
Defined.

(** ** Lists and grids *)

Lemma range_lookup (n i : Z) : 0 <= i < n → range n !! Z.to_nat i = Some i.
Proof.
  intros Hi. unfold range. rewrite lookup_seqZ_lt by lia. f_equal. lia.
Qed.

Lemma tabulate_lookup {A : Type} (n : Z) (f : Z → A) (i : Z) :
  0 <= i < n → (f <$> range n) !! Z.to_nat i = Some (f i).
Proof. intros Hi. by rewrite list_lookup_fmap, (range_lookup n i Hi). Qed.

Lemma range_length (n : Z) : length (range n) = Z.to_nat n.
Proof. apply length_seqZ. Qed.

Lemma range_elem (n i : Z) (k : nat) : range n !! k = Some i → 0 <= i < n ∧ k = Z.to_nat i.
Proof. unfold range. intros [-> ?]%lookup_seqZ. lia. Qed.

Lemma list_getitem_at {A : Type} (l : list A) (i : Z) (x : A) :
  0 <= i → l !! Z.to_nat i = Some x → list_getitem l i = Ret x.
Proof.
  intros Hi Hx. pose proof (lookup_lt_Some _ _ _ Hx).
  unfold list_getitem, list_index. rewrite bool_decide_eq_true_2 by lia.
  by rewrite ret_bind, Hx.
Qed.

Lemma list_setitem_at {A : Type} (l : list A) (i : Z) (x : A) :
  0 <= i < Z.of_nat (length l) → list_setitem l i x = Ret (<[Z.to_nat i := x]> l).
Proof.
  intros Hi. unfold list_setitem, list_index.
  by rewrite bool_decide_eq_true_2 by lia.
Qed.

Lemma tabulate_insert {A : Type} (n : Z) (f : Z → A) (i : Z) (x : A) :
  0 <= i < n →
  <[Z.to_nat i := x]> (f <$> range n) = (λ j, if decide (j = i) then x else f j) <$> range n.
Proof.
  intros Hi. apply list_eq. intros k.
  rewrite list_lookup_insert, !list_lookup_fmap, length_fmap, range_length.
  destruct (decide (Z.to_nat i = k ∧ (Z.to_nat i < Z.to_nat n)%nat)) as [[<- _]|Hne].
  - rewrite (range_lookup n i Hi). simpl. by rewrite decide_True.
  - destruct (range n !! k) as [j|] eqn:Hj; [|done]. simpl.
    apply range_elem in Hj as [? ->]. rewrite decide_False; [done|]. intros ->. lia.
Qed.

Lemma grid_table_ext (cols : Z) (f g : Z → Z → string) :
  (∀ r c, 0 <= r < 7 → 0 <= c < cols → f r c = g r c) →
  grid_table cols f = grid_table cols g.
Proof.
  intros Hfg. unfold grid_table. apply list_fmap_ext. intros k r [Hr _]%range_elem.
  apply list_fmap_ext. intros k' c [Hc _]%range_elem. by apply Hfg.
Qed.

Lemma blank_grid_table (cols : Z) : blank_grid cols = grid_table cols (λ _ _, blank).
Proof. done. Qed.

Lemma grid_table_rows (cols : Z) (f : Z → Z → string) :
  length (grid_table cols f) = 7%nat ∧
  ∀ row, row ∈ grid_table cols f → length row = Z.to_nat cols.
Proof.
  unfold grid_table. split; [by rewrite length_fmap|].
  intros row (r & -> & _)%list_elem_of_fmap.
  by rewrite length_fmap, range_length.
Qed.

Lemma grid_cell_table (cols : Z) (f : Z → Z → string) (r c : Z) :
  0 <= r < 7 → 0 <= c < cols → grid_cell (grid_table cols f) r c = Some (f r c).
Proof.
  intros Hr Hc. unfold grid_cell, grid_table.
  rewrite bool_decide_eq_true_2 by lia.
  rewrite (tabulate_lookup 7 _ r Hr). simpl.
  apply (tabulate_lookup cols (λ c', f r c') c Hc).
Qed.

Lemma grid_cell_table_Some (cols : Z) (f : Z → Z → string) (r c : Z) (s : string) :
  grid_cell (grid_table cols f) r c = Some s → 0 <= r < 7 ∧ 0 <= c < cols.
Proof.
  unfold grid_cell, grid_table. case_bool_decide as Hrc; [|done].
  rewrite list_lookup_fmap. destruct (range 7 !! Z.to_nat r) as [r'|] eqn:Hr; [|done].
  simpl. rewrite list_lookup_fmap.
  destruct (range cols !! Z.to_nat c) as [c'|] eqn:Hc; [|done].
  apply range_elem in Hr as [? ?]. apply range_elem in Hc as [? ?]. lia.
Qed.

(** [grid[r][c] = s] on a table rewrites that one cell. *)
Lemma grid_set_table (cols : Z) (f : Z → Z → string) (r c : Z) (s : string) :
  0 <= r < 7 → 0 <= c < cols →
  grid_set (grid_table cols f) r c s
  = Ret (grid_table cols (λ r' c', if decide (r' = r ∧ c' = c) then s else f r' c')).
Proof.
  intros Hr Hc. unfold grid_set.
  rewrite (list_getitem_at _ r ((λ c', f r c') <$> range cols)); [|lia|].
  2:{ unfold grid_table. by rewrite (tabulate_lookup 7 _ r Hr). }
  rewrite ret_bind, list_setitem_at.
  2:{ rewrite length_fmap, range_length. lia. }
  rewrite ret_bind, list_setitem_at.
  2:{ unfold grid_table. rewrite length_fmap, range_length. lia. }
  f_equal. unfold grid_table at 1. rewrite !tabulate_insert by done.
  unfold grid_table. apply list_fmap_ext. intros k r' [Hr' _]%range_elem.
  destruct (decide (r' = r)) as [->|Hne]; apply list_fmap_ext; intros k' c' _.
  - destruct (decide (c' = c)) as [->|?].
    + by rewrite decide_True.
    + rewrite decide_False; [done|]. by intros [_ ?].
  - rewrite decide_False; [done|]. by intros [? _].
Qed.

(** ** Weekdays *)

Lemma weekday_range (d : date) : 0 <= weekday d < 7.
Proof. unfold weekday. apply Z.mod_pos_bound. lia. Qed.

Lemma monday_of_spec (d : date) :
  weekday (monday_of d) = 0 ∧ monday_of d <= d < monday_of d + 7.
Proof.
  unfold monday_of. pose proof (weekday_range d). split; [|lia].
  unfold weekday in *. Z.div_mod_to_equations. lia.
Qed.

Lemma weekday_from_monday (m i : Z) : weekday m = 0 → weekday (m + i) = i `mod` 7.
Proof. unfold weekday. intros Hm. Z.div_mod_to_equations. lia. Qed.

(** The alignment [start - (start.weekday() - 0) % 7] is the Monday on or
    before [start]. *)
Lemma start_aligned_monday (start : date) :
  start - (weekday start - 0) `mod` 7 = monday_of start.
Proof.
  unfold monday_of. pose proof (weekday_range start).
  rewrite Z.sub_0_r, Z.mod_small by done. done.
Qed.

(** ** Stage selector *)

Section Stage.

Context `{RandomLib}.

Lemma stage_for_count_glyph (n : Z) (s : string) :
  stage_for_count n = Ret s → stage_for_count n = Ret (glyph n).
Proof. unfold glyph. by intros ->. Qed.

Lemma stage_for_count_empty (n : Z) : n <= 0 → stage_for_count n = Ret empty_glyph.
Proof. intros Hn. unfold stage_for_count. by rewrite bool_decide_eq_true_2. Qed.

Hypothesis randbelow_range : randbelow_in_range.

Lemma choice_spec (rand : Rng) (seq : list string) :
  seq ≠ [] → ∃ s, choice rand seq = Ret s ∧ s ∈ seq.
Proof.
  intros Hne. destruct seq as [|s0 seq]; [done|]. unfold choice.
  set (l := s0 :: seq).
  destruct (randbelow_range rand (Z.of_nat (length l))) as [Hlo Hhi]; [simpl; lia|].
  destruct (lookup_lt_is_Some_2 l (Z.to_nat (randbelow rand (Z.of_nat (length l)))))
    as [s Hs]; [lia|].
  exists s. split; [by apply list_getitem_at|]. by eapply list_elem_of_lookup_2.
Qed.

(** One branch of [stage_for_count]: the draw from [tier] succeeds, and the
    symbol drawn settles every case of the statement. *)
Local Ltac draw_from tier :=
  let s := fresh "s" in
  let Hs := fresh "Hs" in
  destruct (choice_spec (Random RAND_SEED) tier) as (s & -> & Hs); [done|];
  exists s; repeat split; (done || lia).

Lemma stage_for_count_spec (n : Z) :
  ∃ s, stage_for_count n = Ret s ∧
    (n <= 0 → s = empty_glyph) ∧
    (n = 1 → s ∈ SEED_LIST) ∧
    (n = 2 → s ∈ SAPLING_LIST) ∧
    (n = 3 → s ∈ TREE_LIST) ∧
    (n = 4 → s ∈ BUG_LIST) ∧
    (5 <= n → s ∈ WOODLAND_ANIMAL_LIST).
Proof.
  unfold stage_for_count.
  case_bool_decide as H0; [exists empty_glyph; repeat split; (done || lia)|].
  case_bool_decide as H1; [draw_from SEED_LIST|].
  case_bool_decide as H2; [draw_from SAPLING_LIST|].
  case_bool_decide as H3; [draw_from TREE_LIST|].
  case_bool_decide as H4; [draw_from BUG_LIST|].
  draw_from WOODLAND_ANIMAL_LIST.
Qed.

Lemma stage_for_count_returns (n : Z) : stage_for_count n = Ret (glyph n).
Proof.
  destruct (stage_for_count_spec n) as (s & Hs & _). by eapply stage_for_count_glyph.
Qed.

End Stage.

(** ** Grid renderer *)

Section Grid.

Context `{RandomLib}.

Variables (start end_ monday : date) (streaks : dict) (cols : Z).

Hypothesis monday_is_monday : weekday monday = 0.

(** The selector returns on the streak of every day of the window. *)
Hypothesis stage_in_window :
  ∀ d, start <= d <= end_ →
    stage_for_count (dict_get streaks d 0) = Ret (glyph (dict_get streaks d 0)).

Lemma cell_step_upto (i : Z) :
  0 <= i → i / 7 < cols →
  cell_step start end_ monday streaks (grid_upto start end_ monday streaks cols i) i
  = Ret (grid_upto start end_ monday streaks cols (i + 1)).
Proof.
  intros Hi Hcol. unfold cell_step, grid_upto.
  rewrite (weekday_from_monday monday i monday_is_monday).
  assert (Hrow : 0 <= i `mod` 7 < 7) by (apply Z.mod_pos_bound; lia).
  assert (Hc0 : 0 <= i / 7) by (apply Z.div_pos; lia).
  assert (Hset : ∀ s,
    grid_set (grid_table cols (λ r c,
        if decide (7 * c + r < i)
        then day_cell start end_ streaks (monday + (7 * c + r)) else blank))
      (i `mod` 7) (i / 7) s
    = Ret (grid_table cols (λ r c,
        if decide (7 * c + r < i + 1)
        then (if decide (7 * c + r = i) then s
              else day_cell start end_ streaks (monday + (7 * c + r)))
        else blank))).
  { intros s. rewrite grid_set_table by lia. f_equal.
    apply grid_table_ext. intros r c Hr Hc.
    assert (r = i `mod` 7 ∧ c = i / 7 ↔ 7 * c + r = i) as Hiff
      by (Z.div_mod_to_equations; lia).
    repeat case_decide; (done || lia). }
  assert (Hfin : ∀ s, s = day_cell start end_ streaks (monday + i) →
    grid_table cols (λ r c,
        if decide (7 * c + r < i + 1)
        then (if decide (7 * c + r = i) then s
              else day_cell start end_ streaks (monday + (7 * c + r)))
        else blank)
    = grid_table cols (λ r c,
        if decide (7 * c + r < i + 1)
        then day_cell start end_ streaks (monday + (7 * c + r)) else blank)).
  { intros s ->. apply grid_table_ext. intros r c _ _.
    repeat case_decide; (done || by subst). }
  destruct (bool_decide (monday + i < start) || bool_decide (monday + i > end_)) eqn:Hout.
  - rewrite Hset. f_equal. apply Hfin. unfold day_cell. by rewrite Hout.
  - apply orb_false_iff in Hout as [Hlo%bool_decide_eq_false Hhi%bool_decide_eq_false].
    rewrite stage_in_window by lia. rewrite ret_bind, Hset. f_equal. apply Hfin.
    unfold day_cell.
    by rewrite (bool_decide_eq_false_2 _ Hlo), (bool_decide_eq_false_2 _ Hhi).
Qed.

Lemma cells_pass (n : nat) :
  (∀ i, 0 <= i < Z.of_nat n → i / 7 < cols) →
  for_each (cell_step start end_ monday streaks) (range (Z.of_nat n)) (blank_grid cols)
  = Ret (grid_upto start end_ monday streaks cols (Z.of_nat n)).
Proof.
  induction n as [|n IH]; intros Hcols.
  - simpl. f_equal. unfold grid_upto. rewrite blank_grid_table.
    apply grid_table_ext. intros r c Hr Hc. rewrite decide_False; [done|lia].
  - unfold range in *. rewrite seqZ_S, for_each_app, IH by (intros; apply Hcols; lia).
    rewrite ret_bind, for_each_cons, Z.add_0_l, cell_step_upto; [|lia|apply Hcols; lia].
    rewrite ret_bind. simpl. f_equal. f_equal. lia.
Qed.

(** The pass over [range(days_total)], whatever the sign of [days_total]. *)
Lemma cells_pass_total (days_total : Z) :
  cols = (days_total + 6) / 7 →
  for_each (cell_step start end_ monday streaks) (range days_total) (blank_grid cols)
  = Ret (grid_upto start end_ monday streaks cols days_total).
Proof.
  intros Hcols.
  assert (range days_total = range (Z.of_nat (Z.to_nat days_total))) as ->.
  { unfold range, seqZ. by rewrite Nat2Z.id. }
  rewrite cells_pass.
  - f_equal. apply grid_table_ext. intros r c Hr Hc. repeat case_decide; (done || lia).
  - intros i Hi. subst cols. Z.div_mod_to_equations. lia.
Qed.

End Grid.

(** A day without events has no streak. *)
Lemma day_streaks_zero (counts streaks : dict) (d : date) :
  day_streaks counts = Ret streaks → dict_get counts d 0 <= 0 → dict_get streaks d 0 = 0.
Proof.
  intros Hrun Hzero.
  destruct (day_streaks_Ret _ _ Hrun) as (_ & _ & _ & Hin & Hnotin).
  unfold dict_get in *. destruct (decide (d ∈ dict_keys counts)) as [Hd|Hd].
  - destruct (Hin d Hd) as (ds & v & _ & Hv & ->). rewrite Hv in Hzero. simpl in *.
    unfold stored_streak. by rewrite bool_decide_eq_false_2 by lia.
  - rewrite (Hnotin d Hd). destruct (dict_find counts d) eqn:Hf; [|done].
    destruct Hd. apply dict_find_keys. by rewrite Hf.
Qed.

(** ** The keys of the count map *)

Lemma dict_setitem_key (m : dict) (k x : date) (v : Z) :
  x ∈ dict_keys (dict_setitem m k v) → x ∈ dict_keys m ∨ x = k.
Proof.
  unfold dict_keys. induction m as [|[k0 v0] m IH]; simpl.
  - intros ->%list_elem_of_singleton. by right.
  - destruct (decide (k0 = k)) as [->|Hne]; simpl; rewrite !elem_of_cons.
    + intros [-> | ?]; [by right|left; by right].
    + intros [-> | Hx]; [left; by left|].
      destruct (IH Hx) as [?|?]; [left; by right|by right].
Qed.

Lemma fill_counts_key (counts : dict) (rows : list (date * Z)) (x : date) :
  x ∈ dict_keys (fill_counts counts rows) →
  x ∈ dict_keys counts ∨ ∃ row, row ∈ rows ∧ row.1 = x.
Proof.
  unfold fill_counts. revert counts.
  induction rows as [|row rows IH]; intros counts; simpl; [by left|].
  intros Hx. destruct (IH _ Hx) as [Hin|(r & Hr & <-)].
  - destruct (dict_setitem_key _ _ _ _ Hin) as [?| ->]; [by left|].
    right. exists row. split; [left|done].
  - right. exists r. split; [by right|done].
Qed.

(** A key of the count map is a day of the window or the day of a row. *)
Lemma load_counts_key (db : conn) (start end_ x : date) :
  x ∈ dict_keys (load_counts db start end_) →
  start <= x <= end_ ∨ ∃ row, row ∈ db start end_ ∧ row.1 = x.
Proof.
  unfold load_counts. intros [Hx|Hx]%fill_counts_key; [left|by right].
  rewrite zero_counts_keys in Hx. by apply window_day in Hx.
Qed.

(** The streak pass returns on the count map of a window that ends at a date
    and begins after 0001-01-01, when the rows are dated after 0001-01-01. *)
Lemma load_counts_safe (db : conn) (start end_ : date) :
  date_min < start → valid_date end_ →
  (∀ row, row ∈ db start end_ → after_min row.1) →
  keys_safe (load_counts db start end_).
Proof.
  intros Hstart Hend Hrows x [Hx|(row & Hrow & <-)]%load_counts_key.
  - unfold valid_date in *. lia.
  - by apply after_min_valid, Hrows.
Qed.

(** ** The window *)

(** The two date operations of [start = end - timedelta(days=weeks * 7 - 1)]
    return exactly when the number of days is one of a [timedelta] and the
    start is a date. *)
Lemma window_start (end_ weeks : Z) :
  (td ← timedelta (weeks * 7 - 1); date_sub end_ td)
  = if bool_decide (- 999999999 <= weeks * 7 - 1 <= 999999999 ∧
                    valid_date (end_ - (weeks * 7 - 1)))
    then Ret (end_ - (weeks * 7 - 1)) else Raise OverflowError.
Proof.
  unfold timedelta, date_sub. case_bool_decide as Htd; simpl.
  - case_bool_decide as Hv.
    + by rewrite bool_decide_eq_true_2.
    + rewrite bool_decide_eq_false_2; [done|tauto].
  - rewrite bool_decide_eq_false_2; [done|tauto].
Qed.

(** Between two dates lie fewer days than a [timedelta] can hold. *)
Lemma window_delta (end_ weeks : Z) :
  valid_date end_ → valid_date (end_ - (weeks * 7 - 1)) →
  - 999999999 <= weeks * 7 - 1 <= 999999999.
Proof. unfold valid_date, date_min, date_max. lia. Qed.

Section Renderer.

Context `{RandomLib}.

(** [forest_grid] after its date operations. *)
Lemma forest_grid_window (db : conn) (weeks : Z) (w : World) :
  let end_ := date_today w in
  let start := end_ - (weeks * 7 - 1) in
  let monday := monday_of start in
  let days_total := end_ - monday + 1 in
  forest_grid db weeks w
  = if bool_decide (- 999999999 <= weeks * 7 - 1 <= 999999999 ∧ valid_date start)
    then streaks ← day_streaks (load_counts db start end_);
         for_each (cell_step start end_ monday streaks) (range days_total)
           (blank_grid ((days_total + 6) / 7))
    else Raise OverflowError.
Proof.
  intros end_ start monday days_total.
  unfold forest_grid. fold end_. unfold timedelta. case_bool_decide as Htd.
  - rewrite ret_bind. unfold date_sub. fold start. case_bool_decide as Hv.
    + rewrite ret_bind, bool_decide_eq_true_2 by done.
      by rewrite start_aligned_monday.
    + rewrite bool_decide_eq_false_2 by tauto. done.
  - rewrite bool_decide_eq_false_2 by tauto. done.
Qed.

(** The grid [forest_grid] returns, given the streaks of the window. *)
Lemma forest_grid_eq (db : conn) (weeks : Z) (w : World) (streaks : dict) :
  let end_ := date_today w in
  let start := end_ - (weeks * 7 - 1) in
  let monday := monday_of start in
  let days_total := end_ - monday + 1 in
  - 999999999 <= weeks * 7 - 1 <= 999999999 → valid_date start →
  day_streaks (load_counts db start end_) = Ret streaks →
  (∀ d, start <= d <= end_ →
     stage_for_count (dict_get streaks d 0) = Ret (glyph (dict_get streaks d 0))) →
  forest_grid db weeks w
  = Ret (grid_upto start end_ monday streaks ((days_total + 6) / 7) days_total).
Proof.
  intros end_ start monday days_total Htd Hstart Hstreaks Hstage.
  rewrite forest_grid_window. fold end_ start monday days_total.
  rewrite bool_decide_eq_true_2 by done. rewrite Hstreaks, ret_bind.
  apply cells_pass_total; [apply monday_of_spec|done|done].
Qed.

(** [forest_grid] raises [OverflowError] when the window does not start at
    a date. *)
Lemma forest_grid_overflow (db : conn) (weeks : Z) (w : World) :
  ¬ valid_date (date_today w - (weeks * 7 - 1)) →
  forest_grid db weeks w = Raise OverflowError.
Proof.
  intros Hstart. rewrite forest_grid_window. rewrite bool_decide_eq_false_2; [done|tauto].
Qed.

(** The text is produced from every grid of seven rows. *)
Lemma render_forest_text (db : conn) (weeks : Z) (w : World) (g : grid) :
  forest_grid db weeks w = Ret g → length g = 7%nat →
  ∃ text, render_forest db weeks w = Ret text.
Proof.
  intros Hg Hlen. unfold render_forest. rewrite Hg, ret_bind.
  do 7 (destruct g as [|? g]; [done|]). destruct g; [|done].
  eexists. reflexivity.
Qed.

(** With no day in the window the selector is never called. *)
Lemma forest_grid_no_window (db : conn) (weeks : Z) (w : World) (streaks : dict) :
  weeks <= 0 →
  let end_ := date_today w in
  let start := end_ - (weeks * 7 - 1) in
  let days_total := end_ - monday_of start + 1 in
  - 999999999 <= weeks * 7 - 1 <= 999999999 → valid_date start →
  day_streaks (load_counts db start end_) = Ret streaks →
  forest_grid db weeks w = Ret (grid_table ((days_total + 6) / 7) (λ _ _, blank)).
Proof.
  intros Hweeks end_ start days_total Htd Hstart Hstreaks.
  rewrite (forest_grid_eq db weeks w streaks Htd Hstart Hstreaks).
  - f_equal. apply grid_table_ext. intros r c Hr Hc. case_decide as Hlt; [|done].
    unfold day_cell. rewrite bool_decide_eq_true_2; [done|].
    subst days_total start end_. lia.
  - intros d Hd. subst start end_. lia.
Qed.

End Renderer.

Lemma empty_glyph_no_tier :
  empty_glyph ∉
    SEED_LIST ++ SAPLING_LIST ++ TREE_LIST ++ BUG_LIST ++ WOODLAND_ANIMAL_LIST.
Proof.
  set (l := SEED_LIST ++ _).
  apply (bool_decide_eq_true_1 (empty_glyph ∉ l)). by vm_compute.
Qed.

Section Claims.

Context `{RandomLib}.

Hypothesis randbelow_range : randbelow_in_range.

(** [forest_grid] on every input: [OverflowError] when the window does not
    start at a date, else the outcome of the streak pass, and after it the
    grid, cell by cell. *)
Lemma forest_grid_cells (db : conn) (weeks : Z) (w : World) :
  let end_ := date_today w in
  let start := end_ - (weeks * 7 - 1) in
  let monday := monday_of start in
  let days_total := end_ - monday + 1 in
  forest_grid db weeks w
  = if bool_decide (- 999999999 <= weeks * 7 - 1 <= 999999999 ∧ valid_date start)
    then streaks ← day_streaks (load_counts db start end_);
         Ret (grid_upto start end_ monday streaks ((days_total + 6) / 7) days_total)
    else Raise OverflowError.
Proof.
  intros end_ start monday days_total.
  case_bool_decide as Hw.
  - destruct (day_streaks (load_counts db start end_)) as [streaks| |] eqn:Hstreaks.
    + rewrite ret_bind. apply forest_grid_eq; [tauto|tauto|done|].
      intros d _. by apply stage_for_count_returns.
    + rewrite forest_grid_window. fold end_ start.
      by rewrite bool_decide_eq_true_2, Hstreaks by done.
    + rewrite forest_grid_window. fold end_ start.
      by rewrite bool_decide_eq_true_2, Hstreaks by done.
  - rewrite forest_grid_window. by rewrite bool_decide_eq_false_2.
Qed.

(** A grid that [forest_grid] has returned. *)
Lemma forest_grid_Ret (db : conn) (weeks : Z) (w : World) (g : grid) :
  let end_ := date_today w in
  let start := end_ - (weeks * 7 - 1) in
  let monday := monday_of start in
  let days_total := end_ - monday + 1 in
  forest_grid db weeks w = Ret g →
  valid_date start ∧
  ∃ streaks,
    day_streaks (load_counts db start end_) = Ret streaks ∧
    g = grid_upto start end_ monday streaks ((days_total + 6) / 7) days_total.
Proof.
  intros end_ start monday days_total. rewrite forest_grid_cells.
  fold end_ start monday days_total. case_bool_decide as Hw; [|done].
  destruct (day_streaks (load_counts db start end_)) as [streaks| |]; [|done..].
  rewrite ret_bind. intros [= <-]. split; [tauto|]. by exists streaks.
Qed.

(** [forest_grid] returns when the clock shows a date, the window starts at
    a date after 0001-01-01 and the rows are dated after 0001-01-01. *)
Lemma forest_grid_returns (db : conn) (weeks : Z) (w : World) :
  let end_ := date_today w in
  let start := end_ - (weeks * 7 - 1) in
  clock_in_range w → after_min start →
  (∀ row, row ∈ db start end_ → after_min row.1) →
  ∃ g, forest_grid db weeks w = Ret g.
Proof.
  intros end_ start Hclock Hstart Hrows. rewrite forest_grid_cells. fold end_ start.
  destruct (after_min_valid _ Hstart) as [Hv _].
  rewrite bool_decide_eq_true_2 by (split; [by apply (window_delta end_)|done]).
  destruct (day_streaks_safe (load_counts db start end_)) as (streaks & -> & _).
  { apply load_counts_safe; [apply Hstart|done|done]. }
  rewrite ret_bind. by eexists.
Qed.

Lemma day_position (monday d days_total : date) :
  weekday monday = 0 → monday <= d → d - monday < days_total →
  0 <= weekday d < 7 ∧ 0 <= (d - monday) / 7 < (days_total + 6) / 7 ∧
  7 * ((d - monday) / 7) + weekday d = d - monday.
Proof.
  intros Hm Hlo Hhi.
  assert (weekday d = (d - monday) `mod` 7) as ->.
  { rewrite <- (weekday_from_monday _ _ Hm). f_equal. lia. }
  Z.div_mod_to_equations. lia.
Qed.

(** C4: the stage selector returns the fixed empty glyph for [n <= 0], a
    symbol of the seed tier for [n = 1], of the sapling tier for [n = 2], of
    the tree tier for [n = 3], of the insect tier for [n = 4] and of the
    animal tier for every [n >= 5]; the empty glyph belongs to no tier, and
    in every grid the renderer returns a day of the window whose count is 0
    is shown as the empty glyph.  The renderer returns a grid when the clock
    shows a date, the window starts at a date after 0001-01-01 and the rows
    are dated after 0001-01-01. *)
Theorem stage_for_count_tiers :
  (∀ n, ∃ s, stage_for_count n = Ret s ∧
     (n <= 0 → s = empty_glyph) ∧
     (n = 1 → s ∈ SEED_LIST) ∧
     (n = 2 → s ∈ SAPLING_LIST) ∧
     (n = 3 → s ∈ TREE_LIST) ∧
     (n = 4 → s ∈ BUG_LIST) ∧
     (5 <= n → s ∈ WOODLAND_ANIMAL_LIST)) ∧
  (empty_glyph ∉
     SEED_LIST ++ SAPLING_LIST ++ TREE_LIST ++ BUG_LIST ++ WOODLAND_ANIMAL_LIST) ∧
  (∀ (db : conn) (weeks : Z) (w : World) (d : date),
     let end_ := date_today w in
     let start := end_ - (weeks * 7 - 1) in
     start <= d <= end_ →
     dict_get (load_counts db start end_) d 0 = 0 →
     (clock_in_range w → after_min start →
      (∀ row, row ∈ db start end_ → after_min row.1) →
      ∃ g, forest_grid db weeks w = Ret g) ∧
     ∀ g, forest_grid db weeks w = Ret g →
          grid_cell g (weekday d) ((d - monday_of start) / 7) = Some empty_glyph).
Proof.
  split; [by apply stage_for_count_spec|]. split; [apply empty_glyph_no_tier|].
  intros db weeks w d end_ start Hd Hzero. split; [apply forest_grid_returns|].
  intros g Hg. destruct (forest_grid_Ret db weeks w g Hg) as (_ & streaks & Hstreaks & ->).
  fold end_ start in Hstreaks |- *.
  destruct (monday_of_spec start) as [Hm Hs].
  destruct (day_position (monday_of start) d (end_ - monday_of start + 1))
    as (Hr & Hc & Hi); [done|lia|lia|].
  unfold grid_upto. rewrite grid_cell_table by done. f_equal.
  rewrite Hi, decide_True by lia.
  replace (monday_of start + (d - monday_of start)) with d by lia.
  unfold day_cell. rewrite !bool_decide_eq_false_2 by lia. simpl.
  rewrite (day_streaks_zero _ _ d Hstreaks) by lia.
  unfold glyph. by rewrite stage_for_count_empty.
Qed.


(** C9: in every grid the renderer returns, a cell whose date lies before
    the start of the window or after its end is blank, whatever happened on
    that day, and a cell whose date lies in the window holds what the stage
    selector returns for that day's streak.  The date of the cell in row [r]
    and column [c] is the aligned Monday plus [7 * c + r] days.  The
    renderer returns a grid when the clock shows a date, the window starts
    at a date after 0001-01-01 and the rows are dated after 0001-01-01. *)
Theorem forest_grid_padding (db : conn) (weeks : Z) (w : World) :
  let end_ := date_today w in
  let start := end_ - (weeks * 7 - 1) in
  let monday := monday_of start in
  (clock_in_range w → after_min start →
   (∀ row, row ∈ db start end_ → after_min row.1) →
   ∃ g, forest_grid db weeks w = Ret g) ∧
  ∀ g : grid, forest_grid db weeks w = Ret g →
    ∃ streaks : dict,
      day_streaks (load_counts db start end_) = Ret streaks ∧
      ∀ r c s, grid_cell g r c = Some s →
        let d := monday + (7 * c + r) in
        weekday d = r ∧ (d - monday) / 7 = c ∧
        (d < start ∨ end_ < d → s = blank) ∧
        (start <= d <= end_ → stage_for_count (dict_get streaks d 0) = Ret s).
Proof.
  intros end_ start monday. split; [apply forest_grid_returns|].
  intros g Hg. destruct (forest_grid_Ret db weeks w g Hg) as (_ & streaks & Hstreaks & ->).
  fold end_ start monday in Hstreaks |- *.
  destruct (monday_of_spec start) as [Hm Hs]. fold monday in Hm, Hs.
  exists streaks. split; [done|].
  intros r c s Hcell d. unfold grid_upto in Hcell.
  destruct (grid_cell_table_Some _ _ _ _ _ Hcell) as [Hr Hc].
  rewrite grid_cell_table in Hcell by done. injection Hcell as <-.
  split; [|split; [|split]].
  - unfold d. rewrite (weekday_from_monday _ _ Hm). Z.div_mod_to_equations. lia.
  - unfold d. Z.div_mod_to_equations. lia.
  - intros Hout. case_decide as Hlt; [|done].
    unfold day_cell. fold d. destruct Hout as [Hout|Hout].
    + by rewrite bool_decide_eq_true_2.
    + unfold d in Hout. lia.
  - intros Hin. rewrite decide_True by (unfold d in Hin; lia).
    unfold day_cell. fold d. rewrite !bool_decide_eq_false_2 by lia. simpl.
    by apply stage_for_count_returns.
Qed.

(** C7: the stage selector is deterministic.  Every call with the same [n]
    returns the same symbol: the empty glyph for [n <= 0], and for [n > 0]
    the choice a generator freshly seeded with [RAND_SEED] makes in the tier
    of [n].  Rendering the same event store under the same current date
    twice yields the same grid. *)
Theorem stage_for_count_deterministic :
  (∀ n, ∃ s, stage_for_count n = Ret s ∧ ∀ s', stage_for_count n = Ret s' → s' = s) ∧
  (∀ n, n <= 0 → stage_for_count n = Ret empty_glyph) ∧
  (∀ n, 0 < n → stage_for_count n = choice (Random RAND_SEED) (tier_of n)) ∧
  (∀ (db : conn) (weeks : Z) (w1 w2 : World),
     date_today w1 = date_today w2 →
     forest_grid db weeks w1 = forest_grid db weeks w2).
Proof.
  split; [|split; [|split]].
  - intros n. destruct (stage_for_count_spec randbelow_range n) as (s & Hs & _).
    exists s. split; [done|]. intros s' Hs'. congruence.
  - apply stage_for_count_empty.
  - intros n Hn. unfold stage_for_count, tier_of.
    rewrite bool_decide_eq_false_2 by lia. by repeat case_bool_decide.
  - intros db weeks w1 w2 Htoday. unfold forest_grid. by rewrite Htoday.
Qed.

End Claims.

Section Ambient.

Context `{RandomLib}.

(** C5, amended: [compute_streaks] and [render_forest] take no current-date
    argument; each reads the current date from the ambient clock, and its
    result is determined by its explicit arguments together with that date:
    two calls with the same arguments at any two moments of the same day
    give the same result. *)
Theorem core_depends_on_ambient_date (days : list date) (db : conn) (weeks : Z)
    (w1 w2 : World) :
  date_today w1 = date_today w2 →
  compute_streaks days w1 = compute_streaks days w2 ∧
  forest_grid db weeks w1 = forest_grid db weeks w2 ∧
  render_forest db weeks w1 = render_forest db weeks w2.
Proof.
  intros Htoday. split; [|split].
  - unfold compute_streaks. by rewrite Htoday.
  - unfold forest_grid. by rewrite Htoday.
  - unfold render_forest, forest_grid. by rewrite Htoday.
Qed.

(** C8, amended: the renderer does not validate [weeks] and has no error of
    the kind of a configuration error.  For [weeks <= 0] it returns a grid
    of 7 rows with at most one column, every cell of it blank, and the text
    of that grid, as long as the start of the window, [weeks * 7 - 1] days
    before today, is a date (not after 9999-12-31); beyond that the date
    arithmetic raises [OverflowError]. *)
Theorem render_forest_weeks_unchecked (db : conn) (weeks : Z) (w : World) :
  weeks <= 0 →
  clock_in_range w →
  let end_ := date_today w in
  let start := end_ - (weeks * 7 - 1) in
  (∀ row, row ∈ db start end_ → after_min row.1) →
  (start <= date_max →
   ∃ (g : grid) (text : string),
     forest_grid db weeks w = Ret g ∧
     render_forest db weeks w = Ret text ∧
     length g = 7%nat ∧
     ∀ row, row ∈ g → (length row <= 1)%nat ∧ ∀ cell, cell ∈ row → cell = blank) ∧
  (date_max < start →
   forest_grid db weeks w = Raise OverflowError ∧
   render_forest db weeks w = Raise OverflowError).
Proof.
  intros Hweeks Hclock end_ start Hrows. split.
  - intros Hstart.
    assert (Hafter : after_min start) by (unfold after_min, clock_in_range, valid_date in *;
                                          fold end_ in Hclock; unfold start; lia).
    destruct (after_min_valid _ Hafter) as [Hv _].
    destruct (day_streaks_safe (load_counts db start end_)) as (streaks & Hstreaks & _).
    { apply load_counts_safe; [apply Hafter|done|done]. }
    pose proof (forest_grid_no_window db weeks w streaks Hweeks
                  (window_delta _ _ Hclock Hv) Hv Hstreaks) as Hg.
    simpl in Hg. fold end_ start in Hg.
    set (cols := (end_ - monday_of start + 1 + 6) / 7) in *.
    destruct (grid_table_rows cols (λ _ _, blank)) as [Hlen Hrws].
    destruct (render_forest_text db weeks w _ Hg Hlen) as [text Htext].
    exists (grid_table cols (λ _ _, blank)), text.
    split; [done|]. split; [done|]. split; [done|].
    intros row Hrow. split.
    + rewrite (Hrws row Hrow). destruct (monday_of_spec start) as [_ Hs].
      assert (cols <= 1) by (unfold cols, start in *; Z.div_mod_to_equations; lia). lia.
    + unfold grid_table in Hrow. apply list_elem_of_fmap in Hrow as (r & -> & _).
      by intros cell (c & -> & _)%list_elem_of_fmap.
  - intros Hstart.
    assert (Hg : forest_grid db weeks w = Raise OverflowError).
    { apply forest_grid_overflow. fold end_ start. unfold valid_date. lia. }
    split; [done|]. unfold render_forest. by rewrite Hg.
Qed.

End Ambient.

Lemma seed_mod_in_range : @randbelow_in_range seed_mod.
Proof. intros g n Hn. simpl. by apply Z.mod_pos_bound. Qed.

Lemma example_clock_in_range : clock_in_range (world_at (ymd 2024 1 4) 3600).
Proof. split; by vm_compute. Qed.

Lemma example_db_after_min (start end_ : date) (row : date * Z) :
  row ∈ example_db start end_ → after_min row.1.
Proof.
  unfold example_db. intros [_ Hrow]%list_elem_of_filter.
  rewrite !elem_of_cons, elem_of_nil in Hrow.
  destruct Hrow as [-> | [-> | [-> | []]]]; split; by vm_compute.
Qed.

Local Open Scope string_scope.

(** One week ending on Thursday 2024-01-04: the window starts on Friday
    2023-12-29, the grid starts on Monday 2023-12-25 and has two columns.
    The tier symbols are the picks of [seed_mod]. *)
Example forest_grid_example :
  forest_grid (H := seed_mod) example_db 1 (world_at (ymd 2024 1 4) 3600)
  = Ret [[" "; "🌰"]; [" "; "🍀"]; [" "; "."]; [" "; "🌰"];
         ["."; " "]; ["."; " "]; ["."; " "]].
Proof. by vm_compute. Qed.

Local Close Scope string_scope.

(** The dates at the two ends of the calendar: [compute_streaks] raises
    [OverflowError] on a list that holds one of them, the streak pass on a
    map that holds the first, and the renderer for a window that would
    start before the first. *)
Example overflow_examples :
  compute_streaks [date_max] (world_at (ymd 2024 1 4) 0) = Raise OverflowError ∧
  compute_streaks [date_min] (world_at (ymd 2024 1 4) 0) = Raise OverflowError ∧
  day_streaks [(date_min, 1)] = Raise OverflowError ∧
  forest_grid (H := seed_mod) example_db 200000 (world_at (ymd 2024 1 4) 0)
  = Raise OverflowError.
Proof. repeat split; by vm_compute. Qed.




Lemma stage_for_count_tiers_witness :
  @randbelow_in_range seed_mod ∧
  ∃ s, stage_for_count (H := seed_mod) 3 = Ret s ∧ s ∈ TREE_LIST.
Proof.
  split; [exact seed_mod_in_range|].
  destruct (proj1 (stage_for_count_tiers seed_mod_in_range) 3)
    as (s & Hs & _ & _ & _ & Htree & _).
  exists s. split; [exact Hs|by apply Htree].
Defined.


Lemma forest_grid_padding_witness :
  @randbelow_in_range seed_mod ∧
  ∃ g : grid,
    forest_grid (H := seed_mod) example_db 1 (world_at (ymd 2024 1 4) 3600) = Ret g ∧
    ∀ s, grid_cell g 0 0 = Some s → s = blank.
Proof.
  split; [exact seed_mod_in_range|].
  destruct (forest_grid_padding seed_mod_in_range example_db 1
              (world_at (ymd 2024 1 4) 3600)) as [Hret Hpad].
  destruct Hret as [g Hg].
  { exact example_clock_in_range. }
  { split; by vm_compute. }
  { intros row. apply example_db_after_min. }
  destruct (Hpad g Hg) as (streaks & _ & Hcells).
  exists g. split; [exact Hg|]. intros s Hs.
  destruct (Hcells 0 0 s Hs) as (_ & _ & Hblank & _). apply Hblank. left. by vm_compute.
Defined.

Lemma stage_for_count_deterministic_witness :
  @randbelow_in_range seed_mod ∧
  date_today (world_at (ymd 2024 1 4) 0) = date_today (world_at (ymd 2024 1 4) 3600) ∧
  forest_grid (H := seed_mod) example_db 1 (world_at (ymd 2024 1 4) 0)
  = forest_grid (H := seed_mod) example_db 1 (world_at (ymd 2024 1 4) 3600).
Proof.
  split; [exact seed_mod_in_range|]. split; [reflexivity|].
  apply (proj2 (proj2 (proj2 (stage_for_count_deterministic seed_mod_in_range)))).
  reflexivity.
Defined.

(** C5, counterexample: the same list of days gives two results under two
    ambient dates, so the result is not determined by the explicit argument. *)
Lemma compute_streaks_reads_clock :
  compute_streaks [ymd 2024 1 4] (world_at (ymd 2024 1 4) 0) = Ret (1, 1) ∧
  compute_streaks [ymd 2024 1 4] (world_at (ymd 2024 1 10) 0) = Ret (0, 1) ∧
  ¬ (∀ (days : list date) (w1 w2 : World),
       compute_streaks days w1 = compute_streaks days w2).
Proof.
  split; [by vm_compute|]. split; [by vm_compute|].
  intros Hsame.
  specialize (Hsame [ymd 2024 1 4] (world_at (ymd 2024 1 4) 0) (world_at (ymd 2024 1 10) 0)).
  vm_compute in Hsame. discriminate.
Qed.

Lemma core_depends_on_ambient_date_witness :
  date_today (world_at (ymd 2024 1 4) 0) = date_today (world_at (ymd 2024 1 4) 3600) ∧
  compute_streaks [ymd 2024 1 4] (world_at (ymd 2024 1 4) 0)
  = compute_streaks [ymd 2024 1 4] (world_at (ymd 2024 1 4) 3600).
Proof.
  split; [reflexivity|].
  apply (core_depends_on_ambient_date (H := seed_mod) [ymd 2024 1 4] example_db 1
           (world_at (ymd 2024 1 4) 0) (world_at (ymd 2024 1 4) 3600)).
  reflexivity.
Defined.

(** C8, counterexample: with [weeks = 0] the renderer returns a grid and
    its text; no error is raised. *)
Lemma render_forest_accepts_zero_weeks :
  forest_grid (H := seed_mod) example_db 0 (world_at (ymd 2024 1 4) 3600)
  = Ret [[blank]; [blank]; [blank]; [blank]; [blank]; [blank]; [blank]] ∧
  ∃ text, render_forest (H := seed_mod) example_db 0 (world_at (ymd 2024 1 4) 3600)
          = Ret text.
Proof. split; [by vm_compute|]. eexists. by vm_compute. Qed.

Lemma render_forest_weeks_unchecked_witness :
  -1 <= 0 ∧ clock_in_range (world_at (ymd 2024 1 4) 3600) ∧
  ∃ g : grid,
    forest_grid (H := seed_mod) example_db (-1) (world_at (ymd 2024 1 4) 3600) = Ret g ∧
    length g = 7%nat.
Proof.
  split; [lia|]. split; [exact example_clock_in_range|].
  destruct (render_forest_weeks_unchecked (H := seed_mod) example_db (-1)
              (world_at (ymd 2024 1 4) 3600) ltac:(lia) example_clock_in_range)
    as [Hret _].
  { intros row. apply example_db_after_min. }
  destruct Hret as (g & text & Hg & _ & Hlen & _); [by vm_compute|].
  exists g. split; [exact Hg|exact Hlen].
Defined.

(** * Further properties of the program *)

(** ** Streak calculator *)

(** A run of [k] days takes [k] of the logged days. *)
Lemma run_from_size (D : gset date) (d : date) (k : Z) :
  run_from D d k → k <= Z.of_nat (size D).
Proof.
  intros (Hk & Hall & _).
  assert (Hsub : list_to_set (seqZ d k) ⊆ D).
  { intros x [Hlo Hhi]%elem_of_list_to_set%elem_of_seqZ.
    replace x with (d + (x - d)) by lia. apply Hall. lia. }
  apply subseteq_size in Hsub.
  rewrite size_list_to_set, length_seqZ in Hsub by apply NoDup_seqZ. lia.
Qed.

(** The run that ends at [a] is part of the run that begins at its start. *)
Lemma run_upto_le_max (D : gset date) (a : date) (k m : Z) :
  run_upto D a k → max_run D m → k <= m.
Proof.
  intros (Hk & Hall & Hend) [_ Hub].
  assert (Hs : run_start D (a - (k - 1))).
  { split; [apply Hall; lia|]. by replace (a - (k - 1) - 1) with (a - k) by lia. }
  destruct (run_from_exists D _ (proj1 Hs)) as (k' & Hk').
  specialize (Hub _ _ Hs Hk'). destruct Hk' as (? & Hall' & Hend').
  destruct (decide (k <= k')); [lia|]. destruct Hend'.
  replace (a - (k - 1) + k') with (a - (k - 1 - k')) by lia. apply Hall. lia.
Qed.

Lemma list_to_set_nil_inv (l : list date) : (list_to_set l : gset date) = ∅ → l = [].
Proof.
  destruct l as [|x l]; [done|]. intros Hs.
  assert (Hx : x ∈ (list_to_set (x :: l) : gset date)) by (apply elem_of_list_to_set; left).
  rewrite Hs in Hx. by apply not_elem_of_empty in Hx.
Qed.

Lemma max_run_unique (D : gset date) (m m' : Z) : max_run D m → max_run D m' → m = m'.
Proof.
  intros [(d & Hs & Hd) Hub] [(d' & Hs' & Hd') Hub'].
  specialize (Hub _ _ Hs' Hd'). specialize (Hub' _ _ Hs Hd). lia.
Qed.

Lemma current_of_unique (D : gset date) (today : date) (c c' : Z) :
  current_of D today c → current_of D today c' → c = c'.
Proof.
  intros [[? Hc]|[(? & ? & Hc)|(? & ? & ->)]] [[? Hc']|[(? & ? & Hc')|(? & ? & ->)]];
    try done; by eapply run_upto_unique.
Qed.

(** The streaks [compute_streaks] returns are ordered. *)
Lemma compute_streaks_ordered (days : list date) (w : World) (current longest : Z) :
  compute_streaks days w = Ret (current, longest) →
  0 <= current <= longest ∧
  longest <= Z.of_nat (size (list_to_set days : gset date)) ∧
  (days = [] ∨ 1 <= longest).
Proof.
  intros Hrun. destruct (compute_streaks_Ret _ _ _ _ Hrun) as [Hl Hc].
  destruct Hl as [[-> ->]|[Hne Hmax]].
  - simpl in Hrun. simplify_eq. rewrite list_to_set_nil, size_empty. split; [lia|].
    split; [lia|by left].
  - destruct Hmax as [(d & Hs & Hd) Hub] eqn:E. clear E.
    assert (1 <= longest) by (destruct Hd; lia).
    split; [|split; [by eapply run_from_size|by right]].
    destruct Hc as [[_ Hk]|[(_ & _ & Hk)|(_ & _ & ->)]]; [| |lia].
    + pose proof (run_upto_le_max _ _ _ _ Hk Hmax). destruct Hk. lia.
    + pose proof (run_upto_le_max _ _ _ _ Hk Hmax). destruct Hk. lia.
Qed.

(** A list that holds the first or the last date of the calendar. *)
Lemma compute_streaks_overflow (days : list date) (w : World) (d : date) :
  d ∈ days → d = date_min ∨ d = date_max →
  compute_streaks days w = Raise OverflowError.
Proof.
  intros Hd Hends.
  destruct (compute_streaks_spec days w) as [(c & l & _ & _ & _ & Hok)|[Hrun _]]; [|done].
  destruct Hok as [->|[Hok _]]; [by apply elem_of_nil in Hd|].
  destruct Hok. exists d. split; [by apply elem_of_list_to_set|].
  destruct Hends as [-> | ->]; [left|right]; unfold valid_date, date_min, date_max; lia.
Qed.

(** X1: the streaks [compute_streaks] returns are ordered: the current streak
    is at least 0 and at most the longest streak, the longest streak is at
    most the number of distinct logged days, and it is at least 1 as soon as
    a day is logged.  The function returns on every list of days that have a
    day before and a day after them in the calendar, when today is logged or
    has a day before it; it raises [OverflowError] on every list that holds
    0001-01-01 or 9999-12-31. *)
Theorem compute_streaks_bounds (days : list date) (w : World) :
  ((∀ d, d ∈ days → inside d) →
   date_today w ∈ days ∨ after_min (date_today w) →
   ∃ current longest, compute_streaks days w = Ret (current, longest)) ∧
  (∀ current longest,
     compute_streaks days w = Ret (current, longest) →
     0 <= current <= longest ∧
     longest <= Z.of_nat (size (list_to_set days : gset date)) ∧
     (days = [] ∨ 1 <= longest)) ∧
  (∀ d, d ∈ days → d = date_min ∨ d = date_max →
     compute_streaks days w = Raise OverflowError).
Proof.
  split; [|split].
  - intros Hdays Htoday.
    destruct (compute_streaks_returns days w Hdays) as (c & l & Hrun & _).
    { destruct Htoday as [?|?%after_min_valid]; [by left|right; tauto]. }
    by exists c, l.
  - apply compute_streaks_ordered.
  - apply compute_streaks_overflow.
Qed.

Lemma compute_streaks_bounds_witness :
  ∃ current longest,
    compute_streaks [ymd 2024 1 1; ymd 2024 1 2; ymd 2024 1 4] (world_at (ymd 2024 1 4) 0)
    = Ret (current, longest).
Proof.
  apply (proj1 (compute_streaks_bounds [ymd 2024 1 1; ymd 2024 1 2; ymd 2024 1 4]
                  (world_at (ymd 2024 1 4) 0))).
  - intros d Hd. rewrite !elem_of_cons, elem_of_nil in Hd.
    destruct Hd as [-> | [-> | [-> | []]]]; split; by vm_compute.
  - right. split; by vm_compute.
Defined.

(** X2: [compute_streaks] looks at its list only as a set: two lists with the
    same elements, in any order and with any repetitions, give the same
    streaks. *)
Theorem compute_streaks_set (days days' : list date) (w : World) :
  (list_to_set days : gset date) = list_to_set days' →
  compute_streaks days w = compute_streaks days' w.
Proof.
  intros Hset.
  assert (Hnil : days = [] ↔ days' = []).
  { split; intros ->; [symmetry in Hset|]; by apply list_to_set_nil_inv in Hset. }
  destruct (compute_streaks_spec days w) as [(c & l & -> & Hl & Hc & Hok)|(-> & Hne & Hbad)];
    destruct (compute_streaks_spec days' w)
      as [(c' & l' & -> & Hl' & Hc' & Hok')|(-> & Hne' & Hbad')].
  - rewrite <- Hset in Hc'. rewrite (current_of_unique _ _ _ _ Hc Hc'). do 2 f_equal.
    destruct Hl as [[Hd ->]|[Hd Hm]], Hl' as [[Hd' ->]|[Hd' Hm']];
      [done|by apply Hnil in Hd|by apply Hnil in Hd'|].
    rewrite <- Hset in Hm'. by eapply max_run_unique.
  - rewrite <- Hset in Hbad'.
    destruct Hok as [Hd|[Hok Ht]]; [by apply Hnil in Hd|]. tauto.
  - rewrite <- Hset in Hok'.
    destruct Hok' as [Hd|[Hok Ht]]; [by apply Hnil in Hd|]. tauto.
  - done.
Qed.

Lemma compute_streaks_set_witness :
  (list_to_set [ymd 2024 1 2; ymd 2024 1 1; ymd 2024 1 2] : gset date)
  = list_to_set [ymd 2024 1 1; ymd 2024 1 2] ∧
  compute_streaks [ymd 2024 1 2; ymd 2024 1 1; ymd 2024 1 2] (world_at (ymd 2024 1 2) 0)
  = compute_streaks [ymd 2024 1 1; ymd 2024 1 2] (world_at (ymd 2024 1 2) 0).
Proof.
  assert (Hset : (list_to_set [ymd 2024 1 2; ymd 2024 1 1; ymd 2024 1 2] : gset date)
                 = list_to_set [ymd 2024 1 1; ymd 2024 1 2]) by set_solver.
  split; [exact Hset|]. exact (compute_streaks_set _ _ _ Hset).
Defined.

(** X3: when the logged days are exactly the days from [a] to [b], neither
    0001-01-01 nor 9999-12-31 among them, and [b] is today or yesterday,
    both streaks are the number of days from [a] to [b]. *)
Theorem compute_streaks_interval (days : list date) (w : World) (a b : date) :
  (∀ d, d ∈ days ↔ a <= d <= b) → a <= b →
  date_min < a → b < date_max →
  b = date_today w ∨ b = date_today w - 1 →
  compute_streaks days w = Ret (b - a + 1, b - a + 1).
Proof.
  intros Hdays Hab Ha Hmax Hb.
  assert (HD : ∀ d, d ∈ (list_to_set days : gset date) ↔ a <= d <= b).
  { intros d. by rewrite elem_of_list_to_set. }
  assert (Hup : run_upto (list_to_set days) b (b - a + 1)).
  { split; [lia|]. split; [intros j Hj; apply HD; lia|]. rewrite HD. lia. }
  assert (Hmaxrun : max_run (list_to_set days) (b - a + 1)).
  { assert (Hfrom : run_from (list_to_set days) a (b - a + 1)).
    { split; [lia|]. split; [intros j Hj; apply HD; lia|]. rewrite HD. lia. }
    split.
    - exists a. split; [|done]. split; [apply HD; lia|rewrite HD; lia].
    - intros d k [Hd Hprev] Hk. rewrite HD in Hd, Hprev.
      assert (d = a) as -> by lia. by rewrite (run_from_unique _ _ _ _ Hk Hfrom). }
  destruct (compute_streaks_returns days w) as (c & l & -> & Hl & Hc).
  { intros d Hd%Hdays. unfold inside. lia. }
  { destruct Hb as [Hb|Hb]; [left; apply Hdays; lia|right].
    rewrite <- Hb. unfold valid_date. lia. }
  assert (current_of (list_to_set days) (date_today w) (b - a + 1)) as Hc'.
  { destruct Hb as [Hb|Hb].
    - left. rewrite <- Hb. split; [apply HD; lia|done].
    - right; left. rewrite <- Hb. split; [rewrite HD; lia|].
      split; [apply HD; lia|done]. }
  rewrite (current_of_unique _ _ _ _ Hc Hc'). do 2 f_equal.
  destruct Hl as [[-> _]|[_ Hm]]; [|by eapply max_run_unique].
  specialize (Hdays a). rewrite elem_of_nil in Hdays. lia.
Qed.

Lemma compute_streaks_interval_witness :
  compute_streaks [ymd 2024 1 3; ymd 2024 1 1; ymd 2024 1 2] (world_at (ymd 2024 1 4) 0)
  = Ret (3, 3).
Proof.
  apply (compute_streaks_interval _ _ (ymd 2024 1 1) (ymd 2024 1 3)).
  - intros d. rewrite !elem_of_cons, elem_of_nil.
    change (ymd 2024 1 1) with 738886. change (ymd 2024 1 2) with 738887.
    change (ymd 2024 1 3) with 738888. lia.
  - by vm_compute.
  - by vm_compute.
  - by vm_compute.
  - right. reflexivity.
Defined.

(** ** Daily aggregator *)

(** What a finished streak pass has stored. *)
Lemma day_streaks_spec (counts out : dict) :
  day_streaks counts = Ret out →
  same_activity counts out ∧
  ∀ d, d ∈ dict_keys counts →
    ∃ ds v, active_before counts d ds ∧ dict_find counts d = Some v ∧
            dict_find out d = Some (stored_streak v ds).
Proof.
  intros Hrun. by destruct (day_streaks_Ret _ _ Hrun) as (_ & _ & Hsame & Hin & _).
Qed.

Lemma active_before_next (m : dict) (d : date) (k : Z) :
  is_active m (d - 1) = true → active_before m (d - 1) k → active_before m d (k + 1).
Proof.
  intros Hact (Hk & Hall & Hend). split; [lia|]. split.
  - intros j Hj. destruct (decide (j = 1)) as [->|]; [done|].
    replace (d - j) with (d - 1 - (j - 1)) by lia. apply Hall. lia.
  - by replace (d - (k + 1) - 1) with (d - 1 - k - 1) by lia.
Qed.

Lemma active_before_bound (m : dict) (d : date) (k : Z) :
  active_before m d k → k <= Z.of_nat (keys_below m d).
Proof.
  intros (Hk & Hall & _).
  assert (Hgen : ∀ n : nat, Z.of_nat n <= k →
            (Z.of_nat n + Z.of_nat (keys_below m (d - Z.of_nat n)) <= Z.of_nat (keys_below m d))).
  { induction n as [|n IH]; intros Hn.
    - replace (d - Z.of_nat 0) with d by lia. lia.
    - specialize (IH ltac:(lia)).
      pose proof (keys_below_shrinks m (d - Z.of_nat n)) as Hs.
      replace (d - Z.of_nat n - 1) with (d - Z.of_nat (S n)) in Hs by lia.
      specialize (Hs (is_active_keys _ _ (Hall (Z.of_nat (S n)) ltac:(lia)))). lia. }
  specialize (Hgen (Z.to_nat k) ltac:(lia)). lia.
Qed.

Lemma keys_below_lt_length (m : dict) (d : date) :
  d ∈ dict_keys m → (keys_below m d < length m)%nat.
Proof.
  unfold dict_keys. induction m as [|[k v] m IH]; simpl.
  - by intros ?%elem_of_nil.
  - intros [Heq|Hin]%elem_of_cons.
    + subst k. rewrite decide_False by lia. pose proof (keys_below_le m d). lia.
    + specialize (IH Hin). case_decide; lia.
Qed.

Lemma dict_setitem_same (m : dict) (k : date) (v : Z) :
  dict_find m k = Some v → dict_setitem m k v = m.
Proof.
  induction m as [|[k0 v0] m IH]; simpl; [done|].
  destruct (decide (k0 = k)) as [->|Hne]; [by intros [= ->]|].
  intros Hf. by rewrite IH.
Qed.

(** X4: after the streak pass a day without events holds 0; a day with
    events holds 1 when the day before is absent or without events, and one
    more than the day before otherwise. *)
Theorem day_streaks_step (counts out : dict) (d : date) :
  day_streaks counts = Ret out → d ∈ dict_keys counts →
  ∃ s, dict_find out d = Some s ∧
    (is_active counts d = false → s = 0) ∧
    (is_active counts d = true → is_active counts (d - 1) = false → s = 1) ∧
    (is_active counts d = true → is_active counts (d - 1) = true →
       ∃ s', dict_find out (d - 1) = Some s' ∧ s = s' + 1).
Proof.
  intros Hrun Hd. destruct (day_streaks_spec _ _ Hrun) as [_ Hin].
  destruct (Hin d Hd) as (ds & v & Hds & Hv & Hout).
  exists (stored_streak v ds). split; [done|].
  unfold is_active at 1 2 4. rewrite Hv. unfold stored_streak.
  split; [by intros ->|]. split.
  - intros -> Hprev. destruct Hds as (Hk & Hall & _).
    destruct (decide (ds = 0)) as [->|]; [done|].
    rewrite (Hall 1) in Hprev by lia. done.
  - intros -> Hprev.
    destruct (Hin (d - 1) (is_active_keys _ _ Hprev)) as (ds' & v' & Hds' & Hv' & Hout').
    exists (stored_streak v' ds'). split; [done|].
    rewrite (active_before_unique _ _ _ _ Hds (active_before_next _ _ _ Hprev Hds')).
    unfold is_active in Hprev. rewrite Hv' in Hprev. unfold stored_streak.
    rewrite Hprev. lia.
Qed.

Lemma day_streaks_step_witness :
  ∃ s, dict_find example_streaks (ymd 2024 1 2) = Some s ∧
    (is_active example_counts (ymd 2024 1 2) = true →
     is_active example_counts (ymd 2024 1 2 - 1) = true →
       ∃ s', dict_find example_streaks (ymd 2024 1 2 - 1) = Some s' ∧ s = s' + 1).
Proof.
  destruct (day_streaks_step example_counts example_streaks (ymd 2024 1 2))
    as (s & Hs & _ & _ & Hnext); [reflexivity|by apply dict_contains_keys|].
  by exists s.
Defined.

(** X5: the streak pass keeps the days of the map and their order, stores
    values between 0 and the number of entries, and leaves its own result
    unchanged when it is run again. *)
Theorem day_streaks_stable (counts out : dict) :
  day_streaks counts = Ret out →
  dict_keys out = dict_keys counts ∧
  (∀ d s, dict_find out d = Some s → 0 <= s <= Z.of_nat (length counts)) ∧
  day_streaks out = Ret out.
Proof.
  intros Hrun. destruct (day_streaks_spec _ _ Hrun) as [[Hkeys Hact] Hin].
  assert (Hsafe : keys_safe out).
  { destruct (day_streaks_Ret _ _ Hrun) as [Hs _]. intros k Hk. apply Hs. by rewrite <- Hkeys. }
  assert (Hval : ∀ d, d ∈ dict_keys counts →
            ∃ ds v, active_before counts d ds ∧ dict_find out d = Some (stored_streak v ds)).
  { intros d Hd. destruct (Hin d Hd) as (ds & v & ? & _ & ?). by exists ds, v. }
  split; [done|]. split.
  - intros d s Hs.
    assert (Hd : d ∈ dict_keys counts) by (rewrite <- Hkeys; apply dict_find_keys; eauto).
    destruct (Hval d Hd) as (ds & v & Hds & Hout). rewrite Hout in Hs. simplify_eq.
    pose proof (active_before_bound _ _ _ Hds). pose proof (keys_below_lt_length _ _ Hd).
    destruct Hds as [? _]. unfold stored_streak. case_bool_decide; lia.
  - assert (Hfix : ∀ l, (∀ d, d ∈ l → d ∈ dict_keys counts) →
              for_each streak_step l out = Ret out).
    { induction l as [|d l IH]; intros Hl; [done|].
      rewrite for_each_cons.
      destruct (streak_step_spec out out d (same_activity_refl out))
        as [(ds2 & v2 & Hds2 & Hv2 & _ & Hstep & _)|(_ & _ & Hbad)];
        [rewrite Hkeys; apply Hl; left| |done].
      destruct (Hval d) as (ds & v & Hds & Hout); [apply Hl; left|].
      rewrite Hstep, ret_bind. rewrite Hout in Hv2. simplify_eq.
      assert (ds2 = ds) as ->.
      { apply (active_before_unique counts d); [|done].
        destruct Hds2 as (? & Hall & Hend). split; [done|].
        split; [intros j Hj; rewrite <- Hact; by apply Hall|by rewrite <- Hact]. }
      assert (stored_streak (stored_streak v ds) ds = stored_streak v ds) as ->.
      { destruct Hds as [? _]. unfold stored_streak. repeat case_bool_decide; lia. }
      rewrite dict_setitem_same by done. apply IH. intros; apply Hl; by right. }
    unfold day_streaks. rewrite Hkeys. by apply Hfix.
Qed.

Lemma day_streaks_stable_witness :
  dict_keys example_streaks = dict_keys example_counts ∧
  day_streaks example_streaks = Ret example_streaks.
Proof.
  destruct (day_streaks_stable example_counts example_streaks) as (Hk & _ & Hfix);
    [reflexivity|]. split; [exact Hk|exact Hfix].
Defined.

(** ** The count map of a window *)

Lemma dict_find_elem (m : dict) (k : date) (v : Z) : dict_find m k = Some v → (k, v) ∈ m.
Proof.
  induction m as [|[k0 v0] m IH]; simpl; [done|].
  destruct (decide (k0 = k)) as [->|Hne].
  - intros [= ->]. left.
  - intros Hf. right. by apply IH.
Qed.

Lemma zero_counts_find (start end_ d : date) :
  dict_find (zero_counts start end_) d
  = if decide (start <= d <= end_) then Some 0 else None.
Proof.
  destruct (dict_find (zero_counts start end_) d) as [v|] eqn:Hf.
  - pose proof (dict_find_elem _ _ _ Hf) as Hin.
    assert (Hd : d ∈ dict_keys (zero_counts start end_)) by (apply dict_find_keys; eauto).
    rewrite zero_counts_keys in Hd. apply window_day in Hd.
    rewrite zero_counts_eq in Hin. apply list_elem_of_fmap in Hin as (i & [= _ ->] & _).
    by rewrite decide_True.
  - case_decide as Hd; [|done].
    assert (is_Some (dict_find (zero_counts start end_) d)) as [v Hv].
    { apply dict_find_keys. rewrite zero_counts_keys. by apply window_day. }
    congruence.
Qed.

Lemma fill_counts_find (counts : dict) (rows : list (date * Z)) (d : date) :
  dict_find (fill_counts counts rows) d
  = match last_count rows d with Some c => Some c | None => dict_find counts d end.
Proof.
  unfold fill_counts, last_count. revert counts.
  induction rows as [|[k c] rows IH]; intros counts; simpl; [done|].
  rewrite IH, filter_cons. simpl. destruct (decide (k = d)) as [->|Hne].
  - rewrite dict_find_setitem, decide_True by done.
    destruct (filter _ rows) as [|r l] eqn:Hl; [done|].
    change (last ((d, c) :: r :: l)) with (last (r :: l)).
    destruct (last_is_Some (r :: l)) as [_ [x ->]]; done.
  - by rewrite dict_find_setitem, decide_False.
Qed.

(** X6: the count map the renderer builds holds every day of the window,
    whatever the query returns, and besides them exactly the days of the
    returned rows; the count of a day is that of the last row returned for
    it, and 0 when no row names it. *)
Theorem load_counts_cover (db : conn) (start end_ d : date) :
  (d ∈ dict_keys (load_counts db start end_) ↔
     start <= d <= end_ ∨ ∃ c, (d, c) ∈ db start end_) ∧
  dict_get (load_counts db start end_) d 0
  = default 0 (last_count (db start end_) d).
Proof.
  assert (Hfind := fill_counts_find (zero_counts start end_) (db start end_) d).
  rewrite zero_counts_find in Hfind. fold (load_counts db start end_) in Hfind.
  assert (Hlast : is_Some (last_count (db start end_) d) ↔ ∃ c, (d, c) ∈ db start end_).
  { unfold last_count. rewrite fmap_is_Some. split.
    - intros [[k c] Hl]. apply last_Some_elem_of, list_elem_of_filter in Hl as [Hk Hin].
      simpl in Hk. subst k. by exists c.
    - intros [c Hin]. destruct (filter _ (db start end_)) as [|r l] eqn:Hl.
      + assert (Hf : (d, c) ∈ filter (λ row : date * Z, row.1 = d) (db start end_))
          by by apply list_elem_of_filter.
        rewrite Hl in Hf. by apply elem_of_nil in Hf.
      + destruct (last_is_Some (r :: l)) as [_ Hs]. by apply Hs. }
  split.
  - rewrite <- dict_find_keys, Hfind. split.
    + intros [v Hv]. destruct (last_count (db start end_) d) as [c|] eqn:Hc.
      * right. apply Hlast. by exists c.
      * case_decide; [by left|done].
    + intros [Hin|[c Hc]%Hlast].
      * destruct (last_count (db start end_) d); [by eexists|].
        rewrite decide_True by done. by eexists.
      * rewrite Hc. by eexists.
  - unfold dict_get. rewrite Hfind.
    destruct (last_count (db start end_) d); [done|]. by case_decide.
Qed.

(** ** Grid renderer *)

(** No symbol of the stage selector can be taken for a blank cell. *)
Lemma blank_no_symbol :
  blank ∉ empty_glyph ::
    SEED_LIST ++ SAPLING_LIST ++ TREE_LIST ++ BUG_LIST ++ WOODLAND_ANIMAL_LIST.
Proof.
  set (l := empty_glyph :: _).
  apply (bool_decide_eq_true_1 (blank ∉ l)). by vm_compute.
Qed.

Section RendererExtras.

Context `{RandomLib}.

Hypothesis randbelow_range : randbelow_in_range.

Lemma glyph_not_blank (n : Z) : glyph n ≠ blank.
Proof.
  destruct (stage_for_count_spec randbelow_range n)
    as (s & Hs & H0 & H1 & H2 & H3 & H4 & H5).
  unfold glyph. rewrite Hs. intros ->. apply blank_no_symbol.
  assert (n <= 0 ∨ n = 1 ∨ n = 2 ∨ n = 3 ∨ n = 4 ∨ 5 <= n) as Hn by lia.
  rewrite elem_of_cons, !elem_of_app.
  destruct Hn as [?|[?|[?|[?|[?|?]]]]]; auto 10.
Qed.

Lemma window_in_range_returns (db : conn) (weeks : Z) (w : World) :
  window_in_range db weeks w → ∃ g, forest_grid db weeks w = Ret g.
Proof. intros (Hclock & Hstart & Hrows). by apply forest_grid_returns. Qed.

(** X7: for [weeks > 0] every row of a grid the renderer returns has
    [weeks] columns when the window starts on a Monday, and [weeks + 1]
    columns otherwise.  The renderer returns a grid when the clock shows a
    date, the window starts at a date after 0001-01-01 and the rows are
    dated after 0001-01-01. *)
Theorem forest_grid_columns (db : conn) (weeks : Z) (w : World) :
  0 < weeks →
  let start := date_today w - (weeks * 7 - 1) in
  (window_in_range db weeks w → ∃ g, forest_grid db weeks w = Ret g) ∧
  ∀ g : grid, forest_grid db weeks w = Ret g →
    ∀ row, row ∈ g →
      Z.of_nat (length row) = if decide (weekday start = 0) then weeks else weeks + 1.
Proof.
  intros Hweeks start. split; [apply window_in_range_returns|].
  intros g Hg. destruct (forest_grid_Ret randbelow_range db weeks w g Hg)
    as (_ & streaks & _ & ->).
  fold start. intros row Hrow.
  apply grid_table_rows in Hrow. rewrite Hrow.
  pose proof (weekday_range start). unfold monday_of.
  case_decide; Z.div_mod_to_equations; lia.
Qed.

(** X8: a cell of a grid the renderer returns is blank exactly when its
    date lies outside the window: no day of the window is ever shown as a
    blank cell.  The renderer returns a grid when the clock shows a date,
    the window starts at a date after 0001-01-01 and the rows are dated
    after 0001-01-01. *)
Theorem forest_grid_blank_iff (db : conn) (weeks : Z) (w : World) :
  let end_ := date_today w in
  let start := end_ - (weeks * 7 - 1) in
  let monday := monday_of start in
  (window_in_range db weeks w → ∃ g, forest_grid db weeks w = Ret g) ∧
  ∀ g : grid, forest_grid db weeks w = Ret g →
    ∀ r c s, grid_cell g r c = Some s →
      (s = blank ↔ ¬ (start <= monday + (7 * c + r) <= end_)).
Proof.
  intros end_ start monday. split; [apply window_in_range_returns|].
  intros g Hg. destruct (forest_grid_Ret randbelow_range db weeks w g Hg)
    as (_ & streaks & _ & ->).
  fold end_ start monday.
  intros r c s Hcell. unfold grid_upto in Hcell.
  destruct (grid_cell_table_Some _ _ _ _ _ Hcell) as [Hr Hc].
  rewrite grid_cell_table in Hcell by done. injection Hcell as <-.
  case_decide as Hlt; [|split; [lia|done]].
  unfold day_cell.
  destruct (decide (start <= monday + (7 * c + r) <= end_)) as [Hin|Hout].
  - rewrite !bool_decide_eq_false_2 by lia. simpl.
    split; [intros Hb; by apply glyph_not_blank in Hb|done].
  - split; [done|intros _].
    destruct (decide (monday + (7 * c + r) < start)).
    + by rewrite bool_decide_eq_true_2.
    + lia.
Qed.

(** X9: for [weeks > 0] the window begins in the first column and ends in
    the last one of a grid the renderer returns: the first day of the window
    sits in column 0, today sits in the last column in the row of its
    weekday, and the cells under it in that column, the rest of the current
    week, are blank.  The renderer returns a grid when the clock shows a
    date, the window starts at a date after 0001-01-01 and the rows are
    dated after 0001-01-01. *)
Theorem forest_grid_corners (db : conn) (weeks : Z) (w : World) :
  0 < weeks →
  let end_ := date_today w in
  let start := end_ - (weeks * 7 - 1) in
  (window_in_range db weeks w → ∃ g, forest_grid db weeks w = Ret g) ∧
  ∀ g : grid, forest_grid db weeks w = Ret g →
    ∃ (streaks : dict) (cols : Z) (s0 s1 : string),
      day_streaks (load_counts db start end_) = Ret streaks ∧
      (∀ row, row ∈ g → Z.of_nat (length row) = cols) ∧
      grid_cell g (weekday start) 0 = Some s0 ∧
      stage_for_count (dict_get streaks start 0) = Ret s0 ∧
      grid_cell g (weekday end_) (cols - 1) = Some s1 ∧
      stage_for_count (dict_get streaks end_ 0) = Ret s1 ∧
      ∀ r, weekday end_ < r < 7 → grid_cell g r (cols - 1) = Some blank.
Proof.
  intros Hweeks end_ start. split; [apply window_in_range_returns|].
  intros g Hg. destruct (forest_grid_Ret randbelow_range db weeks w g Hg)
    as (_ & streaks & Hstreaks & ->).
  fold end_ start in Hstreaks |- *.
  destruct (monday_of_spec start) as [Hm Hs].
  set (monday := monday_of start) in *. set (days := end_ - monday + 1) in *.
  set (cols := (days + 6) / 7) in *.
  assert (Hdays : 0 < days) by (unfold days, start; lia).
  destruct (day_position monday start days) as (Hr0 & Hc0 & Hi0); [done|lia|unfold days, start; lia|].
  destruct (day_position monday end_ days) as (Hr1 & Hc1 & Hi1); [done|unfold start in Hs; lia|unfold days; lia|].
  fold cols in Hc0, Hc1.
  assert (Hfirst : (start - monday) / 7 = 0) by (Z.div_mod_to_equations; lia).
  assert (Hlast : (end_ - monday) / 7 = cols - 1)
    by (unfold cols, days; Z.div_mod_to_equations; lia).
  rewrite Hfirst in *. rewrite Hlast in *.
  exists streaks, cols,
    (glyph (dict_get streaks start 0)), (glyph (dict_get streaks end_ 0)).
  split; [done|]. split.
  { intros row Hrow. apply grid_table_rows in Hrow. rewrite Hrow. lia. }
  unfold grid_upto.
  split; [|split; [by apply stage_for_count_returns|]].
  { rewrite grid_cell_table by done. f_equal. rewrite Hi0, decide_True by lia.
    replace (monday + (start - monday)) with start by lia.
    unfold day_cell. by rewrite !bool_decide_eq_false_2 by (unfold start; lia). }
  split; [|split; [by apply stage_for_count_returns|]].
  { rewrite grid_cell_table by done. f_equal. rewrite Hi1, decide_True by (unfold days; lia).
    replace (monday + (end_ - monday)) with end_ by lia.
    unfold day_cell. by rewrite !bool_decide_eq_false_2 by (unfold start; lia). }
  intros r Hr. rewrite grid_cell_table by lia. f_equal.
  rewrite decide_False; [done|]. unfold days. lia.
Qed.

(** The text of a grid that [forest_grid] has returned. *)
Lemma render_forest_returns_lines (db : conn) (weeks : Z) (w : World) (g : grid) :
  forest_grid db weeks w = Ret g →
  length g = 7%nat ∧
  render_forest db weeks w = Ret (String.concat newline (forest_lines weeks g)).
Proof.
  intros Hg. destruct (forest_grid_Ret randbelow_range db weeks w g Hg)
    as (_ & streaks & _ & Heq).
  assert (Hlen : length g = 7%nat) by (rewrite Heq; apply grid_table_rows).
  split; [exact Hlen|].
  unfold render_forest. rewrite Hg, ret_bind. clear Hg Heq.
  do 7 (destruct g as [|? g]; [done|]). destruct g; [|done].
  reflexivity.
Qed.

(** X10: [render_forest] has the outcome of the grid: from a grid it makes
    the header line that names [weeks], followed by one line for each
    weekday from Monday to Sunday, made of the weekday's label, two spaces
    and the cells of its row; it returns when the clock shows a date, the
    window starts at a date after 0001-01-01 and the rows are dated after
    0001-01-01, and it raises [OverflowError] when the window does not start
    at a date. *)
Theorem render_forest_lines (db : conn) (weeks : Z) (w : World) :
  (window_in_range db weeks w → ∃ text, render_forest db weeks w = Ret text) ∧
  (∀ g : grid, forest_grid db weeks w = Ret g →
     length g = 7%nat ∧
     render_forest db weeks w = Ret (String.concat newline (forest_lines weeks g))) ∧
  (∀ e, forest_grid db weeks w = Raise e → render_forest db weeks w = Raise e) ∧
  (¬ valid_date (date_today w - (weeks * 7 - 1)) →
   render_forest db weeks w = Raise OverflowError).
Proof.
  split; [|split; [|split]].
  - intros [g Hg]%window_in_range_returns.
    destruct (render_forest_returns_lines db weeks w g Hg) as [_ Htext]. by eexists.
  - apply render_forest_returns_lines.
  - intros e Hg. unfold render_forest. by rewrite Hg.
  - intros Hstart. unfold render_forest. by rewrite forest_grid_overflow.
Qed.

End RendererExtras.

Lemma example_window_in_range :
  window_in_range example_db 1 (world_at (ymd 2024 1 4) 3600).
Proof.
  split; [exact example_clock_in_range|]. split; [split; by vm_compute|].
  intros row. apply example_db_after_min.
Qed.

Lemma forest_grid_columns_witness :
  @randbelow_in_range seed_mod ∧ 0 < 1 ∧
  ∃ g : grid,
    forest_grid (H := seed_mod) example_db 1 (world_at (ymd 2024 1 4) 3600) = Ret g ∧
    ∀ row, row ∈ g → Z.of_nat (length row) = 2.
Proof.
  split; [exact seed_mod_in_range|]. split; [lia|].
  destruct (forest_grid_columns seed_mod_in_range example_db 1
              (world_at (ymd 2024 1 4) 3600) ltac:(lia)) as [Hret Hcols].
  destruct (Hret example_window_in_range) as [g Hg].
  exists g. split; [exact Hg|]. exact (Hcols g Hg).
Defined.

Lemma forest_grid_blank_iff_witness :
  @randbelow_in_range seed_mod ∧
  ∃ g : grid,
    forest_grid (H := seed_mod) example_db 1 (world_at (ymd 2024 1 4) 3600) = Ret g.
Proof.
  split; [exact seed_mod_in_range|].
  destruct (forest_grid_blank_iff seed_mod_in_range example_db 1
              (world_at (ymd 2024 1 4) 3600)) as [Hret _].
  exact (Hret example_window_in_range).
Defined.

Lemma forest_grid_corners_witness :
  @randbelow_in_range seed_mod ∧ 0 < 1 ∧
  ∃ g : grid,
    forest_grid (H := seed_mod) example_db 1 (world_at (ymd 2024 1 4) 3600) = Ret g.
Proof.
  split; [exact seed_mod_in_range|]. split; [lia|].
  destruct (forest_grid_corners seed_mod_in_range example_db 1
              (world_at (ymd 2024 1 4) 3600) ltac:(lia)) as [Hret _].
  exact (Hret example_window_in_range).
Defined.

Lemma render_forest_lines_witness :
  @randbelow_in_range seed_mod ∧
  ∃ text : string,
    render_forest (H := seed_mod) example_db 1 (world_at (ymd 2024 1 4) 3600) = Ret text.
Proof.
  split; [exact seed_mod_in_range|].
  destruct (render_forest_lines seed_mod_in_range example_db 1
              (world_at (ymd 2024 1 4) 3600)) as [Hret _].
  exact (Hret example_window_in_range).
Defined.

(** ** Words of a text *)

Lemma split_from_nonempty (s word : text) : Forall (λ w : text, w ≠ []) (split_from s word).
Proof.
  revert word. induction s as [|c s IH]; intros word; simpl.
  - destruct word; [constructor|]. by repeat constructor.
  - destruct (isspace c); [|apply IH].
    destruct word; [apply IH|]. constructor; [done|apply IH].
Qed.

Lemma split_from_length (s word : text) :
  length (split_from s word) = words_from s (bool_decide (word ≠ [])).
Proof.
  revert word. induction s as [|c s IH]; intros word; simpl.
  - by destruct word.
  - destruct (isspace c).
    + destruct word; simpl; by rewrite IH.
    + rewrite IH. f_equal. rewrite bool_decide_eq_true_2; [done|]. by destruct word.
Qed.

Lemma filter_all {A : Type} (P : A → Prop) `{!∀ x, Decision (P x)} (l : list A) :
  Forall P l → filter P l = l.
Proof.
  induction 1 as [|x l Hx Hl IH]; [done|]. by rewrite filter_cons, decide_True, IH.
Qed.

Lemma words_from_space (a b : text) (c : Z) (inside : bool) :
  isspace c = true →
  words_from (a ++ c :: b) inside = (words_from a inside + words_from b false)%nat.
Proof.
  intros Hc. revert inside. induction a as [|x a IH]; intros inside; simpl.
  - rewrite Hc. by destruct inside.
  - destruct (isspace x); rewrite IH; lia.
Qed.

Lemma words_from_blank (sp : text) :
  Forall (λ c, isspace c = true) sp → words_from sp false = 0%nat.
Proof. induction 1 as [|c sp Hc _ IH]; simpl; [done|]. by rewrite Hc, IH. Qed.

Lemma words_from_spaces (a sp : text) (inside : bool) :
  Forall (λ c, isspace c = true) sp → words_from (a ++ sp) inside = words_from a inside.
Proof.
  intros Hsp. destruct Hsp as [|c sp Hc Hsp]; [by rewrite app_nil_r|].
  rewrite words_from_space, words_from_blank by done. lia.
Qed.

Lemma lstrip_spec (s : text) :
  ∃ sp, s = sp ++ lstrip s ∧ Forall (λ c, isspace c = true) sp ∧
        (∀ c r, lstrip s = c :: r → isspace c = false).
Proof.
  induction s as [|c s (sp & Hs & Hsp & Hhd)]; simpl.
  - exists []. split; [done|]. split; [constructor|done].
  - destruct (isspace c) eqn:Hc.
    + exists (c :: sp). split; [simpl; by f_equal|]. split; [by constructor|done].
    + exists []. split; [done|]. split; [constructor|]. by intros ? ? [= <- _].
Qed.

Lemma rstrip_spec (s : text) :
  ∃ sp, s = rstrip s ++ sp ∧ Forall (λ c, isspace c = true) sp.
Proof.
  destruct (lstrip_spec (reverse s)) as (sp & Hs & Hsp & _).
  exists (reverse sp). split.
  - unfold rstrip. rewrite <- reverse_app, <- Hs. by rewrite reverse_involutive.
  - by apply Forall_reverse.
Qed.

Lemma words_from_lstrip (s : text) : words_from (lstrip s) false = words_from s false.
Proof. induction s as [|c s IH]; simpl; [done|]. by destruct (isspace c) eqn:Hc; simpl; rewrite ?Hc. Qed.

Lemma words_from_strip (s : text) : words_from (strip s) false = words_from s false.
Proof.
  unfold strip. destruct (rstrip_spec (lstrip s)) as (sp & Hs & Hsp).
  transitivity (words_from (rstrip (lstrip s) ++ sp) false).
  - by rewrite words_from_spaces.
  - by rewrite <- Hs, words_from_lstrip.
Qed.

Lemma word_count_words (t : text) : word_count t = Z.of_nat (words_from t false).
Proof.
  unfold word_count, split.
  rewrite filter_all by apply split_from_nonempty.
  by rewrite split_from_length, bool_decide_eq_false_2, words_from_strip by naive_solver.
Qed.

Lemma words_from_word (w : text) (inside : bool) :
  Forall (λ c, isspace c = false) w → (w ≠ [] ∨ inside = true) → words_from w inside = 1%nat.
Proof.
  intros Hw. revert inside. induction Hw as [|c w Hc Hw IH]; intros inside Hne; simpl.
  - by destruct Hne as [?| ->].
  - rewrite Hc. apply IH. by right.
Qed.

(** X11: [word_count] counts the maximal runs of characters that are not
    white space: a text of white space only has 0 words, a non-empty text
    without white space has 1, and the words of two texts joined by a white
    space character add up. *)
Theorem word_count_runs :
  (∀ t : text, Forall (λ c, isspace c = true) t → word_count t = 0) ∧
  (∀ t : text, t ≠ [] → Forall (λ c, isspace c = false) t → word_count t = 1) ∧
  (∀ (a b : text) (c : Z), isspace c = true →
     word_count (a ++ c :: b) = word_count a + word_count b).
Proof.
  split; [|split].
  - intros t Ht. by rewrite word_count_words, words_from_blank.
  - intros t Hne Ht. rewrite word_count_words, words_from_word; auto.
  - intros a b c Hc. rewrite !word_count_words, words_from_space by done. lia.
Qed.

(** X12: the white space around a text and the test [if w] do not change
    the count: [word_count] gives the same number for a text and for the
    text stripped, and that number is the length of [text.split()]. *)
Theorem word_count_strip (t : text) :
  word_count (strip t) = word_count t ∧
  word_count t = Z.of_nat (length (split t)).
Proof.
  split.
  - by rewrite !word_count_words, words_from_strip.
  - rewrite word_count_words. unfold split. by rewrite split_from_length.
Qed.

(** ** The summary loop of [cmd_log] *)

Lemma with_lines_snoc (summary : text) (used : list text) (line : text) :
  with_lines summary (used ++ [line]) = with_lines summary used ++ (line ++ [10]).
Proof. unfold with_lines. by rewrite foldl_app. Qed.

Lemma read_summary_spec (lines : list text) (summary : text) (out : list string) :
  ∃ (used rest : list text) (msgs : list string),
    lines = used ++ rest ∧
    (∀ k, (k < length used)%nat → word_count (with_lines summary (take k used)) < MIN_WORDS) ∧
    Forall (λ m, ∃ n, n < MIN_WORDS ∧ m = summary_short n) msgs ∧
    ((MIN_WORDS <= word_count (with_lines summary used) ∧
      read_summary lines summary out = (rest, out ++ msgs, Ok (with_lines summary used))) ∨
     (word_count (with_lines summary used) < MIN_WORDS ∧ rest = [] ∧
      read_summary lines summary out = ([], out ++ msgs, Error EOFError))).
Proof.
  revert summary out. induction lines as [|line lines IH]; intros summary out.
  - exists [], [], []. split; [done|]. split; [simpl; intros; lia|]. split; [constructor|].
    rewrite app_nil_r. simpl. case_bool_decide; [right|left]; split; (done || lia).
  - destruct (decide (word_count summary < MIN_WORDS)) as [Hlt|Hge].
    + set (summary' := summary ++ (line ++ [10])).
      set (out' := if bool_decide (word_count summary' < MIN_WORDS)
                   then out ++ [summary_short (word_count summary')] else out).
      destruct (IH summary' out') as (used & rest & msgs & -> & Hshort & Hmsgs & Hres).
      assert (Hout : ∃ msgs', out' ++ msgs = out ++ msgs' ∧
                Forall (λ m, ∃ n, n < MIN_WORDS ∧ m = summary_short n) msgs').
      { unfold out'. case_bool_decide.
        - exists (summary_short (word_count summary') :: msgs).
          split; [by rewrite <- app_assoc|]. constructor; [by eexists|done].
        - by exists msgs. }
      destruct Hout as (msgs' & Hout & Hmsgs').
      exists (line :: used), rest, msgs'. split; [done|]. split.
      { intros [|k] Hk; simpl; [done|]. apply Hshort. simpl in Hk. lia. }
      split; [done|].
      assert (Hstep : read_summary (line :: used ++ rest) summary out
                      = read_summary (used ++ rest) summary' out').
      { simpl. by rewrite bool_decide_eq_true_2. }
      rewrite Hstep, <- Hout. exact Hres.
    + exists [], (line :: lines), []. split; [done|]. split; [simpl; intros; lia|].
      split; [constructor|]. left. split; [simpl; lia|].
      rewrite app_nil_r. simpl. by rewrite bool_decide_eq_false_2.
Qed.

(** X13: the loop that completes the summary reads as few lines as it
    takes: it returns the summary extended by the lines it has read, each
    with a line end, as soon as the count reaches [MIN_WORDS], leaves the
    other lines unread, and raises [EOFError] when the input ends before
    that.  A summary that has [MIN_WORDS] words at the start is returned as
    it is, without a read.  Every line the loop prints reports a count below
    [MIN_WORDS]. *)
Theorem read_summary_gate (lines : list text) (summary : text) (out : list string) :
  ∃ (used rest : list text) (msgs : list string),
    lines = used ++ rest ∧
    (∀ k, (k < length used)%nat → word_count (with_lines summary (take k used)) < MIN_WORDS) ∧
    Forall (λ m, ∃ n, n < MIN_WORDS ∧ m = summary_short n) msgs ∧
    ((MIN_WORDS <= word_count (with_lines summary used) ∧
      read_summary lines summary out = (rest, out ++ msgs, Ok (with_lines summary used))) ∨
     (word_count (with_lines summary used) < MIN_WORDS ∧ rest = [] ∧
      read_summary lines summary out = ([], out ++ msgs, Error EOFError))).
Proof. apply read_summary_spec. Qed.

(** ** The commands *)

Lemma compute_streaks_live (days : list date) (w : World) :
  (∀ d, d ∈ days → inside d) →
  date_today w ∈ days ∨ date_today w - 1 ∈ days →
  ∃ current longest,
    compute_streaks days w = Ret (current, longest) ∧ 1 <= current <= longest.
Proof.
  intros Hdays Hin.
  destruct (compute_streaks_returns days w Hdays) as (c & l & Hrun & _ & Hc).
  { destruct Hin as [?|Hy]; [by left|right]. by destruct (inside_valid _ (Hdays _ Hy)). }
  destruct (compute_streaks_ordered days w c l Hrun) as (Hcl & _).
  exists c, l. split; [done|].
  destruct Hc as [[_ Hk]|[(_ & _ & Hk)|(Hn & Hn' & _)]].
  - destruct Hk. lia.
  - destruct Hk. lia.
  - rewrite elem_of_list_to_set in Hn, Hn'. tauto.
Qed.

Lemma mapM_cons {A B : Type} (f : A → result B) (x : A) (l : list A) :
  mapM f (x :: l) = (y ← f x; k ← mapM f l; mret (y :: k)).
Proof. reflexivity. Qed.

Lemma mapM_Ok {A B : Type} (f : A → result B) (l : list A) :
  (∀ x, x ∈ l → ∃ y, f x = Ok y) →
  ∃ ys, mapM f l = Ok ys ∧ Forall2 (λ x y, f x = Ok y) l ys.
Proof.
  induction l as [|x l IH]; intros Hall.
  - exists []. split; [done|constructor].
  - destruct (Hall x) as [y Hy]; [left|].
    destruct IH as (ys & Hys & Hall'); [intros z Hz; apply Hall; by right|].
    exists (y :: ys). split; [|by constructor].
    by rewrite mapM_cons, Hy, Hys.
Qed.

Lemma mapM_Error {A B : Type} (f : A → result B) (l : list A) (e : failure) :
  (∀ x e', f x = Error e' → e' = e) →
  (∃ x, x ∈ l ∧ ∃ e', f x = Error e') →
  mapM f l = Error e.
Proof.
  intros He. induction l as [|x l IH]; intros (z & Hz & e' & Hfz).
  - by apply elem_of_nil in Hz.
  - rewrite mapM_cons. destruct (f x) as [y|e''] eqn:Hfx.
    + apply elem_of_cons in Hz as [->|Hz]; [congruence|].
      rewrite IH; [done|]. exists z; eauto.
    + by rewrite (He _ _ Hfx).
Qed.

Lemma read_summary_enough (lines : list text) (summary : text) (out : list string) :
  enough_input summary lines →
  ∃ (used rest : list text) (msgs : list string),
    lines = used ++ rest ∧ MIN_WORDS <= word_count (with_lines summary used) ∧
    Forall (λ m, ∃ n, n < MIN_WORDS ∧ m = summary_short n) msgs ∧
    read_summary lines summary out = (rest, out ++ msgs, Ok (with_lines summary used)).
Proof.
  intros [k Hk].
  destruct (read_summary_spec lines summary out)
    as (used & rest & msgs & -> & Hshort & Hmsgs & [[Hge Hrun]|(Hlt & -> & Hrun)]).
  { by exists used, rest, msgs. }
  rewrite app_nil_r in Hk. destruct (decide (k < length used)%nat) as [Hlen|Hlen].
  - specialize (Hshort k Hlen). lia.
  - rewrite take_ge in Hk by lia. lia.
Qed.

Lemma read_summary_short (lines : list text) (summary : text) (out : list string) :
  ¬ enough_input summary lines →
  ∃ msgs : list string,
    read_summary lines summary out = ([], out ++ msgs, Error EOFError).
Proof.
  intros Hno.
  destruct (read_summary_spec lines summary out)
    as (used & rest & msgs & -> & _ & _ & [[Hge _]|(_ & -> & Hrun)]).
  - destruct Hno. exists (length used). by rewrite take_app_length.
  - by exists msgs.
Qed.

Lemma elem_of_sort_distinct (l : list text) (x : text) : x ∈ sort_distinct l ↔ x ∈ l.
Proof. unfold sort_distinct. by rewrite merge_sort_Permutation, elem_of_remove_dups. Qed.

Lemma sort_distinct_length (l : list text) : (length (sort_distinct l) ≤ length l)%nat.
Proof.
  unfold sort_distinct. rewrite merge_sort_Permutation.
  induction l as [|x l IH]; simpl; [done|]. destruct (decide_rel _ _ _); simpl; lia.
Qed.

Lemma elem_of_select_days (db : database) (x : text) :
  x ∈ select_days db ↔ ∃ r, r ∈ rows db ∧ logged_on r = x.
Proof.
  unfold select_days. rewrite elem_of_sort_distinct, list_elem_of_fmap.
  split; intros (r & Hr & Hr'); exists r; by split.
Qed.

Lemma size_list_to_set_le (l : list date) :
  (size (list_to_set l : gset date) ≤ length l)%nat.
Proof.
  induction l as [|x l IH]; [by rewrite list_to_set_nil, size_empty|].
  rewrite list_to_set_cons. simpl.
  destruct (decide (x ∈ (list_to_set l : gset date))).
  - rewrite (subseteq_union_1_L (C := gset date)) by (by apply singleton_subseteq_l). lia.
  - rewrite size_union by (by apply disjoint_singleton_l). rewrite size_singleton. lia.
Qed.

Section CommandExtras.

Context `{RandomLib} `{DateLib}.

Lemma add_log_rows (db : database) (title summary : text)
    (pid date_arg : option text) (w : World) :
  add_log db title summary pid date_arg w
  = {| rows := rows db ++
         [ {| row_id := last_id db + 1; paper_title := strip title;
              paper_id := Some (match pid with
                                | Some p => strip p
                                | None => generated_id db (logged_day date_arg w)
                                end);
              summary := strip summary; word_count_of := word_count summary;
              logged_on := logged_day date_arg w |} ];
       last_id := last_id db + 1 |}.
Proof. reflexivity. Qed.

Lemma get_distinct_days_ok (db : database) :
  dates_inside db →
  ∃ days, get_distinct_days db = Ok days ∧
          length days = length (select_days db) ∧
          (∀ r, r ∈ rows db → ∃ d, strptime_ymd (logged_on r) = Some d ∧ d ∈ days) ∧
          (∀ d, d ∈ days → inside d).
Proof.
  intros Hinside.
  destruct (mapM_Ok parse_iso (select_days db)) as (days & Hdays & Hall).
  { intros x (r & Hr & <-)%elem_of_select_days.
    destruct (Hinside r Hr) as (d & Hd & _). exists d. unfold parse_iso. by rewrite Hd. }
  exists days. split; [done|]. split; [symmetry; by eapply Forall2_length|]. split.
  - intros r Hr. destruct (Hinside r Hr) as (d & Hd & _). exists d. split; [done|].
    assert (Hin : logged_on r ∈ select_days db) by (apply elem_of_select_days; eauto).
    apply list_elem_of_lookup in Hin as [i Hi].
    destruct (Forall2_lookup_l _ _ _ _ _ Hall Hi) as (d' & Hd' & Hp).
    unfold parse_iso in Hp. rewrite Hd in Hp. injection Hp as <-.
    by eapply list_elem_of_lookup_2.
  - intros d [i Hi]%list_elem_of_lookup.
    destruct (Forall2_lookup_r _ _ _ _ _ Hall Hi) as (x & Hx & Hp).
    apply list_elem_of_lookup_2, elem_of_select_days in Hx as (r & Hr & <-).
    destruct (Hinside r Hr) as (d' & Hd' & Hin).
    unfold parse_iso in Hp. rewrite Hd' in Hp. by injection Hp as <-.
Qed.

Lemma get_distinct_days_bad (db : database) :
  (∃ r, r ∈ rows db ∧ strptime_ymd (logged_on r) = None) →
  get_distinct_days db = Error ValueError.
Proof.
  intros (r & Hr & Hbad). apply mapM_Error.
  - intros x e'. unfold parse_iso. destruct (strptime_ymd x); congruence.
  - exists (logged_on r). split; [apply elem_of_select_days; eauto|].
    exists ValueError. unfold parse_iso. by rewrite Hbad.
Qed.

Lemma window_rows_ok (db : database) (start end_ : date) :
  dates_inside db →
  ∃ parsed, window_rows db start end_ = Ok parsed ∧
            ∀ row, row ∈ parsed → after_min row.1.
Proof.
  intros Hinside. unfold window_rows.
  assert (Hsel : ∀ row, row ∈ select_counts db (isoformat start) (isoformat end_) →
            ∃ d, strptime_ymd row.1 = Some d ∧ inside d).
  { intros [x n] Hx. unfold select_counts in Hx.
    apply list_elem_of_fmap in Hx as (x' & [= <- _] & Hx').
    apply elem_of_sort_distinct, list_elem_of_fmap in Hx' as (r & -> & Hr).
    apply list_elem_of_filter in Hr as [_ Hr]. by apply Hinside. }
  destruct (mapM_Ok (λ row : text * Z, d ← parse_iso row.1; Ok (d, row.2))
              (select_counts db (isoformat start) (isoformat end_))) as (parsed & Hp & Hall).
  { intros row Hrow. destruct (Hsel row Hrow) as (d & Hd & _).
    exists (d, row.2). unfold parse_iso. by rewrite Hd. }
  exists parsed. split; [done|].
  intros row [i Hi]%list_elem_of_lookup.
  destruct (Forall2_lookup_r _ _ _ _ _ Hall Hi) as (x & Hx & Hpx).
  apply list_elem_of_lookup_2, Hsel in Hx as (d & Hd & Hin).
  unfold parse_iso in Hpx. rewrite Hd in Hpx. simpl in Hpx. injection Hpx as <-.
  simpl. unfold inside in Hin. unfold after_min. lia.
Qed.

(** The start of the window, as [render_forest] computes it first. *)
Lemma window_start_lift (end_ weeks : Z) :
  lift (td ← timedelta (weeks * 7 - 1); date_sub end_ td)
  = if bool_decide (- 999999999 <= weeks * 7 - 1 <= 999999999 ∧
                    valid_date (end_ - (weeks * 7 - 1)))
    then Ok (end_ - (weeks * 7 - 1)) else Error (CoreError OverflowError).
Proof. rewrite window_start. by case_bool_decide. Qed.

Lemma render_forest_db_ok (db : database) (weeks : Z) (w : World) :
  randbelow_in_range → dates_inside db →
  clock_in_range w → after_min (date_today w - (weeks * 7 - 1)) →
  ∃ forest, render_forest_db db weeks w = Ok forest.
Proof.
  intros Hrange Hinside Hclock Hstart. unfold render_forest_db.
  destruct (after_min_valid _ Hstart) as [Hv _].
  rewrite window_start_lift,
    bool_decide_eq_true_2 by (split; [by apply (window_delta (date_today w))|done]).
  destruct (window_rows_ok db (date_today w - (weeks * 7 - 1)) (date_today w) Hinside)
    as (parsed & Hparsed & Hrows).
  change (Ok (date_today w - (weeks * 7 - 1)) ≫= ?k) with (k (date_today w - (weeks * 7 - 1))).
  cbv beta. rewrite Hparsed.
  destruct (forest_grid_returns Hrange (λ _ _, parsed) weeks w Hclock Hstart) as [g Hg];
    [exact Hrows|].
  destruct (render_forest_returns_lines Hrange _ _ _ _ Hg) as [_ Htext].
  change (Ok parsed ≫= ?k) with (k parsed). cbv beta. rewrite Htext. by eexists.
Qed.

Lemma render_forest_db_overflow (db : database) (weeks : Z) (w : World) :
  ¬ valid_date (date_today w - (weeks * 7 - 1)) →
  render_forest_db db weeks w = Error (CoreError OverflowError).
Proof.
  intros Hstart. unfold render_forest_db.
  rewrite window_start_lift, bool_decide_eq_false_2; [done|tauto].
Qed.

Lemma cmd_log_unfold (args : log_args) (w1 w2 w3 : World) (c : Console) (db : database) :
  cmd_log args w1 w2 w3 c db
  = match read_summary (stdin c) (initial_summary args) (stdout c ++ prompt_lines args) with
    | (lines, out, Error e) => ({| stdin := lines; stdout := out |}, db, Error e)
    | (lines, out, Ok summary) =>
        let db := add_log db (log_title args) summary (log_paper_id args) (log_date args) w1 in
        match days ← get_distinct_days db; lift (compute_streaks days w2) with
        | Error e => ({| stdin := lines; stdout := out |}, db, Error e)
        | Ok (cur, longest) =>
            let out := out ++ logged_lines cur longest in
            match render_forest_db db (log_weeks args) w3 with
            | Error e => ({| stdin := lines; stdout := out |}, db, Error e)
            | Ok forest => ({| stdin := lines; stdout := out ++ [forest] |}, db, Ok ())
            end
        end
    end.
Proof.
  unfold cmd_log, initial_summary, prompt_lines.
  destruct (log_summary args); simpl; [by rewrite app_nil_r|done].
Qed.

Lemma add_log_keeps (db : database) (title summary : text)
    (pid date_arg : option text) (w : World) (r : log_row) :
  r ∈ rows db → r ∈ rows (add_log db title summary pid date_arg w).
Proof. intros Hr. rewrite add_log_rows. simpl. apply elem_of_app. by left. Qed.

Lemma cmd_stats_bad (weeks : Z) (w2 w3 : World) (c : Console) (db : database) :
  (∃ r, r ∈ rows db ∧ strptime_ymd (logged_on r) = None) →
  cmd_stats weeks w2 w3 c db = (c, Error ValueError).
Proof. intros Hbad. unfold cmd_stats. by rewrite (get_distinct_days_bad db Hbad). Qed.

Lemma cmd_log_bad (args : log_args) (w1 w2 w3 : World) (c : Console) (db : database) :
  (∃ r, r ∈ rows db ∧ strptime_ymd (logged_on r) = None) →
  (cmd_log args w1 w2 w3 c db).2 ≠ Ok ().
Proof.
  intros (r & Hr & Hbad). rewrite cmd_log_unfold.
  destruct (read_summary _ _ _) as [[lines out] [s|e]]; [|done].
  cbv zeta. rewrite get_distinct_days_bad; [done|].
  exists r. split; [by apply add_log_keeps|done].
Qed.

(** X14: when the summary given to [cmd_log], extended by all the lines of
    standard input, stays below [MIN_WORDS] words, the command ends with
    [EOFError]: it has read all the input, has printed nothing but the prompt
    and the reports of the loop, and has stored nothing. *)
Theorem cmd_log_eof (args : log_args) (w1 w2 w3 : World) (c : Console) (db : database) :
  ¬ enough_input (initial_summary args) (stdin c) →
  ∃ msgs : list string,
    Forall (λ m, ∃ n, n < MIN_WORDS ∧ m = summary_short n) msgs ∧
    cmd_log args w1 w2 w3 c db
    = ({| stdin := []; stdout := stdout c ++ prompt_lines args ++ msgs |}, db, Error EOFError).
Proof.
  intros Hno. rewrite cmd_log_unfold.
  destruct (read_summary_spec (stdin c) (initial_summary args) (stdout c ++ prompt_lines args))
    as (used & rest & msgs & Hlines & _ & Hmsgs & [[Hge _]|(_ & -> & ->)]).
  - destruct Hno. exists (length used). by rewrite Hlines, take_app_length.
  - exists msgs. split; [done|]. by rewrite <- app_assoc.
Qed.

(** X15: [cmd_log] keeps the store well counted: if every stored log has at
    least [MIN_WORDS] words and a word count that is the one of its stored
    summary, the same holds after the command, whatever its outcome.  The
    command leaves the store as it is exactly when it ends with [EOFError]
    in its loop; otherwise it has added one row, with the next [id], also
    when it fails afterwards. *)
Theorem cmd_log_well_counted (args : log_args) (w1 w2 w3 : World) (c : Console)
    (db : database) :
  well_counted db →
  ∃ (c' : Console) (db' : database) (res : result unit),
    cmd_log args w1 w2 w3 c db = (c', db', res) ∧
    well_counted db' ∧
    ((¬ enough_input (initial_summary args) (stdin c) ∧ db' = db ∧ res = Error EOFError) ∨
     (enough_input (initial_summary args) (stdin c) ∧
      ∃ r, rows db' = rows db ++ [r] ∧ row_id r = last_id db + 1 ∧
           last_id db' = last_id db + 1 ∧ MIN_WORDS <= word_count_of r)).
Proof.
  intros Hwell. rewrite cmd_log_unfold.
  destruct (read_summary_spec (stdin c) (initial_summary args) (stdout c ++ prompt_lines args))
    as (used & rest & msgs & Hlines & Hshort & _ & [[Hge ->]|(Hlt & -> & ->)]).
  - set (s := with_lines (initial_summary args) used) in *. cbv zeta.
    set (db' := add_log db (log_title args) s (log_paper_id args) (log_date args) w1).
    assert (Hwell' : well_counted db').
    { intros r Hr. unfold db' in Hr. rewrite add_log_rows in Hr. simpl in Hr.
      apply elem_of_app in Hr as [Hr|Hr]; [by apply Hwell|].
      apply list_elem_of_singleton in Hr as ->. simpl. split; [done|].
      by rewrite word_count_words, (word_count_words (strip s)), words_from_strip. }
    assert (Hrow : enough_input (initial_summary args) (stdin c) ∧
              ∃ r, rows db' = rows db ++ [r] ∧ row_id r = last_id db + 1 ∧
                   last_id db' = last_id db + 1 ∧ MIN_WORDS <= word_count_of r).
    { split; [exists (length used); by rewrite Hlines, take_app_length|].
      unfold db'. rewrite add_log_rows. simpl. eexists. split; [reflexivity|]. by simpl. }
    destruct (get_distinct_days db' ≫= _) as [[cur longest]|e].
    + destruct (render_forest_db db' (log_weeks args) w3) as [forest|e];
        eexists _, db', _; (split; [reflexivity|]); split; auto.
    + eexists _, db', _. split; [reflexivity|]. split; auto.
  - eexists _, db, _. split; [reflexivity|]. split; [done|]. left. split; [|done].
    intros [k Hk]. rewrite app_nil_r in Hlines. rewrite Hlines in Hk.
    destruct (decide (k < length used)%nat) as [Hlen|Hlen].
    + specialize (Hshort k Hlen). lia.
    + rewrite take_ge in Hk by lia. lia.
Qed.

(** X16: a log stored for today or for yesterday gives a current streak of
    at least one day.  The summary is complete; the stored days and the day
    [cmd_log] stores read as dates other than 0001-01-01 and 9999-12-31; the
    new day is today or yesterday at the moment the streaks are computed;
    the clock of the renderer shows a date and the window starts at a date
    after 0001-01-01.  Then the command succeeds and stores one row; it
    prints the prompt and the reports of its loop, the lines of the streaks
    [compute_streaks] returns on the stored days, with a current streak
    between 1 and the longest streak, and the forest [render_forest]
    returns. *)
Theorem cmd_log_streak (args : log_args) (w1 w2 w3 : World) (c : Console)
    (db : database) (d : date) :
  randbelow_in_range →
  dates_inside db →
  enough_input (initial_summary args) (stdin c) →
  strptime_ymd (logged_day (log_date args) w1) = Some d → inside d →
  date_today w2 - 1 <= d <= date_today w2 →
  clock_in_range w3 → after_min (date_today w3 - (log_weeks args * 7 - 1)) →
  ∃ (c' : Console) (db' : database) (r : log_row) (msgs : list string)
    (days : list date) (cur longest : Z) (forest : string),
    cmd_log args w1 w2 w3 c db = (c', db', Ok ()) ∧
    rows db' = rows db ++ [r] ∧ logged_on r = logged_day (log_date args) w1 ∧
    get_distinct_days db' = Ok days ∧
    compute_streaks days w2 = Ret (cur, longest) ∧
    render_forest_db db' (log_weeks args) w3 = Ok forest ∧
    Forall (λ m, ∃ n, n < MIN_WORDS ∧ m = summary_short n) msgs ∧
    stdout c' = stdout c ++ prompt_lines args ++ msgs ++ logged_lines cur longest ++ [forest] ∧
    1 <= cur <= longest.
Proof.
  intros Hrange Hinside Henough Hd Hdin Hclock Hclock3 Hstart. rewrite cmd_log_unfold.
  destruct (read_summary_enough (stdin c) (initial_summary args)
              (stdout c ++ prompt_lines args) Henough)
    as (used & rest & msgs & _ & _ & Hmsgs & ->).
  set (s := with_lines (initial_summary args) used). cbv zeta.
  set (db' := add_log db (log_title args) s (log_paper_id args) (log_date args) w1).
  assert (Hrows : ∃ r, rows db' = rows db ++ [r] ∧ logged_on r = logged_day (log_date args) w1).
  { unfold db'. rewrite add_log_rows. simpl. eexists. split; [reflexivity|done]. }
  destruct Hrows as (r & Hrows & Hr).
  assert (Hinside' : dates_inside db').
  { intros r' Hr'. rewrite Hrows in Hr'.
    apply elem_of_app in Hr' as [Hr'|Hr']; [by apply Hinside|].
    apply list_elem_of_singleton in Hr' as ->. rewrite Hr. by exists d. }
  destruct (get_distinct_days_ok db' Hinside') as (days & Hdays & _ & Hin & Hall).
  destruct (Hin r) as (d' & Hd' & Hdd).
  { rewrite Hrows. apply elem_of_app. right. by apply list_elem_of_singleton. }
  rewrite Hr, Hd in Hd'. injection Hd' as <-.
  destruct (compute_streaks_live days w2 Hall) as (cur & longest & Hrun & Hcl).
  { destruct (decide (d = date_today w2)) as [<-|Hne]; [by left|].
    right. by replace (date_today w2 - 1) with d by lia. }
  destruct (render_forest_db_ok db' (log_weeks args) w3 Hrange Hinside' Hclock3 Hstart)
    as [forest Hforest].
  rewrite Hdays. simpl. rewrite Hrun. simpl. rewrite Hforest.
  eexists _, db', r, msgs, days, cur, longest, forest. split; [reflexivity|].
  split; [exact Hrows|]. split; [exact Hr|]. split; [exact Hdays|].
  split; [exact Hrun|]. split; [exact Hforest|]. split; [exact Hmsgs|].
  split; [|exact Hcl]. simpl. by rewrite <- !app_assoc.
Qed.

(** X17: [cmd_log] stores the day it is given without reading it as a date:
    with a complete summary and a [--date] that [parse_iso] rejects, the
    command stores the log with that day and then ends with [ValueError];
    it has printed the prompt and the reports of its loop and nothing else,
    no streak and no forest.  From then on [cmd_stats] ends with
    [ValueError] and prints nothing, and no [cmd_log] succeeds. *)
Theorem cmd_log_bad_date (args : log_args) (w1 w2 w3 : World) (c : Console)
    (db : database) (day : text) :
  log_date args = Some day → day ≠ [] → strptime_ymd day = None →
  enough_input (initial_summary args) (stdin c) →
  ∃ (c' : Console) (db' : database) (r : log_row) (msgs : list string),
    cmd_log args w1 w2 w3 c db = (c', db', Error ValueError) ∧
    rows db' = rows db ++ [r] ∧ logged_on r = day ∧
    Forall (λ m, ∃ n, n < MIN_WORDS ∧ m = summary_short n) msgs ∧
    stdout c' = stdout c ++ prompt_lines args ++ msgs ∧
    (∀ weeks v2 v3 c2, cmd_stats weeks v2 v3 c2 db' = (c2, Error ValueError)) ∧
    (∀ args2 v1 v2 v3 c2, (cmd_log args2 v1 v2 v3 c2 db').2 ≠ Ok ()).
Proof.
  intros Hdate Hne Hbad Henough. rewrite cmd_log_unfold.
  destruct (read_summary_enough (stdin c) (initial_summary args)
              (stdout c ++ prompt_lines args) Henough)
    as (used & rest & msgs & _ & _ & Hmsgs & ->).
  set (s := with_lines (initial_summary args) used). cbv zeta.
  set (db' := add_log db (log_title args) s (log_paper_id args) (log_date args) w1).
  assert (Hrows : ∃ r, rows db' = rows db ++ [r] ∧ logged_on r = day).
  { unfold db'. rewrite add_log_rows. simpl. eexists. split; [reflexivity|]. simpl.
    rewrite Hdate. by destruct day. }
  destruct Hrows as (r & Hrows & Hr).
  assert (Hrow : ∃ r, r ∈ rows db' ∧ strptime_ymd (logged_on r) = None).
  { exists r. split; [|by rewrite Hr]. rewrite Hrows. apply elem_of_app. right.
    by apply list_elem_of_singleton. }
  rewrite (get_distinct_days_bad db' Hrow). simpl.
  eexists _, db', r, msgs. split; [reflexivity|]. split; [exact Hrows|]. split; [exact Hr|].
  split; [exact Hmsgs|]. split; [simpl; by rewrite <- app_assoc|]. split.
  - intros weeks v2 v3 c2. by apply cmd_stats_bad.
  - intros args2 v1 v2 v3 c2. by apply cmd_log_bad.
Qed.

(** X18: [cmd_stats] when every stored day reads as a date other than
    0001-01-01 and 9999-12-31 and today has a day before it: the numbers it
    prints are those of the store and of [compute_streaks] on the stored
    days, and they are ordered, 0 <= current streak <= longest streak <=
    active days <= total logs.  When the clock of the renderer shows a date
    and the window starts at a date after 0001-01-01, the command succeeds
    and prints the forest [render_forest] returns after the numbers; when
    the window does not start at a date, it has printed the numbers and
    ends with [OverflowError].  The input is left alone. *)
Theorem cmd_stats_numbers (weeks : Z) (w2 w3 : World) (c : Console) (db : database) :
  randbelow_in_range →
  dates_inside db →
  after_min (date_today w2) →
  ∃ (days : list date) (cur longest : Z),
    get_distinct_days db = Ok days ∧
    compute_streaks days w2 = Ret (cur, longest) ∧
    0 <= cur <= longest ∧ longest <= Z.of_nat (length days) ∧
    Z.of_nat (length days) <= count_logs db ∧
    (clock_in_range w3 → after_min (date_today w3 - (weeks * 7 - 1)) →
     ∃ forest : string,
       render_forest_db db weeks w3 = Ok forest ∧
       cmd_stats weeks w2 w3 c db
       = ({| stdin := stdin c;
             stdout := stdout c ++
               stats_lines (count_logs db) (Z.of_nat (length days)) cur longest ++ [forest] |},
          Ok ())) ∧
    (¬ valid_date (date_today w3 - (weeks * 7 - 1)) →
     cmd_stats weeks w2 w3 c db
     = ({| stdin := stdin c;
           stdout := stdout c ++
             stats_lines (count_logs db) (Z.of_nat (length days)) cur longest |},
        Error (CoreError OverflowError))).
Proof.
  intros Hrange Hinside Htoday.
  destruct (get_distinct_days_ok db Hinside) as (days & Hdays & Hlen & _ & Hall).
  destruct (compute_streaks_returns days w2 Hall) as (cur & longest & Hrun & _).
  { right. by apply after_min_valid in Htoday as [_ ?]. }
  destruct (compute_streaks_ordered days w2 cur longest Hrun) as (Hcl & Hsize & _).
  exists days, cur, longest. split; [exact Hdays|]. split; [exact Hrun|].
  split; [exact Hcl|].
  pose proof (size_list_to_set_le days) as Hle.
  pose proof (sort_distinct_length (logged_on <$> rows db)) as Hle'.
  rewrite length_fmap in Hle'. unfold select_days in Hlen.
  split; [lia|]. split; [unfold count_logs; lia|].
  unfold cmd_stats. rewrite Hdays. simpl. rewrite Hrun. simpl. split.
  - intros Hclock Hstart.
    destruct (render_forest_db_ok db weeks w3 Hrange Hinside Hclock Hstart) as [forest Hf].
    exists forest. split; [exact Hf|]. rewrite Hf. by rewrite <- app_assoc.
  - intros Hstart. by rewrite (render_forest_db_overflow db weeks w3 Hstart).
Qed.

End CommandExtras.

(** ** Removal and the generated identifiers *)

Lemma text_of_string_inj (s t : string) : text_of_string s = text_of_string t → s = t.
Proof.
  unfold text_of_string. intros Heq.
  rewrite <- (String.string_of_list_ascii_of_string s),
          <- (String.string_of_list_ascii_of_string t).
  f_equal. revert Heq.
  generalize (String.list_ascii_of_string s) (String.list_ascii_of_string t).
  induction l as [|a l IH]; intros [|b l']; simpl; try done.
  intros [= Hab Hl]. f_equal; [|by apply IH].
  apply (inj Z.of_N) in Hab.
  by rewrite <- (Ascii.ascii_N_embedding a), <- (Ascii.ascii_N_embedding b), Hab.
Qed.

Lemma id_text_inj (n m : Z) : id_text n = id_text m → n = m.
Proof. intros Heq%text_of_string_inj. by apply (inj pretty). Qed.

Lemma count_logged_on_insert (db : database) (title : text) (pid : option text)
    (s : text) (wc : Z) (logged day : text) :
  count_logged_on (insert_log db title pid s wc logged) day
  = count_logged_on db day + (if decide (logged = day) then 1 else 0).
Proof.
  unfold count_logged_on, insert_log. simpl.
  rewrite filter_app, length_app, filter_cons, filter_nil. simpl.
  destruct (decide (logged = day)); simpl; lia.
Qed.

Lemma filter_none {A : Type} (P : A → Prop) `{!∀ x, Decision (P x)} (l : list A) :
  (∀ x, x ∈ l → ¬ P x) → filter P l = [].
Proof.
  induction l as [|x l IH]; intros Hall; [done|].
  rewrite filter_cons, decide_False by (apply Hall; left).
  apply IH. intros y Hy. apply Hall. by right.
Qed.

Lemma delete_paper_id_absent (db : database) (pid : text) :
  (∀ r, r ∈ rows db → paper_id r ≠ Some pid) → delete_paper_id db pid = db.
Proof.
  intros Hall. unfold delete_paper_id. destruct db as [rs n]. simpl in *. f_equal.
  apply filter_all, Forall_forall. exact Hall.
Qed.

Lemma count_paper_id_zero (db : database) (pid : text) :
  count_paper_id db pid = 0 ↔ ∀ r, r ∈ rows db → paper_id r ≠ Some pid.
Proof.
  unfold count_paper_id. split.
  - intros Hz r Hr Hpid.
    assert (Hin : r ∈ filter (λ r, paper_id r = Some pid) (rows db))
      by (by apply list_elem_of_filter).
    destruct (filter _ _); [by apply elem_of_nil in Hin|simpl in Hz; lia].
  - intros Hall. by rewrite filter_none.
Qed.

Lemma cmd_remove_store (id : Z) (c : Console) (db : database) :
  - 2 ^ 63 <= id < 2 ^ 63 →
  (cmd_remove id c db).1.2 = delete_paper_id db (id_text id) ∧
  (cmd_remove id c db).2 = Ok ().
Proof.
  intros Hid. unfold cmd_remove. rewrite bool_decide_eq_true_2 by done.
  case_bool_decide as Hz; simpl; [|done].
  split; [|done]. symmetry. by apply delete_paper_id_absent, count_paper_id_zero.
Qed.

(** X19: [cmd_remove] selects by the column [paper_id], not by the [id] of
    a row.  For an [id] in the 64-bit range it succeeds and removes every
    log whose [paper_id] is the decimal text of [id], and no other: the logs
    it keeps stay in their order, and the counter of row ids is not lowered.
    It reports a removal when some log had that [paper_id]; otherwise it
    reports that none was found and leaves the store as it is. *)
Theorem cmd_remove_by_paper_id (id : Z) (c : Console) (db : database) :
  - 2 ^ 63 <= id < 2 ^ 63 →
  ∃ (line : string) (db' : database),
    cmd_remove id c db = ({| stdin := stdin c; stdout := stdout c ++ [line] |}, db', Ok ()) ∧
    rows db' = filter (λ r, paper_id r ≠ Some (id_text id)) (rows db) ∧
    last_id db' = last_id db ∧
    (∀ r, r ∈ rows db' ↔ r ∈ rows db ∧ paper_id r ≠ Some (id_text id)) ∧
    (((∃ r, r ∈ rows db ∧ paper_id r = Some (id_text id)) ∧ line = removed_line id) ∨
     ((∀ r, r ∈ rows db → paper_id r ≠ Some (id_text id)) ∧
      line = not_found_line id ∧ db' = db)).
Proof.
  intros Hid. unfold cmd_remove. rewrite bool_decide_eq_true_2 by done.
  case_bool_decide as Hz.
  - pose proof (proj1 (count_paper_id_zero db (id_text id)) Hz) as Hall.
    exists (not_found_line id), db. split; [done|].
    split; [symmetry; by apply filter_all, Forall_forall|]. split; [done|]. split.
    + intros r. split; [intros Hr; split; [done|by apply Hall]|tauto].
    + by right.
  - exists (removed_line id), (delete_paper_id db (id_text id)). split; [done|].
    split; [done|]. split; [done|]. split.
    + intros r. simpl. rewrite list_elem_of_filter. tauto.
    + left. split; [|done].
      destruct (filter (λ r, paper_id r = Some (id_text id)) (rows db)) as [|r l] eqn:Hf.
      { destruct Hz. unfold count_paper_id. by rewrite Hf. }
      assert (Hr : r ∈ filter (λ r, paper_id r = Some (id_text id)) (rows db))
        by (rewrite Hf; left).
      apply list_elem_of_filter in Hr as [Hp Hr]. by exists r.
Qed.

Section StoreExtras.

Context `{DateLib}.

(** X20: the identifiers [add_log] makes are not unique.  Two logs are
    stored for the same day without [--paper-id]; the first is removed by
    [cmd_remove], its identifier being the decimal text of [id] and borne by
    no older log; a third log is stored for that day.  Then the second and
    the third log are two rows with the same [paper_id]: the third log gets
    the identifier the second one has. *)
Theorem generated_id_reused (db : database) (t1 s1 t2 s2 t3 s3 : text)
    (date_arg : option text) (w1 w2 w3 : World) (c : Console) (id : Z) (day : text) :
  logged_day date_arg w1 = day → logged_day date_arg w2 = day →
  logged_day date_arg w3 = day →
  - 2 ^ 63 <= id < 2 ^ 63 →
  generated_id db day = id_text id →
  (∀ r, r ∈ rows db → paper_id r ≠ Some (id_text id)) →
  ∃ second third : log_row,
    rows (add_log
            (cmd_remove id c
               (add_log (add_log db t1 s1 None date_arg w1) t2 s2 None date_arg w2)).1.2
            t3 s3 None date_arg w3)
    = rows db ++ [second; third] ∧
    row_id second = last_id db + 2 ∧ row_id third = last_id db + 3 ∧
    summary second = strip s2 ∧ summary third = strip s3 ∧
    paper_id second = paper_id third.
Proof.
  intros Hw1 Hw2 Hw3 Hid Hgen Hold.
  set (db1 := add_log db t1 s1 None date_arg w1).
  set (db2 := add_log db1 t2 s2 None date_arg w2).
  destruct (cmd_remove_store id c db2 Hid) as [-> _].
  assert (Hc1 : count_logged_on db1 day = count_logged_on db day + 1).
  { unfold db1, add_log. fold (logged_day date_arg w1). rewrite Hw1.
    by rewrite count_logged_on_insert, decide_True. }
  assert (Hne : generated_id db1 day ≠ id_text id).
  { rewrite <- Hgen. unfold generated_id. rewrite Hc1.
    intros Heq%app_inv_head%text_of_string_inj. apply (inj pretty) in Heq. lia. }
  assert (Hrows2 : rows db2 = rows db ++
            [ {| row_id := last_id db + 1; paper_title := strip t1;
                 paper_id := Some (id_text id); summary := strip s1;
                 word_count_of := word_count s1; logged_on := day |};
              {| row_id := last_id db + 1 + 1; paper_title := strip t2;
                 paper_id := Some (generated_id db1 day); summary := strip s2;
                 word_count_of := word_count s2; logged_on := day |} ]).
  { assert (Hrows1 : rows db1 = rows db ++
              [ {| row_id := last_id db + 1; paper_title := strip t1;
                   paper_id := Some (id_text id); summary := strip s1;
                   word_count_of := word_count s1; logged_on := day |} ]).
    { unfold db1. rewrite add_log_rows. cbn [rows]. by rewrite Hw1, Hgen. }
    assert (Hlast1 : last_id db1 = last_id db + 1) by done.
    unfold db2. rewrite add_log_rows. cbn [rows]. rewrite Hrows1, Hlast1, Hw2.
    by rewrite <- app_assoc. }
  set (db3 := delete_paper_id db2 (id_text id)).
  assert (Hrows3 : rows db3 = rows db ++
            [ {| row_id := last_id db + 1 + 1; paper_title := strip t2;
                 paper_id := Some (generated_id db1 day); summary := strip s2;
                 word_count_of := word_count s2; logged_on := day |} ]).
  { unfold db3, delete_paper_id. cbn [rows]. rewrite Hrows2, filter_app.
    rewrite (filter_all _ (rows db)) by (by apply Forall_forall).
    f_equal. rewrite filter_cons, decide_False by (simpl; tauto).
    rewrite filter_cons, decide_True by (simpl; congruence). done. }
  assert (Hlast3 : last_id db3 = last_id db + 1 + 1) by done.
  assert (Hc3 : count_logged_on db3 day = count_logged_on db day + 1).
  { unfold count_logged_on. rewrite Hrows3, filter_app, length_app, filter_cons, filter_nil.
    simpl. rewrite decide_True by done. simpl. lia. }
  assert (Hgen3 : generated_id db3 day = generated_id db1 day).
  { unfold generated_id. by rewrite Hc1, Hc3. }
  eexists _, _. rewrite add_log_rows. cbn [rows]. rewrite Hrows3, Hw3, Hgen3, Hlast3.
  rewrite <- app_assoc. split; [reflexivity|]. cbn.
  split; [lia|]. split; [lia|]. done.
Qed.

End StoreExtras.

(** ** The commands on an example *)

Lemma example_input_short :
  ¬ enough_input (initial_summary (example_args None None)) (stdin example_console).
Proof. intros [k Hk]. destruct k as [|[|k]]; vm_compute in Hk; exact (Hk eq_refl). Qed.

Lemma example_input_enough (date_arg : option text) :
  enough_input (initial_summary (example_args (Some example_summary) date_arg))
    (stdin example_console).
Proof. exists 0%nat. vm_compute. discriminate. Qed.

Lemma example_store_well_counted : well_counted example_store.
Proof.
  intros r Hr. apply list_elem_of_singleton in Hr as ->.
  split; vm_compute; [discriminate|reflexivity].
Qed.

Lemma example_store_inside : @dates_inside ordinal_dates example_store.
Proof.
  intros r Hr. apply list_elem_of_singleton in Hr as ->.
  exists (ymd 2024 1 3). split; [reflexivity|split; by vm_compute].
Qed.

Lemma example_clock_shows_date : clock_in_range example_clock.
Proof. split; by vm_compute. Qed.

Lemma example_clock_after_min : after_min (date_today example_clock).
Proof. split; by vm_compute. Qed.

Lemma example_window_after_min : after_min (date_today example_clock - (1 * 7 - 1)).
Proof. split; by vm_compute. Qed.

Lemma cmd_log_eof_witness :
  ¬ enough_input (initial_summary (example_args None None)) (stdin example_console) ∧
  ∃ c' : Console,
    cmd_log (H := seed_mod) (H0 := ordinal_dates) (example_args None None)
      example_clock example_clock example_clock example_console example_store
    = (c', example_store, Error EOFError).
Proof.
  split; [exact example_input_short|].
  destruct (cmd_log_eof (H := seed_mod) (H0 := ordinal_dates) (example_args None None)
              example_clock example_clock example_clock example_console example_store
              example_input_short) as (msgs & _ & Heq).
  eexists. exact Heq.
Defined.

Lemma cmd_log_well_counted_witness :
  well_counted example_store ∧
  ∃ (c' : Console) (db' : database) (res : result unit),
    cmd_log (H := seed_mod) (H0 := ordinal_dates) (example_args (Some example_summary) None)
      example_clock example_clock example_clock example_console example_store
    = (c', db', res) ∧ well_counted db'.
Proof.
  split; [exact example_store_well_counted|].
  destruct (cmd_log_well_counted (H := seed_mod) (H0 := ordinal_dates)
              (example_args (Some example_summary) None)
              example_clock example_clock example_clock example_console example_store
              example_store_well_counted) as (c' & db' & res & Heq & Hwell & _).
  exists c', db', res. split; [exact Heq|exact Hwell].
Defined.

Lemma cmd_log_streak_witness :
  @randbelow_in_range seed_mod ∧ @dates_inside ordinal_dates example_store ∧
  ∃ (c' : Console) (db' : database),
    cmd_log (H := seed_mod) (H0 := ordinal_dates) (example_args (Some example_summary) None)
      example_clock example_clock example_clock example_console example_store
    = (c', db', Ok ()).
Proof.
  split; [exact seed_mod_in_range|]. split; [exact example_store_inside|].
  destruct (cmd_log_streak (H := seed_mod) (H0 := ordinal_dates)
              (example_args (Some example_summary) None)
              example_clock example_clock example_clock example_console example_store
              (date_today example_clock)
              seed_mod_in_range example_store_inside (example_input_enough None)
              eq_refl ltac:(split; by vm_compute) ltac:(lia)
              example_clock_shows_date example_window_after_min)
    as (c' & db' & _ & _ & _ & _ & _ & _ & Heq & _).
  exists c', db'. exact Heq.
Defined.

Lemma cmd_log_bad_date_witness :
  @strptime_ymd ordinal_dates [50; 48; 50; 52] = None ∧
  ∃ (c' : Console) (db' : database),
    cmd_log (H := seed_mod) (H0 := ordinal_dates)
      (example_args (Some example_summary) (Some [50; 48; 50; 52]))
      example_clock example_clock example_clock example_console example_store
    = (c', db', Error ValueError).
Proof.
  split; [reflexivity|].
  destruct (cmd_log_bad_date (H := seed_mod) (H0 := ordinal_dates)
              (example_args (Some example_summary) (Some [50; 48; 50; 52]))
              example_clock example_clock example_clock example_console example_store
              [50; 48; 50; 52] eq_refl ltac:(discriminate) eq_refl
              (example_input_enough (Some [50; 48; 50; 52])))
    as (c' & db' & _ & _ & Heq & _).
  exists c', db'. exact Heq.
Defined.

Lemma cmd_stats_numbers_witness :
  @randbelow_in_range seed_mod ∧ @dates_inside ordinal_dates example_store ∧
  after_min (date_today example_clock) ∧
  ∃ c' : Console,
    cmd_stats (H := seed_mod) (H0 := ordinal_dates) 1 example_clock example_clock
      example_console example_store
    = (c', Ok ()).
Proof.
  split; [exact seed_mod_in_range|]. split; [exact example_store_inside|].
  split; [exact example_clock_after_min|].
  destruct (cmd_stats_numbers (H := seed_mod) (H0 := ordinal_dates) 1
              example_clock example_clock example_console example_store
              seed_mod_in_range example_store_inside example_clock_after_min)
    as (days & cur & longest & _ & _ & _ & _ & _ & Hret & _).
  destruct (Hret example_clock_shows_date example_window_after_min) as (forest & _ & Heq).
  eexists. exact Heq.
Defined.

Lemma cmd_remove_by_paper_id_witness :
  - 2 ^ 63 <= 7 < 2 ^ 63 ∧
  ∃ (c' : Console) (db' : database),
    cmd_remove 7 example_console example_store = (c', db', Ok ()) ∧
    rows db' = filter (λ r, paper_id r ≠ Some (id_text 7)) (rows example_store).
Proof.
  split; [lia|].
  destruct (cmd_remove_by_paper_id 7 example_console example_store ltac:(lia))
    as (line & db' & Heq & Hrows & _).
  eexists _, db'. split; [exact Heq|exact Hrows].
Defined.

Lemma generated_id_reused_witness :
  generated_id example_store example_day = id_text 202401041 ∧
  ∃ second third : log_row,
    rows (add_log (H0 := ordinal_dates)
            (cmd_remove 202401041 example_console
               (add_log (H0 := ordinal_dates)
                  (add_log (H0 := ordinal_dates) example_store [65] [97] None
                     (Some example_day) example_clock)
                  [66] [98] None (Some example_day) example_clock)).1.2
            [67] [99] None (Some example_day) example_clock)
    = rows example_store ++ [second; third] ∧
    paper_id second = paper_id third.
Proof.
  assert (Hgen : generated_id example_store example_day = id_text 202401041)
    by (vm_compute; reflexivity).
  split; [exact Hgen|].
  destruct (generated_id_reused (H := ordinal_dates) example_store
              [65] [97] [66] [98] [67] [99] (Some example_day)
              example_clock example_clock example_clock example_console 202401041
              example_day eq_refl eq_refl eq_refl ltac:(lia) Hgen)
    as (second & third & Hrows & _ & _ & _ & _ & Hpid).
  { intros r Hr. apply list_elem_of_singleton in Hr as ->. discriminate. }
  exists second, third. split; [exact Hrows|exact Hpid].
Defined.
